(** * libaf/filter.c: FIR and IIR filter design, circular-queue FIR runtime

    A shallow embedding of [src/libaf/filter.c].  Buffers the C code reaches
    through pointers are lists indexed from the pointer; a read or a write
    outside the list is undefined behaviour and makes the embedded function
    return [None].  Machine integers are [Z] with the 32-bit wrap-around
    written out.  The sample type [_ftype_t] is a build-time choice (float
    or double), so the arithmetic is an interface, [FType], and the math.h
    functions a second one, [Libm]. *)

From Stdlib Require Import ZArith Lia.
From Stdlib Require PrimFloat Uint63 Reals Lra.
From stdpp Require Import base option list.

Local Open Scope Z_scope.

(** ** Machine integers *)

(** [unsigned int]: arithmetic modulo 2^32. *)
Definition u32 (z : Z) : Z := z mod 2^32.

(** Conversion of an [unsigned int] value to [int] (two's complement). *)
Definition i32 (z : Z) : Z := (z + 2^31) mod 2^32 - 2^31.

Definition INT_MAX : Z := 2^31 - 1.
Definition UINT_MAX : Z := 2^32 - 1.

(** ** The sample type [_ftype_t] and math.h *)

Class FType := {
  ftype_t : Type;
  (** conversion of an integer value or an integer literal *)
  f_of_Z : Z → ftype_t;
  (** the literals 0.5 and 0.25 *)
  f0_5 : ftype_t;
  f0_25 : ftype_t;
  fadd : ftype_t → ftype_t → ftype_t;
  fsub : ftype_t → ftype_t → ftype_t;
  fmul : ftype_t → ftype_t → ftype_t;
  fdiv : ftype_t → ftype_t → ftype_t;
  (** [fle a b] is the C test [a <= b], [flt a b] is [a < b] *)
  fle : ftype_t → ftype_t → bool;
  flt : ftype_t → ftype_t → bool;
}.

Class Libm (FT : FType) := {
  M_PI : ftype_t;
  sin : ftype_t → ftype_t;
  tan : ftype_t → ftype_t;
}.

Declare Scope ftype_scope.
Delimit Scope ftype_scope with fp.
Bind Scope ftype_scope with ftype_t.
Infix "+" := fadd : ftype_scope.
Infix "-" := fsub : ftype_scope.
Infix "*" := fmul : ftype_scope.
Infix "/" := fdiv : ftype_scope.

(** ** Buffers *)

Section Buffers.
Context {A : Type}.

(** [p[i]] as an rvalue. *)
Definition load (m : list A) (i : Z) : option A :=
  if decide (0 ≤ i) then m !! Z.to_nat i else None.

(** [p[i] = v]. *)
Definition store (m : list A) (i : Z) (v : A) : option (list A) :=
  if decide (0 ≤ i < Z.of_nat (length m)) then Some (<[Z.to_nat i := v]> m) else None.
End Buffers.

(** ** FIR runtime *)

Section Runtime.
Context {FT : FType}.

(** The [do { n--; y += w[n]*x[n]; } while (n != 0)] loop of [fir].  The
    pointers [w] and [x] are the offsets [wo] and [xo] in their buffers.
    [fuel] bounds the iterations; the fuel [fir] gives is never used up. *)
Fixpoint fir_loop (fuel : nat) (n : Z) (w : list ftype_t) (wo : Z)
    (x : list ftype_t) (xo : Z) (y : ftype_t) : option ftype_t :=
  match fuel with
  | O => None
  | S fuel' =>
      let n := u32 (n - 1) in
      wn ← load w (wo + n);
      xn ← load x (xo + n);
      let y := (y + wn * xn)%fp in
      if decide (n ≠ 0) then fir_loop fuel' n w wo x xo y else Some y
  end.

(** [fir(n, w, x)]: the body runs before the test, [n] times from
    [n > 0] and 2^32 times from [n = 0]. *)
Definition fir (n : Z) (w : list ftype_t) (wo : Z) (x : list ftype_t) (xo : Z)
    : option ftype_t :=
  fir_loop (Z.to_nat (if decide (n = 0) then 2^32 else n)) n w wo x xo (f_of_Z 0).

(** One accumulation [y += w[i]*x[i]] of [fir], on an accumulator that
    is undefined once a read has been outside its buffer. *)
Definition fir_acc (w : list ftype_t) (wo : Z) (x : list ftype_t) (xo : Z)
    (i : Z) (acc : option ftype_t) : option ftype_t :=
  y ← acc; wn ← load w (wo + i); xn ← load x (xo + i);
  Some (y + wn * xn)%fp.

(** The [while (d-- > 0)] loop of [pfir]; [wt], [xt] and [yp] are the
    offsets of the pointers [wt], [xt] and [y] in the taps [*w], the
    queues [*x] and the output buffer. *)
Fixpoint pfir_loop (d : nat) (n nt s : Z) (wt xt yp : Z)
    (w x y : list ftype_t) : option (Z * list ftype_t) :=
  match d with
  | O => Some (yp, y)
  | S d' =>
      v ← fir n w wt x xt;
      y ← store y yp v;
      pfir_loop d' n nt s (wt + n) (xt + nt) (yp + s) w x y
  end.

(** [pfir(n, d, xi, w, x, y, s)]: the offset of the pointer returned and
    the output buffer afterwards.  The output buffer is taken apart from
    the taps and the queues. *)
Definition pfir (n d xi : Z) (w x y : list ftype_t) (s : Z)
    : option (Z * list ftype_t) :=
  let xt := xi in
  let nt := i32 (u32 (2 * n)) in
  pfir_loop (Z.to_nat d) n nt s 0 xt 0 w x y.

(** The layout [updatepq] maintains for [pfir]: each of the [d] queues is
    [2n] cells, and cell [j] of a queue holds what cell [j + n] holds. *)
Definition doubled (n d : Z) (xq : list ftype_t) : Prop :=
  ∀ q j, 0 ≤ q < d → 0 ≤ j < n →
         load xq (q * (2 * n) + j) = load xq (q * (2 * n) + j + n).

(** The [while (d-- > 0)] loop of [updatepq]; [txq] and [ip] are the
    offsets of the pointers [txq] and [in] in their buffers. *)
Fixpoint updatepq_loop (d : nat) (n nt s : Z) (txq ip : Z)
    (xq inp : list ftype_t) : option (list ftype_t) :=
  match d with
  | O => Some xq
  | S d' =>
      v ← load inp ip;
      xq ← store xq (txq + n) v;
      xq ← store xq txq v;
      updatepq_loop d' n nt s (txq + nt) (ip + s) xq inp
  end.

(** [updatepq(n, d, xi, xq, in, s)]: the new cursor and the queue memory
    [*xq] after the call. *)
Definition updatepq (n d xi : Z) (xq inp : list ftype_t) (s : Z) : option (Z * list ftype_t) :=
  let txq := xi in
  let nt := i32 (u32 (n * 2)) in
  xq' ← updatepq_loop (Z.to_nat d) n nt s txq 0 xq inp;
  Some (i32 (Z.land (u32 (xi + 1)) (u32 (n - 1))), xq').
End Runtime.


(** ** Constants of filter.h and the window generators *)

(** The header [filter.h] is not part of the sources: its selector
    constants are taken as parameters.  [design_fir] tests them with
    [flags & X], [design_pfir] tests [REW] and [ODD]. *)
Class FilterH := {
  BOXCAR : Z; TRIANG : Z; HAMMING : Z; HANNING : Z;
  BLACKMAN : Z; FLATTOP : Z; KAISER : Z; WINDOW_MASK : Z;
  LP : Z; HP : Z; BP : Z; BS : Z;
  REW : Z; ODD : Z;
}.

(** The window generators are external too.  [boxcar n i] is the
    coefficient the call [boxcar(n, w)] leaves in [w[i]], for [0 <= i < n];
    [kaiser] also takes the shape parameter. *)
Class WindowGen (FT : FType) := {
  boxcar : Z → Z → ftype_t;
  triang : Z → Z → ftype_t;
  hamming : Z → Z → ftype_t;
  hanning : Z → Z → ftype_t;
  blackman : Z → Z → ftype_t;
  flattop : Z → Z → ftype_t;
  kaiser : Z → ftype_t → Z → ftype_t;
}.

(** ** FIR filter design *)

Inductive kind := kLP | kHP | kBP | kBS.

#[global] Instance kind_eq_dec : EqDecision kind.
Proof. solve_decision. Defined.

(** [o = n & 1], the indicator for odd filter length. *)
Definition fir_o (n : Z) : Z := Z.land n 1.

(** [end = ((n + 1) >> 1) - o], the loop end. *)
Definition fir_end (n : Z) : Z := u32 (Z.shiftr (u32 (n + 1)) 1 - fir_o n).

Section Design.
Context {FT : FType} {LM : Libm FT} {FH : FilterH} {WG : WindowGen FT}.

(** The variables [w], [g] and [k1] of [design_fir] between its stages. *)
Record fir_state := FirState {
  st_w : list ftype_t;
  st_g : ftype_t;
  st_k1 : ftype_t;
}.

(** Either [design_fir] has returned [code], leaving [w] as given, or it
    goes on to the next stage. *)
Inductive flow :=
| Exit (code : Z) (w : list ftype_t)
| Next (s : fir_state).

(** The [switch (flags & WINDOW_MASK)]: the envelope of the selected
    generator, [None] for the [default] case. *)
Definition window_of (n : Z) (flags : Z) (opt : ftype_t) : option (Z → ftype_t) :=
  let sel := Z.land flags WINDOW_MASK in
  if decide (sel = BOXCAR) then Some (boxcar n)
  else if decide (sel = TRIANG) then Some (triang n)
  else if decide (sel = HAMMING) then Some (hamming n)
  else if decide (sel = HANNING) then Some (hanning n)
  else if decide (sel = BLACKMAN) then Some (blackman n)
  else if decide (sel = FLATTOP) then Some (flattop n)
  else if decide (sel = KAISER) then Some (kaiser n opt)
  else None.

(** A generator call on the buffer [w]: it writes [w[0 .. n-1]]. *)
Definition fill_window (env : Z → ftype_t) (n : Z) (w : list ftype_t) : option (list ftype_t) :=
  if decide (n ≤ Z.of_nat (length w))
  then Some ((env <$> seqZ 0 n) ++ drop (Z.to_nat n) w)
  else None.

(** [((fc <= 1.0) && (fc > 0.0)) ? fc/2 : 0.25] *)
Definition cutoff (fc : ftype_t) : ftype_t :=
  if fle fc (f_of_Z 1) && flt (f_of_Z 0) fc then (fc / f_of_Z 2)%fp else f0_25.

(** [for (i = 0; i < end; i++) { ...; w[end-i-1] = w[n-end+i] = tap; ... }],
    the loop shared by the four designs.  [body i wi g] gives the tap and
    the gain after the iteration, from [wi], the value of [w[end-i-1]]
    before it.  [fuel] counts the iterations left; [i < end] keeps
    [i + 1] below 2^32. *)
Fixpoint taps_loop (body : Z → ftype_t → ftype_t → ftype_t * ftype_t)
    (fuel : nat) (n end_ i : Z) (w : list ftype_t) (g : ftype_t)
    : option (list ftype_t * ftype_t) :=
  match fuel with
  | O => Some (w, g)
  | S fuel' =>
      wi ← load w (u32 (u32 (end_ - i) - 1));
      let '(tap, g') := body i wi g in
      w ← store w (u32 (u32 (n - end_) + i)) tap;
      w ← store w (u32 (u32 (end_ - i) - 1)) tap;
      taps_loop body fuel' n end_ (i + 1) w g'
  end.

(** The cells [w[end-1-j]] and [w[n-end+j]], written together by iteration
    [j], hold the same value, for the iterations before [i]. *)
Definition mirrored (n end_ i : Z) (w : list ftype_t) : Prop :=
  ∀ j, 0 ≤ j < i → load w (end_ - 1 - j) = load w (n - end_ + j).

(** Low pass: [t1 = (i+1) - k2; tap = w * sin(k1 * t1)/(M_PI * t1);
    g += 2*tap]. *)
Definition lp_body (k1 k2 : ftype_t) (i : Z) (wi g : ftype_t) : ftype_t * ftype_t :=
  let t1 := (f_of_Z (u32 (i + 1)) - k2)%fp in
  let tap := (wi * sin (k1 * t1) / (M_PI * t1))%fp in
  (tap, (g + f_of_Z 2 * tap)%fp).

(** High pass: [t1 = i+1; tap = -1 * w * sin(k1 * t1)/(M_PI * t1);
    g += (i&1) ? 2*tap : -2*tap]. *)
Definition hp_body (k1 : ftype_t) (i : Z) (wi g : ftype_t) : ftype_t * ftype_t :=
  let t1 := f_of_Z (u32 (i + 1)) in
  let tap := (f_of_Z (-1) * wi * sin (k1 * t1) / (M_PI * t1))%fp in
  (tap, (g + (if decide (Z.land i 1 ≠ 0) then f_of_Z 2 * tap else f_of_Z (-2) * tap))%fp).

(** Band pass: [t2] is the sinc of [fc2], [t3] that of [fc1];
    [g += w * (t3 + t2)] reads [w] before [tap = w * (t2 - t3)] is stored. *)
Definition bp_body (k1 k2 k3 : ftype_t) (i : Z) (wi g : ftype_t) : ftype_t * ftype_t :=
  let t1 := (f_of_Z (u32 (i + 1)) - k2)%fp in
  let t2 := (sin (k3 * t1) / (M_PI * t1))%fp in
  let t3 := (sin (k1 * t1) / (M_PI * t1))%fp in
  ((wi * (t2 - t3))%fp, (g + wi * (t3 + t2))%fp).

(** Band stop: [t2] is the sinc of [fc1], [t3] that of [fc2];
    [tap = w * (t2 - t3); g += 2*tap]. *)
Definition bs_body (k1 k3 : ftype_t) (i : Z) (wi g : ftype_t) : ftype_t * ftype_t :=
  let t1 := f_of_Z (u32 (i + 1)) in
  let t2 := (sin (k1 * t1) / (M_PI * t1))%fp in
  let t3 := (sin (k3 * t1) / (M_PI * t1))%fp in
  let tap := (wi * (t2 - t3))%fp in
  (tap, (g + f_of_Z 2 * tap)%fp).

(** [if (flags & (LP | HP)) { ... }] *)
Definition lp_hp_stage (n o end_ : Z) (k2 : ftype_t) (fc : list ftype_t)
    (flags : Z) (s : fir_state) : option flow :=
  if decide (Z.land flags (Z.lor LP HP) ≠ 0) then
    fc1 ← load fc 0;
    let fc1 := cutoff fc1 in
    let k1 := (st_k1 s * fc1)%fp in
    if decide (Z.land flags LP ≠ 0) then
      '(w, g) ← (if decide (o ≠ 0) then
                   we ← load (st_w s) end_;
                   let c := (fc1 * we * f_of_Z 2)%fp in
                   w ← store (st_w s) end_ c;
                   Some (w, c)
                 else Some (st_w s, st_g s));
      '(w, g) ← taps_loop (lp_body k1 k2) (Z.to_nat end_) n end_ 0 w g;
      Some (Next (FirState w g k1))
    else
      if decide (o = 0) then Some (Exit (-1) (st_w s))
      else
        we ← load (st_w s) end_;
        let c := (f_of_Z 1 - fc1 * we * f_of_Z 2)%fp in
        w ← store (st_w s) end_ c;
        '(w, g) ← taps_loop (hp_body k1) (Z.to_nat end_) n end_ 0 w c;
        Some (Next (FirState w g k1))
  else Some (Next s).

(** [if (flags & (BP | BS)) { ... }] *)
Definition bp_bs_stage (n o end_ : Z) (k2 : ftype_t) (fc : list ftype_t)
    (flags : Z) (s : fir_state) : option flow :=
  if decide (Z.land flags (Z.lor BP BS) ≠ 0) then
    fc1 ← load fc 0;
    fc2 ← load fc 1;
    let fc1 := cutoff fc1 in
    let fc2 := cutoff fc2 in
    let k3 := (st_k1 s * fc2)%fp in
    let k1 := (st_k1 s * fc1)%fp in
    if decide (Z.land flags BP ≠ 0) then
      '(w, g) ← (if decide (o ≠ 0) then
                   we ← load (st_w s) end_;
                   w ← store (st_w s) end_ ((fc2 - fc1) * we * f_of_Z 2)%fp;
                   Some (w, (we * (fc1 + fc2))%fp)
                 else Some (st_w s, st_g s));
      '(w, g) ← taps_loop (bp_body k1 k2 k3) (Z.to_nat end_) n end_ 0 w g;
      Some (Next (FirState w g k1))
    else
      if decide (o = 0) then Some (Exit (-1) (st_w s))
      else
        we ← load (st_w s) end_;
        let c := (f_of_Z 1 - (fc2 - fc1) * we * f_of_Z 2)%fp in
        w ← store (st_w s) end_ c;
        '(w, g) ← taps_loop (bs_body k1 k3) (Z.to_nat end_) n end_ 0 w c;
        Some (Next (FirState w g k1))
  else Some (Next s).

(** [for (i = 0; i < n; i++) w[i] *= g;] *)
Fixpoint norm_loop (fuel : nat) (i : Z) (g : ftype_t) (w : list ftype_t)
    : option (list ftype_t) :=
  match fuel with
  | O => Some w
  | S fuel' =>
      wi ← load w i;
      w ← store w i (wi * g)%fp;
      norm_loop fuel' (i + 1) g w
  end.

(** [g = 1/g] and the scaling loop. *)
Definition normalize (n : Z) (s : fir_state) : option (list ftype_t) :=
  norm_loop (Z.to_nat n) 0 (f_of_Z 1 / st_g s)%fp (st_w s).

(** Window, low/high-pass stage, band-pass/band-stop stage: the taps and
    the gain [g] before normalization. *)
Definition fir_taps (n : Z) (w : list ftype_t) (fc : list ftype_t)
    (flags : Z) (opt : ftype_t) : option flow :=
  let o := fir_o n in
  let end_ := fir_end n in
  let k1 := (f_of_Z 2 * M_PI)%fp in
  let k2 := (f0_5 * f_of_Z (u32 (1 - o)))%fp in
  let g := f_of_Z 0 in
  match window_of n flags opt with
  | None => Some (Exit (-1) w)
  | Some env =>
      w ← fill_window env n w;
      r ← lp_hp_stage n o end_ k2 fc flags (FirState w g k1);
      match r with
      | Exit c w => Some (Exit c w)
      | Next s => bp_bs_stage n o end_ k2 fc flags s
      end
  end.

(** [design_fir(n, w, fc, flags, opt)]: the value returned and the buffer
    [w] afterwards; [w = None] is the null pointer. *)
Definition design_fir (n : Z) (w : option (list ftype_t)) (fc : list ftype_t)
    (flags : Z) (opt : ftype_t) : option (Z * option (list ftype_t)) :=
  match w with
  | None => Some (-1, None)
  | Some w =>
      if decide (n = 0) then Some (-1, Some w)
      else
        r ← fir_taps n w fc flags opt;
        match r with
        | Exit c w => Some (c, Some w)
        | Next s => w ← normalize n s; Some (0, Some w)
        end
  end.

(** The branch of each stage that [flags] selects. *)
Definition first_stage (flags : Z) : option kind :=
  if decide (Z.land flags (Z.lor LP HP) ≠ 0)
  then Some (if decide (Z.land flags LP ≠ 0) then kLP else kHP)
  else None.

Definition second_stage (flags : Z) : option kind :=
  if decide (Z.land flags (Z.lor BP BS) ≠ 0)
  then Some (if decide (Z.land flags BP ≠ 0) then kBP else kBS)
  else None.

(** The filter kind [flags] asks for, when exactly one stage runs. *)
Definition kind_of (flags : Z) : option kind :=
  match first_stage flags, second_stage flags with
  | Some k, None | None, Some k => Some k
  | _, _ => None
  end.

(** The value [design_fir] returns when its buffers are valid: -1 on the
    sanity check, on the [default] of the window switch and on the two
    parity tests, 0 otherwise. *)
Definition design_fir_code (n flags : Z) (opt : ftype_t) : Z :=
  if decide (n = 0) then -1
  else if decide (window_of n flags opt = None) then -1
  else if decide (first_stage flags = Some kHP ∧ fir_o n = 0) then -1
  else if decide (second_stage flags = Some kBS ∧ fir_o n = 0) then -1
  else 0.
End Design.

(** ** Polyphase decomposition *)

Section Polyphase.
Context {FT : FType} {FH : FilterH}.

(** [pw[i][j] = v]: [pw] is an array of row pointers. *)
Definition store2 (pw : list (list ftype_t)) (i j : Z) (v : ftype_t)
    : option (list (list ftype_t)) :=
  row ← load pw i;
  row ← store row j v;
  store pw i row.

Definition load2 (pw : list (list ftype_t)) (i j : Z) : option ftype_t :=
  row ← load pw i; load row j.

(** The storage behind [pw]: at least [k] rows of at least [l] columns. *)
Definition bank_ok (pw : list (list ftype_t)) (k l : Z) : Prop :=
  ∀ i, 0 ≤ i < k → ∃ row, load pw i = Some row ∧ l ≤ Z.of_nat (length row).

(** [(flags & ODD) ? ((j & 1) ? -1 : 1) : 1], the factor of the [REW] loop *)
Definition sign_rew (flags j : Z) : ftype_t :=
  if decide (Z.land flags ODD ≠ 0)
  then (if decide (Z.land j 1 ≠ 0) then f_of_Z (-1) else f_of_Z 1)
  else f_of_Z 1.

(** [(flags & ODD) ? ((j & 1) ? 1 : -1) : 1], the factor of the forward loop *)
Definition sign_fwd (flags j : Z) : ftype_t :=
  if decide (Z.land flags ODD ≠ 0)
  then (if decide (Z.land j 1 ≠ 0) then f_of_Z 1 else f_of_Z (-1))
  else f_of_Z 1.

(** [for (i = 0; i < (int)k; i++) { t = g * *w++; pw[i][j] = t * sign; }];
    [wp] is the offset of the moving pointer [w] in the prototype. *)
Fixpoint pfir_rows (fuel : nat) (i j : Z) (g sign : ftype_t)
    (w : list ftype_t) (wp : Z) (pw : list (list ftype_t))
    : option (Z * list (list ftype_t)) :=
  match fuel with
  | O => Some (wp, pw)
  | S fuel' =>
      wv ← load w wp;
      let t := (g * wv)%fp in
      pw ← store2 pw i j (t * sign)%fp;
      pfir_rows fuel' (i + 1) j g sign w (wp + 1) pw
  end.

(** The loop over the columns: [j] starts at [j] and moves by [dj]
    ([-1] in the [REW] loop, [1] in the forward one), [fuel] columns left. *)
Fixpoint pfir_cols (sgn : Z → ftype_t) (dj : Z) (fuel : nat) (j k : Z)
    (g : ftype_t) (w : list ftype_t) (wp : Z) (pw : list (list ftype_t))
    : option (list (list ftype_t)) :=
  match fuel with
  | O => Some pw
  | S fuel' =>
      '(wp, pw) ← pfir_rows (Z.to_nat (i32 k)) 0 j g (sgn j) w wp pw;
      pfir_cols sgn dj fuel' (j + dj) k g w wp pw
  end.

(** [design_pfir(n, k, w, pw, g, flags)]: the value returned and the bank
    [pw] afterwards.  [(int)n/k] divides as [unsigned]; [k = 0] divides
    by zero. *)
Definition design_pfir (n k : Z) (w : option (list ftype_t))
    (pw : option (list (list ftype_t))) (g : ftype_t) (flags : Z)
    : option (Z * option (list (list ftype_t))) :=
  if decide (k = 0) then None
  else
    let l := i32 (u32 (i32 n) / k) in
    match w, pw with
    | Some w, Some pw =>
        if decide (l < 1 ∨ k < 1) then Some (-1, Some pw)
        else
          pw ← (if decide (Z.land flags REW ≠ 0)
                then pfir_cols (sign_rew flags) (-1) (Z.to_nat l) (l - 1) k g w 0 pw
                else pfir_cols (sign_fwd flags) 1 (Z.to_nat l) 0 k g w 0 pw);
          Some (-1, Some pw)
    | _, _ => Some (-1, pw)
    end.
End Polyphase.

(** ** IIR filter design *)

Section IIR.
Context {FT : FType} {LM : Libm FT}.

(** [prewarp(a, fc, fs)]: the triple [a] afterwards. *)
Definition prewarp (a : list ftype_t) (fc fs : ftype_t) : option (list ftype_t) :=
  let wp := (f_of_Z 2 * fs * tan (M_PI * fc / fs))%fp in
  a2 ← load a 2;
  a ← store a 2 (a2 / (wp * wp))%fp;
  a1 ← load a 1;
  store a 1 (a1 / wp)%fp.

(** [ad = 4. * a[2] * fs * fs + 2. * a[1] * fs + a[0]], and [bd] from [b]. *)
Definition s_gain (a0 a1 a2 fs : ftype_t) : ftype_t :=
  (f_of_Z 4 * a2 * fs * fs + f_of_Z 2 * a1 * fs + a0)%fp.

(** [bilinear(a, b, k, fs, coef)]: the gain [*k] and the array [coef]
    afterwards. *)
Definition bilinear (a b : list ftype_t) (k fs : ftype_t) (coef : list ftype_t)
    : option (ftype_t * list ftype_t) :=
  a0 ← load a 0; a1 ← load a 1; a2 ← load a 2;
  b0 ← load b 0; b1 ← load b 1; b2 ← load b 2;
  let ad := s_gain a0 a1 a2 fs in
  let bd := s_gain b0 b1 b2 fs in
  let k := (k * (ad / bd))%fp in
  coef ← store coef 0 ((f_of_Z 2 * b0 - f_of_Z 8 * b2 * fs * fs) / bd)%fp;
  coef ← store coef 1 ((f_of_Z 4 * b2 * fs * fs - f_of_Z 2 * b1 * fs + b0) / bd)%fp;
  coef ← store coef 2 ((f_of_Z 2 * a0 - f_of_Z 8 * a2 * fs * fs) / ad)%fp;
  coef ← store coef 3 ((f_of_Z 4 * a2 * fs * fs - f_of_Z 2 * a1 * fs + a0) / ad)%fp;
  Some (k, coef).

(** [memcpy(at, a, 3*sizeof(_ftype_t))] *)
Definition copy3 (a : list ftype_t) : option (list ftype_t) :=
  if decide (3 ≤ length a)%nat then Some (take 3 a) else None.

(** [szxform(a, b, Q, fc, fs, k, coef)]: the value returned, [*k] and
    [coef] afterwards; [None] arguments are null pointers. *)
Definition szxform (a b : option (list ftype_t)) (Q fc fs : ftype_t)
    (k : option ftype_t) (coef : option (list ftype_t))
    : option (Z * option ftype_t * option (list ftype_t)) :=
  match a, b, k, coef with
  | Some a, Some b, Some k, Some coef =>
      if flt (f_of_Z 1000) Q || flt Q (f_of_Z 1) then Some (-1, Some k, Some coef)
      else
        at_ ← copy3 a;
        bt ← copy3 b;
        b1 ← load bt 1;
        bt ← store bt 1 (b1 / Q)%fp;
        at_ ← prewarp at_ fc fs;
        bt ← prewarp bt fc fs;
        '(k, coef) ← bilinear at_ bt k fs coef;
        Some (0, Some k, Some coef)
  | _, _, _, _ => Some (-1, k, coef)
  end.

(** One biquad of a cascade: the arguments of its [szxform] call. *)
Record biquad := Biquad {
  bq_a : list ftype_t;
  bq_b : list ftype_t;
  bq_Q : ftype_t;
  bq_fc : ftype_t;
  bq_fs : ftype_t;
  bq_coef : list ftype_t;
}.


(** The ratio [ad/bd] of one section, from its own coefficients: the
    numerator prewarped, the denominator with [b1] divided by [Q] and
    prewarped. *)
Definition section_ratio (s : biquad) : option ftype_t :=
  let wp := (f_of_Z 2 * bq_fs s * tan (M_PI * bq_fc s / bq_fs s))%fp in
  a0 ← bq_a s !! 0%nat; a1 ← bq_a s !! 1%nat; a2 ← bq_a s !! 2%nat;
  b0 ← bq_b s !! 0%nat; b1 ← bq_b s !! 1%nat; b2 ← bq_b s !! 2%nat;
  let ad := s_gain a0 (a1 / wp) (a2 / (wp * wp)) (bq_fs s) in
  let bd := s_gain b0 (b1 / bq_Q s / wp) (b2 / (wp * wp)) (bq_fs s) in
  Some (ad / bd)%fp.
(** The arguments of a call that returns 0: buffers of three coefficients
    and four outputs, and [Q] passing the range test
    [(Q > 1000.0 || Q < 1.0)]. *)
Definition biquad_ok (s : biquad) : Prop :=
  (3 ≤ length (bq_a s))%nat ∧ (3 ≤ length (bq_b s))%nat ∧
  (4 ≤ length (bq_coef s))%nat ∧
  flt (f_of_Z 1000) (bq_Q s) = false ∧ flt (bq_Q s) (f_of_Z 1) = false.
End IIR.

(** ** Two sample types *)

(** IEEE 754 binary64, the [double] build. *)
Module Double.
Import PrimFloat.

Definition of_Z (z : Z) : float :=
  if (z <? 0)%Z then opp (of_uint63 (Uint63.of_Z (- z)))
  else of_uint63 (Uint63.of_Z z).

Definition ftype_double : FType := {|
  ftype_t := float;
  f_of_Z := of_Z;
  f0_5 := 0.5%float;
  f0_25 := 0.25%float;
  fadd := add; fsub := sub; fmul := mul; fdiv := div;
  fle := leb; flt := ltb;
|}.

(** A prototype of four taps and an empty bank of two rows of two, for
    the closed examples. *)
Definition taps4 : list float := of_Z <$> [1; 2; 3; 4]%Z.
Definition bank22 : list (list float) :=
  [of_Z <$> [0; 0]%Z; of_Z <$> [0; 0]%Z].
End Double.

(** Exact real arithmetic, for the statements that need math.h. *)
Module Exact.
Import Reals.

Definition ftype_R : FType := {|
  ftype_t := R;
  f_of_Z := IZR;
  f0_5 := (1 / 2)%R;
  f0_25 := (1 / 4)%R;
  fadd := Rplus; fsub := Rminus; fmul := Rmult; fdiv := Rdiv;
  fle := λ x y, if Rle_dec x y then true else false;
  flt := λ x y, if Rlt_dec x y then true else false;
|}.

Definition libm_R : Libm ftype_R :=
  Build_Libm ftype_R PI Rtrigo_def.sin Rtrigo1.tan.

(** [sumR f n] is the sum of [f 0 .. f (n-1)]. *)
Fixpoint sumR (f : nat → R) (n : nat) : R :=
  match n with
  | O => 0%R
  | S n => (sumR f n + f n)%R
  end.

(** The tap [w[i]], 0 outside the buffer. *)
Definition tapZ (w : list R) (i : Z) : R := default 0%R (load w i).

(** The response of the taps [w[0 .. n-1]] at frequency 0: their sum. *)
Definition dc_gain (n : Z) (w : list R) : R :=
  sumR (λ t, tapZ w (Z.of_nat t)) (Z.to_nat n).


(** The sum of [w[wo + i] * x[xo + i]] over [0 <= i < n]. *)
Definition dot (n : Z) (w : list R) (wo : Z) (x : list R) (xo : Z) : R :=
  sumR (λ t, (tapZ w (wo + Z.of_nat t) * tapZ x (xo + Z.of_nat t))%R)
       (Z.to_nat n).

(** The s-domain polynomial [c[2] * s^2 + c[1] * s + c[0]] of the standard
    form above [szxform]. *)
Definition poly2 (c : list R) (s : R) : R :=
  (tapZ c 2 * (s * s) + tapZ c 1 * s + tapZ c 0)%R.

(** [wp = 2.0 * fs * tan(M_PI * fc / fs)], the factor of [prewarp]. *)
Definition warp (fc fs : R) : R := (2 * fs * Rtrigo1.tan (PI * fc / fs))%R.

(** [bt[1] /= Q], the damping [szxform] applies to the denominator. *)
Definition damp (b : list R) (Q : R) : list R :=
  <[1%nat := (tapZ b 1 / Q)%R]> b.

(** The z-domain numerator [1 + alpha1 * u + alpha2 * u^2] and denominator
    [1 + beta1 * u + beta2 * u^2] at [u = z^(-1)], from the array [coef]
    in the order [bilinear] stores it: beta1, beta2, alpha1, alpha2. *)
Definition z_num (coef : list R) (u : R) : R :=
  (1 + tapZ coef 2 * u + tapZ coef 3 * (u * u))%R.

Definition z_den (coef : list R) (u : R) : R :=
  (1 + tapZ coef 0 * u + tapZ coef 1 * (u * u))%R.

End Exact.

(** Modelled from the spec: the selector constants of [filter.h], which is
    not among the sources.  The window selectors are the values under
    [WINDOW_MASK], the four filter kinds are bits of their own above it, as
    the OR-ed selectors ([LP|HAMMING]) of the interface comment and the
    two orthogonal enumerations of the spec's design notes need.  Used by
    the closed examples only. *)
Definition example_flags : FilterH := {|
  BOXCAR := 0x01; TRIANG := 0x02; HAMMING := 0x04; HANNING := 0x08;
  BLACKMAN := 0x10; FLATTOP := 0x11; KAISER := 0x12; WINDOW_MASK := 0x1f;
  LP := 0x10000; HP := 0x20000; BP := 0x40000; BS := 0x80000;
  REW := 0x02; ODD := 0x10;
|}.

(** The selectors [HP|BOXCAR] and [LP|BOXCAR] of [example_flags]. *)
Definition hp_boxcar : Z := 0x20001.
Definition lp_boxcar : Z := 0x10001.

(** Modelled from the spec: the window generators, external and pure
    (length, kind, shape parameter to envelope).  The closed examples
    select the boxcar window only, taken as the rectangular envelope,
    every coefficient 1; the other generators are given the same envelope. *)
Definition rect_windows (FT : FType) : WindowGen FT := {|
  boxcar := λ _ _, f_of_Z 1;
  triang := λ _ _, f_of_Z 1;
  hamming := λ _ _, f_of_Z 1;
  hanning := λ _ _, f_of_Z 1;
  blackman := λ _ _, f_of_Z 1;
  flattop := λ _ _, f_of_Z 1;
  kaiser := λ _ _ _, f_of_Z 1;
|}.

(** * Properties *)

(** ** Machine integers *)

Lemma u32_small z : 0 ≤ z < 2^32 → u32 z = z.
Proof. intros H. unfold u32. by apply Z.mod_small. Qed.

Lemma i32_small z : - 2^31 ≤ z < 2^31 → i32 z = z.
Proof. intros H. unfold i32. rewrite Z.mod_small; lia. Qed.

Lemma land_pow2_pred a e : 0 ≤ e → Z.land a (2 ^ e - 1) = a mod 2 ^ e.
Proof.
  intros He. rewrite <- Z.land_ones by done. f_equal.
  rewrite Z.ones_equiv. lia.
Qed.

(** ** Facts about buffers *)

Section BufferFacts.
Context {A : Type}.
Implicit Types (m : list A) (i j : Z) (v : A).

Lemma store_Some m i v :
  0 ≤ i < Z.of_nat (length m) → store m i v = Some (<[Z.to_nat i := v]> m).
Proof. intros H. unfold store. by rewrite decide_True. Qed.

Lemma store_inv m i v m' :
  store m i v = Some m' →
  0 ≤ i < Z.of_nat (length m) ∧ m' = <[Z.to_nat i := v]> m.
Proof. unfold store. intros Hs. destruct (decide _); by simplify_eq. Qed.

Lemma store_length m i v m' : store m i v = Some m' → length m' = length m.
Proof. intros [_ ->]%store_inv. apply length_insert. Qed.

Lemma load_store_eq m i v m' : store m i v = Some m' → load m' i = Some v.
Proof.
  intros [Hi ->]%store_inv. unfold load. rewrite decide_True by lia.
  apply list_lookup_insert_eq. lia.
Qed.

Lemma load_store_ne m i j v m' :
  store m i v = Some m' → i ≠ j → load m' j = load m j.
Proof.
  intros [Hi ->]%store_inv Hne. unfold load. case_decide; [|done].
  apply list_lookup_insert_ne. lia.
Qed.

Lemma load_Some_lt m i v : load m i = Some v → 0 ≤ i < Z.of_nat (length m).
Proof.
  unfold load. destruct (decide (0 ≤ i)); [|done]. intros Hl%lookup_lt_Some. lia.
Qed.

Lemma load_is_Some m i : 0 ≤ i < Z.of_nat (length m) → is_Some (load m i).
Proof.
  intros H. unfold load. rewrite decide_True by lia.
  apply lookup_lt_is_Some. lia.
Qed.

Lemma load_cons_0 x m : load (x :: m) 0 = Some x.
Proof. done. Qed.

Lemma load_cons_pos x m i : 0 < i → load (x :: m) i = load m (i - 1).
Proof.
  intros Hi. unfold load. rewrite !decide_True by lia.
  replace (Z.to_nat i) with (S (Z.to_nat (i - 1))) by lia. done.
Qed.

Lemma store_cons_0 x m v : store (x :: m) 0 v = Some (v :: m).
Proof. rewrite store_Some by (cbn [length]; lia). done. Qed.

Lemma store_cons_pos x m i v :
  0 < i → store (x :: m) i v = (x ::.) <$> store m (i - 1) v.
Proof.
  intros Hi. unfold store. cbn [length].
  destruct (decide (0 ≤ i - 1 < Z.of_nat (length m))).
  - rewrite decide_True by lia. cbn.
    replace (Z.to_nat i) with (S (Z.to_nat (i - 1))) by lia. done.
  - rewrite decide_False by lia. done.
Qed.
End BufferFacts.

(** Reads and writes at literal offsets of a buffer given by its cells. *)
Ltac buf_simpl :=
  repeat first
    [ rewrite load_cons_0
    | rewrite load_cons_pos by lia
    | rewrite store_cons_0
    | rewrite store_cons_pos by lia
    | progress cbn [Z.sub Z.add Z.opp Z.pos_sub Pos.pred_double Z.pred_double
                    Z.succ_double Z.double fmap option_fmap option_map
                    mbind option_bind] ].

(** ** The circular queue *)

Section RuntimeFacts.
Context {FT : FType}.

Lemma updatepq_loop_spec (d : nat) (n s : Z) :
  0 < n → 0 ≤ s →
  ∀ (txq ip : Z) (xq inp : list ftype_t),
    0 ≤ txq → 0 ≤ ip →
    (d ≠ O → txq + Z.of_nat d * (2 * n) < Z.of_nat (length xq) + n) →
    (d ≠ O → ip + (Z.of_nat d - 1) * s < Z.of_nat (length inp)) →
    ∃ xq',
      updatepq_loop d n (2 * n) s txq ip xq inp = Some xq' ∧
      length xq' = length xq ∧
      (∀ q, 0 ≤ q < Z.of_nat d →
            is_Some (load inp (ip + q * s)) ∧
            load xq' (txq + q * (2 * n)) = load inp (ip + q * s) ∧
            load xq' (txq + q * (2 * n) + n) = load inp (ip + q * s)) ∧
      (∀ p, (∀ q, 0 ≤ q < Z.of_nat d →
                  p ≠ txq + q * (2 * n) ∧ p ≠ txq + q * (2 * n) + n) →
            load xq' p = load xq p).
Proof.
  intros Hn Hs. induction d as [|d IH]; intros txq ip xq inp Htxq Hip Hfit Hin.
  - exists xq. split; [done|]. split; [done|]. split; [intros q Hq; lia|done].
  - specialize (Hfit ltac:(done)). specialize (Hin ltac:(done)).
    rewrite Nat2Z.inj_succ in *.
    assert (0 ≤ Z.of_nat d * s) as HDs by (apply Z.mul_nonneg_nonneg; lia).
    assert (0 ≤ Z.of_nat d * n) as HDn by (apply Z.mul_nonneg_nonneg; lia).
    destruct (load_is_Some inp ip) as [v Hv]; [lia|].
    destruct (store xq (txq + n) v) as [xq1|] eqn:H1;
      [|rewrite store_Some in H1 by lia; done].
    pose proof (store_length _ _ _ _ H1) as Hl1.
    destruct (store xq1 txq v) as [xq2|] eqn:H2;
      [|rewrite store_Some in H2 by lia; done].
    pose proof (store_length _ _ _ _ H2) as Hl2.
    destruct (IH (txq + 2 * n) (ip + s) xq2 inp) as (xq' & Hrun & Hlen & Hw & Hfr);
      [lia|lia|intros; lia|intros; lia|].
    exists xq'. cbn [updatepq_loop]. rewrite Hv. cbn. rewrite H1. cbn. rewrite H2. cbn.
    split; [done|]. split; [congruence|]. split.
    + intros q Hq. destruct (decide (q = 0)) as [->|Hq0].
      * rewrite !Z.mul_0_l, !Z.add_0_r. split; [by eexists|].
        rewrite !Hfr by (intros q' Hq'; nia).
        rewrite (load_store_eq _ _ _ _ H2).
        rewrite (load_store_ne _ _ _ _ _ H2) by lia.
        by rewrite (load_store_eq _ _ _ _ H1).
      * destruct (Hw (q - 1)) as (Hi & Ha & Hb); [lia|].
        replace (txq + 2 * n + (q - 1) * (2 * n)) with (txq + q * (2 * n)) in * by lia.
        replace (ip + s + (q - 1) * s) with (ip + q * s) in * by lia.
        done.
    + intros p Hp. rewrite Hfr.
      * destruct (Hp 0) as [Hp0 Hp1]; [lia|].
        rewrite (load_store_ne _ _ _ _ _ H2) by lia.
        rewrite (load_store_ne _ _ _ _ _ H1) by lia. done.
      * intros q Hq. destruct (Hp (q + 1)) as [Ha Hb]; [lia|]. lia.
Qed.
End RuntimeFacts.


(** C9: for a power-of-two length [n] whose doubled value fits [int],
    a cursor [xi] in [0, n), [d >= 1] filters and a stride [s], on a queue
    buffer of [d] queues of [2n] samples, [updatepq] returns the cursor
    [(xi + 1) mod n], again in [0, n), writes sample [q] (read from
    [in[q*s]]) to the positions [xi] and [xi + n] of queue [q], and
    leaves every other position as it was. *)
Theorem updatepq_pushes {FT : FType} (e n d xi s : Z) (xq inp : list ftype_t) :
  0 ≤ e → n = 2 ^ e → 2 * n ≤ INT_MAX →
  0 ≤ xi < n → 1 ≤ d → 0 ≤ s →
  2 * n * d ≤ Z.of_nat (length xq) →
  (d - 1) * s < Z.of_nat (length inp) →
  ∃ xq',
    updatepq n d xi xq inp s = Some ((xi + 1) mod n, xq') ∧
    0 ≤ (xi + 1) mod n < n ∧
    length xq' = length xq ∧
    (∀ q, 0 ≤ q < d →
          ∃ v, load inp (q * s) = Some v ∧
               load xq' (q * (2 * n) + xi) = Some v ∧
               load xq' (q * (2 * n) + xi + n) = Some v) ∧
    (∀ p, (∀ q, 0 ≤ q < d → p ≠ q * (2 * n) + xi ∧ p ≠ q * (2 * n) + xi + n) →
          load xq' p = load xq p).
Proof.
  intros He Hn Hint Hxi Hd Hs Hxq Hinp. unfold INT_MAX in Hint.
  assert (0 < n) as Hpos by lia.
  destruct (updatepq_loop_spec (Z.to_nat d) n s Hpos Hs xi 0 xq inp)
    as (xq' & Hrun & Hlen & Hw & Hfr); [lia|lia|intros _; nia|intros _; lia|].
  exists xq'. unfold updatepq.
  replace (i32 (u32 (n * 2))) with (2 * n)
    by (rewrite u32_small, i32_small; lia).
  rewrite Hrun. cbn.
  assert (i32 (Z.land (u32 (xi + 1)) (u32 (n - 1))) = (xi + 1) mod n) as ->.
  { rewrite !u32_small by lia. subst n. rewrite land_pow2_pred by done.
    apply i32_small. pose proof (Z.mod_pos_bound (xi + 1) (2 ^ e)). lia. }
  split; [done|]. split; [apply Z.mod_pos_bound; lia|]. split; [done|]. split.
  - intros q Hq. destruct (Hw q) as ([v Hv] & Ha & Hb); [lia|].
    exists v. rewrite Z.add_0_l in *.
    replace (q * (2 * n) + xi) with (xi + q * (2 * n)) by lia.
    rewrite Ha, Hb. done.
  - intros p Hp. apply Hfr. intros q Hq. destruct (Hp q); lia.
Qed.

(** The push of C9 on two queues of length 4 with the cursor at 3. *)
Lemma updatepq_pushes_witness :
  ∃ xq',
    updatepq (FT := Double.ftype_double) 4 2 3
      (replicate 16 PrimFloat.zero) [PrimFloat.one; PrimFloat.two] 1
    = Some (0, xq') ∧
    load xq' 3 = Some PrimFloat.one ∧ load xq' 15 = Some PrimFloat.two.
Proof.
  destruct (updatepq_pushes (FT := Double.ftype_double) 2 4 2 3 1
              (replicate 16 PrimFloat.zero) [PrimFloat.one; PrimFloat.two])
    as (xq' & Hrun & _ & _ & Hw & _);
    [lia | reflexivity | unfold INT_MAX; lia | lia | lia | lia
    | simpl; lia | simpl; lia |].
  exists xq'. split; [exact Hrun|].
  destruct (Hw 0) as (v0 & Hv0 & Ha0 & _); [lia|].
  destruct (Hw 1) as (v1 & Hv1 & _ & Hb1); [lia|].
  vm_compute in Hv0, Hv1. injection Hv0 as <-. injection Hv1 as <-.
  split; [exact Ha0 | exact Hb1].
Defined.

(** ** The polyphase bank *)

Section PolyphaseFacts.
Context {FT : FType} {FH : FilterH}.
Implicit Types (pw : list (list ftype_t)) (w : list ftype_t).

Lemma u32_i32 n : 0 ≤ n < 2^32 → u32 (i32 n) = n.
Proof.
  intros Hn. unfold u32, i32.
  rewrite Zminus_mod_idemp_l. replace (n + 2^31 - 2^31) with n by lia.
  by apply Z.mod_small.
Qed.

Lemma store2_spec pw k l i j v :
  bank_ok pw k l → 0 ≤ i < k → 0 ≤ j < l →
  ∃ pw', store2 pw i j v = Some pw' ∧ bank_ok pw' k l ∧
         load2 pw' i j = Some v ∧
         (∀ i' j', ¬ (i' = i ∧ j' = j) → load2 pw' i' j' = load2 pw i' j').
Proof.
  intros Hok Hi Hj. destruct (Hok i Hi) as (row & Hrow & Hlen).
  pose proof (load_Some_lt _ _ _ Hrow) as Hin.
  pose proof (store_Some row j v ltac:(lia)) as Hr.
  set (row' := <[Z.to_nat j := v]> row) in *.
  pose proof (store_Some pw i row' Hin) as Hp.
  set (pw' := <[Z.to_nat i := row']> pw) in *.
  exists pw'. unfold store2, load2. rewrite Hrow. cbn. rewrite Hr. cbn.
  split; [done|]. split; [|split].
  - intros i' Hi'. destruct (decide (i' = i)) as [->|Hne].
    + exists row'. rewrite (load_store_eq _ _ _ _ Hp).
      split; [done|]. rewrite (store_length _ _ _ _ Hr). done.
    + rewrite (load_store_ne _ _ _ _ _ Hp) by done. by apply Hok.
  - rewrite (load_store_eq _ _ _ _ Hp). cbn. apply (load_store_eq _ _ _ _ Hr).
  - intros i' j' Hne. destruct (decide (i' = i)) as [->|Hi'].
    + rewrite (load_store_eq _ _ _ _ Hp), Hrow. cbn.
      apply (load_store_ne _ _ _ _ _ Hr). intros ->. by apply Hne.
    + by rewrite (load_store_ne _ _ _ _ _ Hp).
Qed.

Lemma pfir_rows_spec (k l j : Z) (g sign : ftype_t) w (f : nat) :
  0 ≤ j < l →
  ∀ i wp pw,
    0 ≤ i → i + Z.of_nat f ≤ k → 0 ≤ wp →
    wp + Z.of_nat f ≤ Z.of_nat (length w) → bank_ok pw k l →
    ∃ pw',
      pfir_rows f i j g sign w wp pw = Some (wp + Z.of_nat f, pw') ∧
      bank_ok pw' k l ∧
      (∀ i', i ≤ i' < i + Z.of_nat f →
             ∃ wv, load w (wp + (i' - i)) = Some wv ∧
                   load2 pw' i' j = Some (g * wv * sign)%fp) ∧
      (∀ i' j', ¬ (i ≤ i' < i + Z.of_nat f ∧ j' = j) →
                load2 pw' i' j' = load2 pw i' j').
Proof.
  intros Hj. induction f as [|f IH]; intros i wp pw Hi Hk Hwp Hw Hok.
  - exists pw. cbn. rewrite Z.add_0_r. split; [done|]. split; [done|].
    split; [intros; lia|done].
  - rewrite Nat2Z.inj_succ in *.
    destruct (load_is_Some w wp) as [wv Hwv]; [lia|].
    destruct (store2_spec pw k l i j (g * wv * sign)%fp Hok)
      as (pw1 & Hst & Hok1 & Hget & Hfr1); [lia|lia|].
    destruct (IH (i + 1) (wp + 1) pw1) as (pw' & Hrun & Hok' & Hw' & Hfr');
      [lia..|done|].
    exists pw'. cbn [pfir_rows]. rewrite Hwv. cbn. rewrite Hst. cbn.
    rewrite Hrun. split; [f_equal; f_equal; lia|]. split; [done|]. split.
    + intros i' Hi'. destruct (decide (i' = i)) as [->|Hne].
      * exists wv. rewrite Z.sub_diag, Z.add_0_r. split; [done|].
        rewrite Hfr' by lia. done.
      * destruct (Hw' i') as (wv' & Ha & Hb); [lia|].
        exists wv'. split; [|done]. rewrite <- Ha. f_equal. lia.
    + intros i' j' Hne. rewrite Hfr' by lia. apply Hfr1. lia.
Qed.

Lemma pfir_cols_spec (sgn : Z → ftype_t) (dj k l : Z) (g : ftype_t) w (f : nat) :
  dj = 1 ∨ dj = -1 → 1 ≤ k ≤ INT_MAX →
  ∀ j wp pw,
    (∀ c, 0 ≤ c < Z.of_nat f → 0 ≤ j + c * dj < l) → 0 ≤ wp →
    wp + Z.of_nat f * k ≤ Z.of_nat (length w) → bank_ok pw k l →
    ∃ pw',
      pfir_cols sgn dj f j k g w wp pw = Some pw' ∧
      bank_ok pw' k l ∧
      (∀ c i, 0 ≤ c < Z.of_nat f → 0 ≤ i < k →
              ∃ wv, load w (wp + c * k + i) = Some wv ∧
                    load2 pw' i (j + c * dj) = Some (g * wv * sgn (j + c * dj)%Z)%fp) ∧
      (∀ i' j', ¬ (0 ≤ i' < k ∧ ∃ c, 0 ≤ c < Z.of_nat f ∧ j' = j + c * dj) →
                load2 pw' i' j' = load2 pw i' j').
Proof.
  intros Hdj Hk. unfold INT_MAX in Hk.
  induction f as [|f IH]; intros j wp pw Hcols Hwp Hw Hok.
  - exists pw. cbn. split; [done|]. split; [done|]. split; [intros; lia|done].
  - rewrite Nat2Z.inj_succ in *.
    assert (0 ≤ Z.of_nat f * k) as Hfk by (apply Z.mul_nonneg_nonneg; lia).
    assert (Z.of_nat (Z.to_nat (i32 k)) = k) as HK
      by (rewrite i32_small by lia; lia).
    destruct (pfir_rows_spec k l j g (sgn j) w (Z.to_nat (i32 k))
                ltac:(specialize (Hcols 0); lia) 0 wp pw)
      as (pw1 & Hrows & Hok1 & Hw1 & Hfr1); [lia..|done|].
    rewrite HK in *.
    destruct (IH (j + dj) (wp + k) pw1) as (pw' & Hrun & Hok' & Hw' & Hfr').
    { intros c Hc. specialize (Hcols (c + 1)). lia. }
    { lia. } { lia. } { done. }
    exists pw'. cbn [pfir_cols]. rewrite Hrows. cbn. rewrite Hrun.
    split; [done|]. split; [done|]. split.
    + intros c i Hc Hi. destruct (decide (c = 0)) as [->|Hne].
      * destruct (Hw1 i) as (wv & Ha & Hb); [lia|].
        exists wv. rewrite Z.mul_0_l, !Z.add_0_r.
        rewrite Z.sub_0_r in Ha. split; [done|].
        rewrite Hfr'; [done|]. intros (_ & c & Hc' & Heq). nia.
      * destruct (Hw' (c - 1) i) as (wv & Ha & Hb); [lia..|].
        exists wv.
        replace (j + dj + (c - 1) * dj) with (j + c * dj) in Hb by lia.
        split; [|done]. rewrite <- Ha. f_equal. lia.
    + intros i' j' Hne. rewrite Hfr'.
      * apply Hfr1. intros [Hi' ->]. apply Hne. split; [lia|].
        exists 0. lia.
      * intros (Hi' & c & Hc & ->). apply Hne. split; [done|].
        exists (c + 1). lia.
Qed.
End PolyphaseFacts.

Lemma land_1_odd j : Z.land j 1 = if Z.odd j then 1 else 0.
Proof.
  change 1 with (2 ^ 1 - 1) at 1. rewrite land_pow2_pred by lia.
  apply Zmod_odd.
Qed.

Lemma sign_rew_eq {FT : FType} {FH : FilterH} flags j :
  sign_rew flags j =
  f_of_Z (if bool_decide (Z.land flags ODD ≠ 0)
          then (if Z.odd j then -1 else 1) else 1).
Proof.
  unfold sign_rew. rewrite land_1_odd.
  destruct (decide (Z.land flags ODD ≠ 0)) as [H|H];
    [rewrite bool_decide_eq_true_2 by done|by rewrite bool_decide_eq_false_2].
  by destruct (Z.odd j).
Qed.

Lemma sign_fwd_eq {FT : FType} {FH : FilterH} flags j :
  sign_fwd flags j =
  f_of_Z (if bool_decide (Z.land flags ODD ≠ 0)
          then (if Z.even j then -1 else 1) else 1).
Proof.
  unfold sign_fwd. rewrite land_1_odd, <- Z.negb_odd.
  destruct (decide (Z.land flags ODD ≠ 0)) as [H|H];
    [rewrite bool_decide_eq_true_2 by done|by rewrite bool_decide_eq_false_2].
  by destruct (Z.odd j).
Qed.

(** C8: on a prototype of [n] taps and a bank of [k] rows and
    [l = n/k] columns, [design_pfir] leaves in row [i], column [j] the tap
    [(l-1-j)*k + i] when [REW] is set (columns filled right to left) and
    the tap [j*k + i] otherwise (left to right), multiplied by the gain
    [g] and by a sign factor: without [ODD] the factor is 1; with [ODD]
    it is -1 on the odd columns in the [REW] direction and -1 on the even
    columns in the forward direction. *)
Theorem design_pfir_bank {FT : FType} {FH : FilterH} (n k : Z)
    (w : list ftype_t) (pw : list (list ftype_t)) (g : ftype_t) (flags : Z) :
  1 ≤ k ≤ INT_MAX → 0 ≤ n ≤ UINT_MAX → 1 ≤ n / k ≤ INT_MAX →
  n ≤ Z.of_nat (length w) → bank_ok pw k (n / k) →
  ∃ r pw',
    design_pfir n k (Some w) (Some pw) g flags = Some (r, Some pw') ∧
    ∀ i j, 0 ≤ i < k → 0 ≤ j < n / k →
      let reverse := bool_decide (Z.land flags REW ≠ 0) in
      let invert := bool_decide (Z.land flags ODD ≠ 0) in
      let tap := if reverse then (n / k - 1 - j) * k + i else j * k + i in
      let factor :=
        if invert
        then (if reverse then (if Z.odd j then -1 else 1)
              else (if Z.even j then -1 else 1))
        else 1 in
      ∃ wv, load w tap = Some wv ∧
            load2 pw' i j = Some (g * wv * f_of_Z factor)%fp.
Proof.
  intros Hk Hn Hl Hw Hok. unfold INT_MAX, UINT_MAX in *.
  assert (n / k * k ≤ n) as Hlk by (pose proof (Z.mul_div_le n k); lia).
  unfold design_pfir. rewrite decide_False by lia.
  rewrite u32_i32 by lia. rewrite (i32_small (n / k)) by lia.
  rewrite (decide_False (P := _ ∨ _)) by lia.
  set (l := n / k) in *.
  destruct (decide (Z.land flags REW ≠ 0)) as [Hrew|Hfwd].
  - destruct (pfir_cols_spec (sign_rew flags) (-1) k l g w (Z.to_nat l)
                ltac:(by right) ltac:(done) (l - 1) 0 pw)
      as (pw' & Hrun & _ & Hfill & _); [lia..|done|].
    rewrite Hrun. cbn. exists (-1), pw'. split; [done|].
    intros i j Hi Hj. rewrite bool_decide_eq_true_2 by done. cbn zeta.
    destruct (Hfill (l - 1 - j) i) as (wv & Ha & Hb); [lia..|].
    replace (l - 1 + (l - 1 - j) * -1) with j in Hb by lia.
    exists wv. rewrite Z.add_0_l in Ha. split; [done|]. rewrite Hb.
    by rewrite sign_rew_eq.
  - destruct (pfir_cols_spec (sign_fwd flags) 1 k l g w (Z.to_nat l)
                ltac:(by left) ltac:(done) 0 0 pw)
      as (pw' & Hrun & _ & Hfill & _); [lia..|done|].
    rewrite Hrun. cbn. exists (-1), pw'. split; [done|].
    intros i j Hi Hj. rewrite bool_decide_eq_false_2 by done. cbn zeta.
    destruct (Hfill j i) as (wv & Ha & Hb); [lia..|].
    replace (0 + j * 1) with j in Hb by lia.
    exists wv. rewrite Z.add_0_l in Ha. split; [done|]. rewrite Hb.
    by rewrite sign_fwd_eq.
Qed.

(** C8 on a prototype of four taps and two rows, reversed and inverted:
    column 1 holds the first two taps negated, column 0 the last two. *)
Lemma design_pfir_bank_witness :
  ∃ r pw',
    design_pfir (FT := Double.ftype_double) (FH := example_flags) 4 2
      (Some Double.taps4) (Some Double.bank22) (Double.of_Z 1) 0x12
    = Some (r, Some pw') ∧
    load2 pw' 0 1 = Some (Double.of_Z (-1)) ∧ load2 pw' 1 0 = Some (Double.of_Z 4).
Proof.
  destruct (design_pfir_bank (FT := Double.ftype_double) (FH := example_flags)
              4 2 Double.taps4 Double.bank22 (Double.of_Z 1) 0x12)
    as (r & pw' & Hrun & Hfill);
    [unfold INT_MAX; lia | unfold UINT_MAX; lia
    | change (4 / 2) with 2; unfold INT_MAX; lia | simpl; lia | |].
  { intros i Hi. change (4 / 2) with 2.
    assert (i = 0 ∨ i = 1) as [->| ->] by lia; eexists;
      (split; [reflexivity|simpl; lia]). }
  exists r, pw'. split; [exact Hrun|].
  destruct (Hfill 0 1) as (v & Hv & Ha); [lia|change (4 / 2) with 2; lia|].
  destruct (Hfill 1 0) as (v' & Hv' & Hb); [lia|change (4 / 2) with 2; lia|].
  vm_compute in Hv, Hv'. injection Hv as <-. injection Hv' as <-.
  split; [exact Ha|exact Hb].
Defined.

(** C1 (the code returns -1 on every path): whatever its arguments,
    [design_pfir] never returns 0; on the prototype [1; 2; 3; 4] with
    [k = 2] (4 is divisible by 2) it fills the bank and returns -1. *)
Theorem design_pfir_returns_minus_1 :
  (∀ (FT : FType) (FH : FilterH) n k w pw g flags,
     match design_pfir n k w pw g flags with
     | Some (r, _) => r = -1
     | None => True
     end) ∧
  design_pfir (FT := Double.ftype_double) (FH := example_flags) 4 2
    (Some Double.taps4) (Some Double.bank22) (Double.of_Z 1) 0
  = Some (-1, Some [Double.of_Z <$> [1; 3]; Double.of_Z <$> [2; 4]]).
Proof.
  split; [|vm_compute; reflexivity].
  intros FT FH n k w pw g flags. unfold design_pfir.
  destruct (decide (k = 0)); [done|].
  destruct w as [w|], pw as [pw|]; try done.
  destruct (decide _); [done|].
  destruct (decide _); (destruct (pfir_cols _ _ _ _ _ _ _ _ _); done).
Qed.

(** ** The biquad cascade *)

Section IIRFacts.
Context {FT : FType} {LM : Libm FT}.

Lemma szxform_gain (s : biquad) (k : ftype_t) :
  biquad_ok s →
  ∃ r coef',
    section_ratio s = Some r ∧
    szxform (Some (bq_a s)) (Some (bq_b s)) (bq_Q s) (bq_fc s) (bq_fs s)
      (Some k) (Some (bq_coef s))
    = Some (0, Some (k * r)%fp, Some coef').
Proof.
  destruct s as [a b Q fc fs coef]. unfold biquad_ok.
  cbn [bq_a bq_b bq_Q bq_fc bq_fs bq_coef].
  intros (Ha & Hb & Hc & HQ1 & HQ2).
  destruct a as [|a0 [|a1 [|a2 a]]]; try (cbn in Ha; lia).
  destruct b as [|b0 [|b1 [|b2 b]]]; try (cbn in Hb; lia).
  destruct coef as [|c0 [|c1 [|c2 [|c3 coef]]]]; try (cbn in Hc; lia).
  unfold section_ratio, szxform. rewrite HQ1, HQ2.
  cbn [bq_a bq_b bq_Q bq_fc bq_fs bq_coef orb lookup list_lookup mbind
       option_bind].
  unfold copy3. rewrite !decide_True by (cbn [length]; lia).
  cbn [take]. unfold prewarp, bilinear. buf_simpl.
  eexists _, _. split; reflexivity.
Qed.

End IIRFacts.


Module ExactFacts.
Import Reals Lra Exact.


End ExactFacts.

(** ** FIR design: loop indices *)

(** [end = ((n + 1) >> 1) - o] is [n / 2], except at [n = UINT_MAX] where
    [n + 1] wraps to 0 and [end] to [n]. *)
Lemma end_cases n :
  0 < n ≤ UINT_MAX →
  (n < UINT_MAX ∧ fir_end n = n / 2) ∨ (n = UINT_MAX ∧ fir_end n = n).
Proof.
  unfold UINT_MAX, fir_end, fir_o. intros Hn.
  destruct (decide (n = 2^32 - 1)) as [->|Hne]; [right; done|left].
  split; [lia|]. rewrite (u32_small (n + 1)) by lia.
  rewrite Z.shiftr_div_pow2 by lia. change (2 ^ 1) with 2.
  rewrite land_1_odd. pose proof (Zmod_odd n) as Hodd.
  destruct (Z.odd n); (rewrite u32_small; Z.div_mod_to_equations; lia).
Qed.

Lemma end_bounds n :
  0 < n ≤ UINT_MAX →
  0 ≤ fir_end n ≤ n.
Proof.
  intros Hn. destruct (end_cases n Hn) as [[_ ->]|[_ ->]];
    Z.div_mod_to_equations; lia.
Qed.

Lemma lo_index n end_ i :
  0 ≤ i < end_ → end_ ≤ n ≤ UINT_MAX → u32 (u32 (end_ - i) - 1) = end_ - 1 - i.
Proof.
  unfold UINT_MAX. intros Hi Hn.
  rewrite (u32_small (end_ - i)) by lia. rewrite u32_small; lia.
Qed.

Lemma hi_index n end_ i :
  0 ≤ i < end_ → end_ ≤ n ≤ UINT_MAX → u32 (u32 (n - end_) + i) = n - end_ + i.
Proof.
  unfold UINT_MAX. intros Hi Hn.
  rewrite (u32_small (n - end_)) by lia. rewrite u32_small; lia.
Qed.

(** The two offsets of iteration [i] mirror each other, and an offset in
    [0, n) is the low or the high offset of an iteration, or the centre. *)
Lemma mirror_cover n p :
  0 < n ≤ UINT_MAX → 0 ≤ p < n →
  p < fir_end n ∨ n - fir_end n ≤ p ∨ n - 1 - p = p.
Proof.
  intros Hn Hp. destruct (end_cases n Hn) as [[_ ->]|[_ ->]];
    Z.div_mod_to_equations; lia.
Qed.

(** ** FIR design: the tap loop *)

Section DesignLoops.
Context {FT : FType}.
Implicit Types (w : list ftype_t) (g : ftype_t)
  (body : Z → ftype_t → ftype_t → ftype_t * ftype_t).

(** The loop runs to its end when its offsets are inside the buffer. *)
Lemma taps_loop_total body (n end_ : Z) (f : nat) :
  end_ ≤ n ≤ UINT_MAX →
  ∀ i w g,
    0 ≤ i → i + Z.of_nat f ≤ end_ → n ≤ Z.of_nat (length w) →
    ∃ w' g', taps_loop body f n end_ i w g = Some (w', g') ∧
             length w' = length w.
Proof.
  intros Hn. induction f as [|f IH]; intros i w g Hi Hf Hlen.
  - by exists w, g.
  - rewrite Nat2Z.inj_succ in Hf. cbn [taps_loop].
    rewrite (lo_index n), (hi_index n) by lia.
    destruct (load_is_Some w (end_ - 1 - i)) as [wi Hwi]; [lia|].
    rewrite Hwi. cbn. destruct (body i wi g) as [tap g1].
    rewrite store_Some by lia. cbn.
    rewrite store_Some by (rewrite length_insert; lia). cbn.
    destruct (IH (i + 1) (<[Z.to_nat (end_ - 1 - i) := tap]>
                            (<[Z.to_nat (n - end_ + i) := tap]> w)) g1)
      as (w' & g' & Hrun & Hl); [lia|lia|rewrite !length_insert; lia|].
    exists w', g'. split; [done|]. by rewrite Hl, !length_insert.
Qed.

Lemma taps_loop_length body (n end_ : Z) (f : nat) i w g w' g' :
  taps_loop body f n end_ i w g = Some (w', g') → length w' = length w.
Proof.
  revert i w g. induction f as [|f IH]; intros i w g Hrun.
  - by simplify_eq/=.
  - cbn [taps_loop] in Hrun.
    destruct (load w _) as [wi|]; [|done]. cbn in Hrun.
    destruct (body i wi g) as [tap g1].
    destruct (store w _ tap) as [w1|] eqn:H1; [|done]. cbn in Hrun.
    destruct (store w1 _ tap) as [w2|] eqn:H2; [|done]. cbn in Hrun.
    rewrite (IH _ _ _ Hrun), (store_length _ _ _ _ H2). by eapply store_length.
Qed.

Lemma taps_loop_mirrored body (n end_ : Z) (f : nat) :
  end_ ≤ n ≤ UINT_MAX →
  ∀ i w g w' g',
    0 ≤ i → i + Z.of_nat f ≤ end_ →
    taps_loop body f n end_ i w g = Some (w', g') →
    mirrored n end_ i w → mirrored n end_ (i + Z.of_nat f) w'.
Proof.
  intros Hn. induction f as [|f IH]; intros i w g w' g' Hi Hf Hrun Hm.
  - simplify_eq/=. by rewrite Z.add_0_r.
  - rewrite Nat2Z.inj_succ in *. cbn [taps_loop] in Hrun.
    rewrite (lo_index n), (hi_index n) in Hrun by lia.
    destruct (load w _) as [wi|]; [|done]. cbn in Hrun.
    destruct (body i wi g) as [tap g1].
    destruct (store w _ tap) as [w1|] eqn:H1; [|done]. cbn in Hrun.
    destruct (store w1 _ tap) as [w2|] eqn:H2; [|done]. cbn in Hrun.
    replace (i + Z.succ (Z.of_nat f)) with (i + 1 + Z.of_nat f) by lia.
    apply (IH (i + 1) w2 g1 w' g'); [lia|lia|done|].
    intros j Hj.
    assert (load w2 (end_ - 1 - i) = Some tap) as Hlo
      by apply (load_store_eq _ _ _ _ H2).
    assert (load w2 (n - end_ + i) = Some tap) as Hhi.
    { destruct (decide (end_ - 1 - i = n - end_ + i)) as [Heq|Hne].
      - by rewrite <- Heq.
      - rewrite (load_store_ne _ _ _ _ _ H2) by done.
        apply (load_store_eq _ _ _ _ H1). }
    destruct (decide (j = i)) as [->|Hji]; [congruence|].
    destruct (decide (end_ - 1 - j = n - end_ + i)) as [Heq|Hne].
    + rewrite Heq, Hhi. replace (n - end_ + j) with (end_ - 1 - i) by lia.
      by rewrite Hlo.
    + rewrite (load_store_ne _ _ _ _ _ H2) by lia.
      rewrite (load_store_ne _ _ _ _ _ H1) by lia.
      rewrite (load_store_ne _ _ (n - end_ + j) _ _ H2) by lia.
      rewrite (load_store_ne _ _ (n - end_ + j) _ _ H1) by lia.
      apply Hm. lia.
Qed.

(** The scaling loop multiplies the cells [i .. i + f - 1] by [g]. *)
Lemma norm_loop_spec (f : nat) i g w w' :
  0 ≤ i → norm_loop f i g w = Some w' →
  length w' = length w ∧
  ∀ p, load w' p =
       if decide (i ≤ p < i + Z.of_nat f)
       then (λ x, x * g)%fp <$> load w p else load w p.
Proof.
  revert i w. induction f as [|f IH]; intros i w Hi Hrun.
  - simplify_eq/=. split; [done|]. intros p. by rewrite decide_False by lia.
  - rewrite Nat2Z.inj_succ. cbn [norm_loop] in Hrun.
    destruct (load w i) as [wi|] eqn:Hwi; [|done]. cbn in Hrun.
    destruct (store w i _) as [w1|] eqn:H1; [|done]. cbn in Hrun.
    destruct (IH (i + 1) w1 ltac:(lia) Hrun) as [Hl Hp].
    split; [by rewrite Hl, (store_length _ _ _ _ H1)|].
    intros p. rewrite Hp. destruct (decide (p = i)) as [->|Hne].
    + rewrite decide_False by lia. rewrite decide_True by lia.
      by rewrite (load_store_eq _ _ _ _ H1), Hwi.
    + rewrite (load_store_ne _ _ _ _ _ H1) by done.
      destruct (decide (i + 1 ≤ p < i + 1 + Z.of_nat f));
        [by rewrite decide_True by lia|by rewrite decide_False by lia].
Qed.

Lemma norm_loop_total (f : nat) g :
  ∀ i w, 0 ≤ i → i + Z.of_nat f ≤ Z.of_nat (length w) →
         is_Some (norm_loop f i g w).
Proof.
  induction f as [|f IH]; intros i w Hi Hf; [by eexists|].
  rewrite Nat2Z.inj_succ in Hf. cbn [norm_loop].
  destruct (load_is_Some w i) as [wi Hwi]; [lia|]. rewrite Hwi. cbn.
  rewrite store_Some by lia. cbn. apply IH; [lia|].
  rewrite length_insert. lia.
Qed.
End DesignLoops.

(** ** FIR design: the stages *)

Section DesignFacts.
Context {FT : FType} {LM : Libm FT} {FH : FilterH} {WG : WindowGen FT}.
Implicit Types (w : list ftype_t) (s : fir_state).

Lemma fill_window_Some (env : Z → ftype_t) n w :
  0 ≤ n ≤ Z.of_nat (length w) →
  fill_window env n w = Some ((env <$> seqZ 0 n) ++ drop (Z.to_nat n) w).
Proof. intros Hn. unfold fill_window. by rewrite decide_True by lia. Qed.

Lemma fill_window_inv (env : Z → ftype_t) n w w1 :
  0 ≤ n → fill_window env n w = Some w1 →
  n ≤ Z.of_nat (length w) ∧ length w1 = length w ∧
  w1 = (env <$> seqZ 0 n) ++ drop (Z.to_nat n) w.
Proof.
  intros Hn. unfold fill_window. destruct (decide _) as [Hle|]; [|done].
  intros [= <-]. split; [done|]. split; [|done].
  rewrite length_app, length_fmap, length_seqZ, length_drop. lia.
Qed.

Lemma stage_loop body n w g w' g' :
  0 < n ≤ UINT_MAX →
  taps_loop body (Z.to_nat (fir_end n)) n (fir_end n) 0 w g = Some (w', g') →
  length w' = length w ∧ mirrored n (fir_end n) (fir_end n) w'.
Proof.
  intros Hn Hrun. pose proof (end_bounds n Hn) as He.
  split; [by eapply taps_loop_length|].
  replace (fir_end n) with (0 + Z.of_nat (Z.to_nat (fir_end n))) at 2 by lia.
  eapply taps_loop_mirrored; [| |by rewrite Z2Nat.id by lia|exact Hrun|].
  - lia.
  - done.
  - intros j Hj. lia.
Qed.

Lemma first_stage_None flags :
  first_stage flags = None ↔ ¬ Z.land flags (Z.lor LP HP) ≠ 0.
Proof. unfold first_stage. destruct (decide _); naive_solver. Qed.

Lemma second_stage_None flags :
  second_stage flags = None ↔ ¬ Z.land flags (Z.lor BP BS) ≠ 0.
Proof. unfold second_stage. destruct (decide _); naive_solver. Qed.

(** What a stage that went on has done to the buffer. *)
Lemma lp_hp_stage_Next n k2 fc flags s s' :
  0 < n ≤ UINT_MAX →
  lp_hp_stage n (fir_o n) (fir_end n) k2 fc flags s = Some (Next s') →
  length (st_w s') = length (st_w s) ∧
  (first_stage flags = None → s' = s) ∧
  (first_stage flags ≠ None → mirrored n (fir_end n) (fir_end n) (st_w s')).
Proof.
  intros Hn. unfold lp_hp_stage. rewrite first_stage_None.
  destruct (decide (Z.land flags (Z.lor LP HP) ≠ 0)) as [Hsel|Hsel];
    [|intros [= <-]; by repeat split].
  destruct (load fc 0) as [fc1|]; [|done]. cbn.
  destruct (decide (Z.land flags LP ≠ 0)).
  - destruct (decide (fir_o n ≠ 0)).
    + destruct (load (st_w s) _) as [we|]; [|done]. cbn.
      destruct (store (st_w s) _ _) as [w1|] eqn:H1; [|done]. cbn.
      destruct (taps_loop _ _ _ _ _ _ _) as [[w2 g2]|] eqn:Hl; [|done]. cbn.
      intros [= <-]. cbn. destruct (stage_loop _ _ _ _ _ _ Hn Hl) as [Hlen Hm].
      rewrite Hlen, (store_length _ _ _ _ H1). by repeat split.
    + cbn. destruct (taps_loop _ _ _ _ _ _ _) as [[w2 g2]|] eqn:Hl; [|done]. cbn.
      intros [= <-]. cbn. destruct (stage_loop _ _ _ _ _ _ Hn Hl) as [Hlen Hm].
      by repeat split.
  - destruct (decide (fir_o n = 0)); [done|].
    destruct (load (st_w s) _) as [we|]; [|done]. cbn.
    destruct (store (st_w s) _ _) as [w1|] eqn:H1; [|done]. cbn.
    destruct (taps_loop _ _ _ _ _ _ _) as [[w2 g2]|] eqn:Hl; [|done]. cbn.
    intros [= <-]. cbn. destruct (stage_loop _ _ _ _ _ _ Hn Hl) as [Hlen Hm].
    rewrite Hlen, (store_length _ _ _ _ H1). by repeat split.
Qed.

Lemma bp_bs_stage_Next n k2 fc flags s s' :
  0 < n ≤ UINT_MAX →
  bp_bs_stage n (fir_o n) (fir_end n) k2 fc flags s = Some (Next s') →
  length (st_w s') = length (st_w s) ∧
  (second_stage flags = None → s' = s) ∧
  (second_stage flags ≠ None → mirrored n (fir_end n) (fir_end n) (st_w s')).
Proof.
  intros Hn. unfold bp_bs_stage. rewrite second_stage_None.
  destruct (decide (Z.land flags (Z.lor BP BS) ≠ 0)) as [Hsel|Hsel];
    [|intros [= <-]; by repeat split].
  destruct (load fc 0) as [fc1|]; [|done]. cbn.
  destruct (load fc 1) as [fc2|]; [|done]. cbn.
  destruct (decide (Z.land flags BP ≠ 0)).
  - destruct (decide (fir_o n ≠ 0)).
    + destruct (load (st_w s) _) as [we|]; [|done]. cbn.
      destruct (store (st_w s) _ _) as [w1|] eqn:H1; [|done]. cbn.
      destruct (taps_loop _ _ _ _ _ _ _) as [[w2 g2]|] eqn:Hl; [|done]. cbn.
      intros [= <-]. cbn. destruct (stage_loop _ _ _ _ _ _ Hn Hl) as [Hlen Hm].
      rewrite Hlen, (store_length _ _ _ _ H1). by repeat split.
    + cbn. destruct (taps_loop _ _ _ _ _ _ _) as [[w2 g2]|] eqn:Hl; [|done]. cbn.
      intros [= <-]. cbn. destruct (stage_loop _ _ _ _ _ _ Hn Hl) as [Hlen Hm].
      by repeat split.
  - destruct (decide (fir_o n = 0)); [done|].
    destruct (load (st_w s) _) as [we|]; [|done]. cbn.
    destruct (store (st_w s) _ _) as [w1|] eqn:H1; [|done]. cbn.
    destruct (taps_loop _ _ _ _ _ _ _) as [[w2 g2]|] eqn:Hl; [|done]. cbn.
    intros [= <-]. cbn. destruct (stage_loop _ _ _ _ _ _ Hn Hl) as [Hlen Hm].
    rewrite Hlen, (store_length _ _ _ _ H1). by repeat split.
Qed.

(** On valid buffers a stage returns early on its parity test and goes on
    otherwise. *)
Lemma centre_ok n w :
  0 < n < UINT_MAX → n ≤ Z.of_nat (length w) → fir_o n ≠ 0 →
  0 ≤ fir_end n < Z.of_nat (length w).
Proof.
  intros Hn Hle Ho. destruct (end_cases n ltac:(lia)) as [[_ ->]|[? _]]; [|lia].
  Z.div_mod_to_equations; lia.
Qed.

Lemma lp_hp_stage_total n k2 fc flags s :
  0 < n < UINT_MAX → n ≤ Z.of_nat (length (st_w s)) → (1 ≤ length fc)%nat →
  if decide (first_stage flags = Some kHP ∧ fir_o n = 0)
  then lp_hp_stage n (fir_o n) (fir_end n) k2 fc flags s = Some (Exit (-1) (st_w s))
  else ∃ s', lp_hp_stage n (fir_o n) (fir_end n) k2 fc flags s = Some (Next s').
Proof.
  intros Hn Hle Hfc. pose proof (end_bounds n ltac:(lia)) as He.
  destruct (load_is_Some fc 0) as [fc1 Hfc1]; [lia|].
  unfold lp_hp_stage, first_stage.
  destruct (decide (Z.land flags (Z.lor LP HP) ≠ 0));
    [|rewrite decide_False by (intros [Hk Hz]; first [discriminate Hk|contradiction]); by eexists].
  rewrite Hfc1. cbn.
  destruct (decide (Z.land flags LP ≠ 0)).
  - rewrite decide_False by (intros [Hk Hz]; first [discriminate Hk|contradiction]).
    destruct (decide (fir_o n ≠ 0)) as [Ho|Ho]; cbn.
    + pose proof (centre_ok n _ Hn Hle Ho) as Hc.
      destruct (load_is_Some (st_w s) (fir_end n) Hc) as [we ->]. cbn.
      rewrite store_Some by done. cbn.
      edestruct (taps_loop_total (lp_body (st_k1 s * cutoff fc1)%fp k2) n (fir_end n)
                   (Z.to_nat (fir_end n))) as (w' & g' & -> & _);
        [lia|done|lia|rewrite length_insert; lia|]. cbn. by eexists.
    + edestruct (taps_loop_total (lp_body (st_k1 s * cutoff fc1)%fp k2) n (fir_end n)
                   (Z.to_nat (fir_end n))) as (w' & g' & -> & _);
        [lia|done|lia|exact Hle|]. cbn. by eexists.
  - destruct (decide (fir_o n = 0)) as [Ho|Ho].
    + by rewrite decide_True.
    + rewrite decide_False by (intros [Hk Hz]; first [discriminate Hk|contradiction]).
      pose proof (centre_ok n _ Hn Hle Ho) as Hc.
      destruct (load_is_Some (st_w s) (fir_end n) Hc) as [we ->]. cbn.
      rewrite store_Some by done. cbn.
      edestruct (taps_loop_total (hp_body (st_k1 s * cutoff fc1)%fp) n (fir_end n)
                   (Z.to_nat (fir_end n))) as (w' & g' & -> & _);
        [lia|done|lia|rewrite length_insert; lia|]. cbn. by eexists.
Qed.

Lemma bp_bs_stage_total n k2 fc flags s :
  0 < n < UINT_MAX → n ≤ Z.of_nat (length (st_w s)) → (2 ≤ length fc)%nat →
  if decide (second_stage flags = Some kBS ∧ fir_o n = 0)
  then bp_bs_stage n (fir_o n) (fir_end n) k2 fc flags s = Some (Exit (-1) (st_w s))
  else ∃ s', bp_bs_stage n (fir_o n) (fir_end n) k2 fc flags s = Some (Next s').
Proof.
  intros Hn Hle Hfc. pose proof (end_bounds n ltac:(lia)) as He.
  destruct (load_is_Some fc 0) as [fc1 Hfc1]; [lia|].
  destruct (load_is_Some fc 1) as [fc2 Hfc2]; [lia|].
  unfold bp_bs_stage, second_stage.
  destruct (decide (Z.land flags (Z.lor BP BS) ≠ 0));
    [|rewrite decide_False by (intros [Hk Hz]; first [discriminate Hk|contradiction]); by eexists].
  rewrite Hfc1. cbn. rewrite Hfc2. cbn.
  destruct (decide (Z.land flags BP ≠ 0)).
  - rewrite decide_False by (intros [Hk Hz]; first [discriminate Hk|contradiction]).
    destruct (decide (fir_o n ≠ 0)) as [Ho|Ho]; cbn.
    + pose proof (centre_ok n _ Hn Hle Ho) as Hc.
      destruct (load_is_Some (st_w s) (fir_end n) Hc) as [we ->]. cbn.
      rewrite store_Some by done. cbn.
      edestruct (taps_loop_total
                   (bp_body (st_k1 s * cutoff fc1)%fp k2 (st_k1 s * cutoff fc2)%fp)
                   n (fir_end n) (Z.to_nat (fir_end n))) as (w' & g' & -> & _);
        [lia|done|lia|rewrite length_insert; lia|]. cbn. by eexists.
    + edestruct (taps_loop_total
                   (bp_body (st_k1 s * cutoff fc1)%fp k2 (st_k1 s * cutoff fc2)%fp)
                   n (fir_end n) (Z.to_nat (fir_end n))) as (w' & g' & -> & _);
        [lia|done|lia|exact Hle|]. cbn. by eexists.
  - destruct (decide (fir_o n = 0)) as [Ho|Ho].
    + by rewrite decide_True.
    + rewrite decide_False by (intros [Hk Hz]; first [discriminate Hk|contradiction]).
      pose proof (centre_ok n _ Hn Hle Ho) as Hc.
      destruct (load_is_Some (st_w s) (fir_end n) Hc) as [we ->]. cbn.
      rewrite store_Some by done. cbn.
      edestruct (taps_loop_total
                   (bs_body (st_k1 s * cutoff fc1)%fp (st_k1 s * cutoff fc2)%fp)
                   n (fir_end n) (Z.to_nat (fir_end n))) as (w' & g' & -> & _);
        [lia|done|lia|rewrite length_insert; lia|]. cbn. by eexists.
Qed.

Lemma fir_taps_Next n w fc flags opt s :
  0 < n ≤ UINT_MAX →
  fir_taps n w fc flags opt = Some (Next s) →
  n ≤ Z.of_nat (length w) ∧ length (st_w s) = length w ∧
  (first_stage flags ≠ None ∨ second_stage flags ≠ None →
   mirrored n (fir_end n) (fir_end n) (st_w s)).
Proof.
  intros Hn. unfold fir_taps.
  destruct (window_of n flags opt) as [env|]; [|done].
  destruct (fill_window env n w) as [w1|] eqn:Hfill; [|done]. cbn.
  apply fill_window_inv in Hfill as (Hle & Hl1 & _); [|lia].
  destruct (lp_hp_stage _ _ _ _ _ _ _) as [[c wx|s1]|] eqn:H1; [done| |done].
  cbn. intros H2.
  apply lp_hp_stage_Next in H1 as (Hlen1 & Hid1 & Hm1); [|done].
  apply bp_bs_stage_Next in H2 as (Hlen2 & Hid2 & Hm2); [|done].
  cbn in Hlen1. split; [done|]. split; [congruence|].
  intros Hsel. destruct (second_stage flags) as [k|] eqn:Hk2.
  - by apply Hm2.
  - rewrite (Hid2 eq_refl). apply Hm1. by destruct Hsel.
Qed.

(** A stage returns early only on the parity test, with -1 and the buffer
    as the stage found it. *)
Lemma lp_hp_stage_Exit n o end_ k2 fc flags s c wx :
  lp_hp_stage n o end_ k2 fc flags s = Some (Exit c wx) →
  c = -1 ∧ wx = st_w s ∧ first_stage flags = Some kHP ∧ o = 0.
Proof.
  unfold lp_hp_stage, first_stage.
  destruct (decide (Z.land flags (Z.lor LP HP) ≠ 0)); [|done].
  destruct (load fc 0) as [fc1|]; [|done]. cbn.
  destruct (decide (Z.land flags LP ≠ 0)).
  - destruct (decide (o ≠ 0)); cbn.
    + destruct (load (st_w s) _) as [we|]; [|done]. cbn.
      destruct (store (st_w s) _ _) as [w1|]; [|done]. cbn.
      by destruct (taps_loop _ _ _ _ _ _ _) as [[w2 g2]|].
    + by destruct (taps_loop _ _ _ _ _ _ _) as [[w2 g2]|].
  - destruct (decide (o = 0)); [by intros [= <- <-]|].
    destruct (load (st_w s) _) as [we|]; [|done]. cbn.
    destruct (store (st_w s) _ _) as [w1|]; [|done]. cbn.
    by destruct (taps_loop _ _ _ _ _ _ _) as [[w2 g2]|].
Qed.

Lemma bp_bs_stage_Exit n o end_ k2 fc flags s c wx :
  bp_bs_stage n o end_ k2 fc flags s = Some (Exit c wx) →
  c = -1 ∧ wx = st_w s ∧ second_stage flags = Some kBS ∧ o = 0.
Proof.
  unfold bp_bs_stage, second_stage.
  destruct (decide (Z.land flags (Z.lor BP BS) ≠ 0)); [|done].
  destruct (load fc 0) as [fc1|]; [|done]. cbn.
  destruct (load fc 1) as [fc2|]; [|done]. cbn.
  destruct (decide (Z.land flags BP ≠ 0)).
  - destruct (decide (o ≠ 0)); cbn.
    + destruct (load (st_w s) _) as [we|]; [|done]. cbn.
      destruct (store (st_w s) _ _) as [w1|]; [|done]. cbn.
      by destruct (taps_loop _ _ _ _ _ _ _) as [[w2 g2]|].
    + by destruct (taps_loop _ _ _ _ _ _ _) as [[w2 g2]|].
  - destruct (decide (o = 0)); [by intros [= <- <-]|].
    destruct (load (st_w s) _) as [we|]; [|done]. cbn.
    destruct (store (st_w s) _ _) as [w1|]; [|done]. cbn.
    by destruct (taps_loop _ _ _ _ _ _ _) as [[w2 g2]|].
Qed.

Lemma fir_taps_Exit n w fc flags opt c wx :
  fir_taps n w fc flags opt = Some (Exit c wx) → c = -1.
Proof.
  unfold fir_taps.
  destruct (window_of n flags opt) as [env|]; [|by intros [= <- <-]].
  destruct (fill_window env n w) as [w1|]; [|done]. cbn.
  destruct (lp_hp_stage _ _ _ _ _ _ _) as [[c1 wx1|s1]|] eqn:H1; [| |done]; cbn.
  - intros [= <- <-]. by apply lp_hp_stage_Exit in H1 as (-> & _).
  - intros H2. by apply bp_bs_stage_Exit in H2 as (-> & _).
Qed.

Lemma design_fir_0 n w fc flags opt w' :
  design_fir n (Some w) fc flags opt = Some (0, Some w') →
  n ≠ 0 ∧ ∃ s, fir_taps n w fc flags opt = Some (Next s) ∧
               normalize n s = Some w'.
Proof.
  unfold design_fir. destruct (decide (n = 0)); [done|].
  destruct (fir_taps n w fc flags opt) as [[c wx|s]|] eqn:Ht; [| |done]; cbn.
  - apply fir_taps_Exit in Ht as ->. done.
  - destruct (normalize n s) as [w2|] eqn:Hn; [|done]. cbn.
    intros [= <-]. split; [done|]. by exists s.
Qed.

(** On valid buffers [design_fir] returns, and returns [design_fir_code]. *)
Lemma design_fir_returns n w fc flags opt :
  0 ≤ n < UINT_MAX → n ≤ Z.of_nat (length w) → (2 ≤ length fc)%nat →
  ∃ w', design_fir n (Some w) fc flags opt
        = Some (design_fir_code n flags opt, Some w') ∧
        length w' = length w.
Proof.
  intros Hn Hle Hfc. unfold design_fir, design_fir_code.
  destruct (decide (n = 0)); [by eexists|].
  unfold fir_taps.
  destruct (window_of n flags opt) as [env|]; [|by eexists].
  rewrite decide_False by done.
  rewrite fill_window_Some by lia. cbn.
  set (w1 := (env <$> seqZ 0 n) ++ drop (Z.to_nat n) w).
  assert (length w1 = length w) as Hl1.
  { unfold w1. rewrite length_app, length_fmap, length_seqZ, length_drop. lia. }
  set (s0 := FirState w1 _ _).
  pose proof (lp_hp_stage_total n (f0_5 * f_of_Z (u32 (1 - fir_o n)))%fp
                fc flags s0 ltac:(lia) ltac:(cbn; lia) ltac:(lia)) as H1.
  destruct (decide (first_stage flags = Some kHP ∧ fir_o n = 0)).
  { rewrite H1. cbn. by eexists. }
  destruct H1 as [s1 H1]. rewrite H1. cbn.
  apply lp_hp_stage_Next in H1 as (Hlen1 & _); [|unfold UINT_MAX in *; lia].
  cbn in Hlen1.
  pose proof (bp_bs_stage_total n (f0_5 * f_of_Z (u32 (1 - fir_o n)))%fp
                fc flags s1 ltac:(lia) ltac:(lia) Hfc) as H2.
  destruct (decide (second_stage flags = Some kBS ∧ fir_o n = 0)).
  { rewrite H2. cbn. eexists. split; [done|]. congruence. }
  destruct H2 as [s2 H2]. rewrite H2. cbn.
  apply bp_bs_stage_Next in H2 as (Hlen2 & _); [|unfold UINT_MAX in *; lia].
  unfold normalize.
  destruct (norm_loop_total (Z.to_nat n) (f_of_Z 1 / st_g s2)%fp 0 (st_w s2))
    as [w' Hnorm]; [lia|lia|].
  rewrite Hnorm. cbn. exists w'. split; [done|].
  apply norm_loop_spec in Hnorm as [-> _]; [congruence|lia].
Qed.

Lemma kind_of_stages flags k :
  kind_of flags = Some k →
  (first_stage flags = Some k ∧ second_stage flags = None) ∨
  (first_stage flags = None ∧ second_stage flags = Some k).
Proof.
  unfold kind_of.
  destruct (first_stage flags), (second_stage flags); naive_solver.
Qed.

Lemma first_stage_kind flags k : first_stage flags = Some k → k = kLP ∨ k = kHP.
Proof.
  unfold first_stage. destruct (decide _); [|done].
  destruct (decide _); naive_solver.
Qed.

Lemma second_stage_kind flags k : second_stage flags = Some k → k = kBP ∨ k = kBS.
Proof.
  unfold second_stage. destruct (decide _); [|done].
  destruct (decide _); naive_solver.
Qed.
End DesignFacts.

(** C5: after a design that returned 0 and ran the loop of at least one
    of the four kinds (low pass, high pass, band pass, band stop), the [n]
    taps in the buffer are symmetric: [w[i]] and [w[n-1-i]] hold the same
    value, for every [0 <= i < n]. *)
Theorem design_fir_symmetric {FT : FType} {LM : Libm FT} {FH : FilterH}
    {WG : WindowGen FT} (n : Z) (w : list ftype_t) (fc : list ftype_t)
    (flags : Z) (opt : ftype_t) (w' : list ftype_t) :
  0 ≤ n ≤ UINT_MAX →
  first_stage flags ≠ None ∨ second_stage flags ≠ None →
  design_fir n (Some w) fc flags opt = Some (0, Some w') →
  ∀ i, 0 ≤ i < n →
       ∃ v, load w' i = Some v ∧ load w' (n - 1 - i) = Some v.
Proof.
  intros Hn Hsel Hrun i Hi.
  apply design_fir_0 in Hrun as (Hn0 & s & Ht & Hnorm).
  apply fir_taps_Next in Ht as (Hle & Hlen & Hm); [|lia].
  specialize (Hm Hsel). unfold normalize in Hnorm.
  apply norm_loop_spec in Hnorm as [Hl' Hp]; [|done].
  assert (load (st_w s) i = load (st_w s) (n - 1 - i)) as Hsym.
  { destruct (mirror_cover n i ltac:(lia) Hi) as [Hlo|[Hhi|Hc]].
    - specialize (Hm (fir_end n - 1 - i) ltac:(lia)).
      replace (fir_end n - 1 - (fir_end n - 1 - i)) with i in Hm by lia.
      rewrite Hm. f_equal. lia.
    - pose proof (end_bounds n ltac:(lia)) as He.
      specialize (Hm (i - (n - fir_end n)) ltac:(lia)).
      replace (n - fir_end n + (i - (n - fir_end n))) with i in Hm by lia.
      rewrite <- Hm. f_equal. lia.
    - by rewrite Hc. }
  destruct (load_is_Some (st_w s) i) as [v Hv]; [lia|].
  exists (v * (f_of_Z 1 / st_g s))%fp. rewrite !Hp.
  rewrite !decide_True by lia. rewrite <- Hsym, Hv. done.
Qed.

(** C3: on valid buffers, for an even length [n], a high-pass or a band-stop
    request returns -1, whatever the window selector and the cutoffs; a
    low-pass or a band-pass request with a valid window selector returns 0
    for every [n > 0], even or odd. *)
Theorem design_fir_parity {FT : FType} {LM : Libm FT} {FH : FilterH}
    {WG : WindowGen FT} (n : Z) (w : list ftype_t) (fc : list ftype_t)
    (opt : ftype_t) :
  0 ≤ n < UINT_MAX → n ≤ Z.of_nat (length w) → (2 ≤ length fc)%nat →
  (∀ flags,
     Z.even n = true →
     kind_of flags = Some kHP ∨ kind_of flags = Some kBS →
     ∃ w', design_fir n (Some w) fc flags opt = Some (-1, Some w')) ∧
  (∀ flags,
     0 < n → is_Some (window_of n flags opt) →
     kind_of flags = Some kLP ∨ kind_of flags = Some kBP →
     ∃ w', design_fir n (Some w) fc flags opt = Some (0, Some w')).
Proof.
  intros Hn Hle Hfc. split; intros flags.
  - intros Heven Hk.
    destruct (design_fir_returns n w fc flags opt Hn Hle Hfc) as (w' & Hrun & _).
    exists w'. rewrite Hrun. do 2 f_equal.
    assert (fir_o n = 0) as Ho.
    { unfold fir_o. rewrite land_1_odd, <- Z.negb_even, Heven. done. }
    unfold design_fir_code. repeat (destruct (decide _); [done|]).
    exfalso. destruct Hk as [Hk|Hk]; apply kind_of_stages in Hk as [[H1 H2]|[H1 H2]].
    + tauto.
    + by apply second_stage_kind in H2 as [|].
    + by apply first_stage_kind in H1 as [|].
    + tauto.
  - intros Hpos [env Henv] Hk.
    destruct (design_fir_returns n w fc flags opt Hn Hle Hfc) as (w' & Hrun & _).
    exists w'. rewrite Hrun. do 2 f_equal.
    unfold design_fir_code. rewrite decide_False by lia.
    rewrite decide_False by congruence.
    destruct Hk as [Hk|Hk]; apply kind_of_stages in Hk as [[H1 H2]|[H1 H2]];
      rewrite H1, H2.
    + by rewrite !decide_False by (intros [? ?]; done).
    + by apply second_stage_kind in H2 as [|].
    + by apply first_stage_kind in H1 as [|].
    + by rewrite !decide_False by (intros [? ?]; done).
Qed.

Lemma load_envelope {A : Type} (env : Z → A) (n : Z) (rest : list A) (i : Z) :
  0 ≤ i < n → load ((env <$> seqZ 0 n) ++ rest) i = Some (env i).
Proof.
  intros Hi. unfold load. rewrite decide_True by lia.
  rewrite lookup_app_l by (rewrite length_fmap, length_seqZ; lia).
  rewrite list_lookup_fmap, lookup_seqZ_lt by lia. cbn. f_equal. f_equal. lia.
Qed.

(** C10: a high-pass or band-stop request with an even length [n] and a
    valid window selector returns -1 with the buffer already changed: its
    first [n] cells hold the window envelope, the rest is as the caller
    left it. *)
Theorem design_fir_failure_overwrites {FT : FType} {LM : Libm FT}
    {FH : FilterH} {WG : WindowGen FT} (n : Z) (w : list ftype_t)
    (fc : list ftype_t) (flags : Z) (opt : ftype_t) (env : Z → ftype_t) :
  0 < n ≤ UINT_MAX → Z.even n = true →
  window_of n flags opt = Some env →
  kind_of flags = Some kHP ∨ kind_of flags = Some kBS →
  n ≤ Z.of_nat (length w) → (2 ≤ length fc)%nat →
  design_fir n (Some w) fc flags opt
  = Some (-1, Some ((env <$> seqZ 0 n) ++ drop (Z.to_nat n) w)) ∧
  ∀ i, 0 ≤ i < n →
       load ((env <$> seqZ 0 n) ++ drop (Z.to_nat n) w) i = Some (env i).
Proof.
  intros Hn Heven Henv Hk Hle Hfc. split; [|intros i Hi; by apply load_envelope].
  assert (fir_o n = 0) as Ho.
  { unfold fir_o. rewrite land_1_odd, <- Z.negb_even, Heven. done. }
  assert (n < UINT_MAX) as Hlt.
  { destruct (decide (n = UINT_MAX)) as [->|]; [done|lia]. }
  unfold design_fir. rewrite decide_False by lia.
  unfold fir_taps. rewrite Henv. rewrite fill_window_Some by lia. cbn.
  set (w1 := (env <$> seqZ 0 n) ++ drop (Z.to_nat n) w).
  assert (length w1 = length w) as Hl1.
  { unfold w1. rewrite length_app, length_fmap, length_seqZ, length_drop. lia. }
  set (s0 := FirState w1 _ _).
  pose proof (lp_hp_stage_total n (f0_5 * f_of_Z (u32 (1 - fir_o n)))%fp
                fc flags s0 ltac:(lia) ltac:(cbn; lia) ltac:(lia)) as H1.
  pose proof (bp_bs_stage_total n (f0_5 * f_of_Z (u32 (1 - fir_o n)))%fp
                fc flags s0 ltac:(lia) ltac:(cbn; lia) Hfc) as H2.
  destruct Hk as [Hk|Hk]; apply kind_of_stages in Hk as [[Hs1 Hs2]|[Hs1 Hs2]].
  - rewrite decide_True in H1 by done. rewrite H1. done.
  - by apply second_stage_kind in Hs2 as [|].
  - by apply first_stage_kind in Hs1 as [|].
  - rewrite decide_True in H2 by done.
    assert (lp_hp_stage n (fir_o n) (fir_end n)
              (f0_5 * f_of_Z (u32 (1 - fir_o n)))%fp fc flags s0
            = Some (Next s0)) as ->.
    { unfold lp_hp_stage. apply first_stage_None in Hs1.
      by rewrite decide_False. }
    cbn. rewrite H2. done.
Qed.

(** C2, as the code has it: [design_fir] has no test of the gain.  Once
    the taps are synthesized with gain [g], whatever [g] is, zero
    included, it computes [1/g], multiplies each of the [n] taps by it and
    returns 0. *)
Theorem design_fir_always_normalizes {FT : FType} {LM : Libm FT}
    {FH : FilterH} {WG : WindowGen FT} (n : Z) (w : list ftype_t)
    (fc : list ftype_t) (flags : Z) (opt : ftype_t) (s : fir_state) :
  0 < n ≤ UINT_MAX →
  fir_taps n w fc flags opt = Some (Next s) →
  ∃ w',
    design_fir n (Some w) fc flags opt = Some (0, Some w') ∧
    ∀ i, 0 ≤ i < n →
         ∃ x, load (st_w s) i = Some x ∧
              load w' i = Some (x * (f_of_Z 1 / st_g s))%fp.
Proof.
  intros Hn Ht. unfold design_fir. rewrite decide_False by lia. rewrite Ht. cbn.
  apply fir_taps_Next in Ht as (Hle & Hlen & _); [|done].
  unfold normalize.
  destruct (norm_loop_total (Z.to_nat n) (f_of_Z 1 / st_g s)%fp 0 (st_w s))
    as [w' Hnorm]; [lia|lia|].
  rewrite Hnorm. cbn. exists w'. split; [done|].
  apply norm_loop_spec in Hnorm as [_ Hp]; [|done].
  intros i Hi. destruct (load_is_Some (st_w s) i) as [x Hx]; [lia|].
  exists x. split; [done|]. rewrite Hp, decide_True by lia. by rewrite Hx.
Qed.

Section CutoffFacts.
Context {FT : FType} {LM : Libm FT} {FH : FilterH} {WG : WindowGen FT}.

Lemma lp_hp_stage_cutoff n o end_ k2 fc1 fc2 fc1' fc2' flags s :
  cutoff fc1' = cutoff fc1 →
  lp_hp_stage n o end_ k2 [fc1'; fc2'] flags s
  = lp_hp_stage n o end_ k2 [fc1; fc2] flags s.
Proof. intros H1. unfold lp_hp_stage. buf_simpl. by rewrite H1. Qed.

Lemma bp_bs_stage_cutoff n o end_ k2 fc1 fc2 fc1' fc2' flags s :
  cutoff fc1' = cutoff fc1 → cutoff fc2' = cutoff fc2 →
  bp_bs_stage n o end_ k2 [fc1'; fc2'] flags s
  = bp_bs_stage n o end_ k2 [fc1; fc2] flags s.
Proof. intros H1 H2. unfold bp_bs_stage. buf_simpl. by rewrite H1, H2. Qed.

Lemma design_fir_cutoff n w fc1 fc2 fc1' fc2' flags opt :
  cutoff fc1' = cutoff fc1 → cutoff fc2' = cutoff fc2 →
  design_fir n w [fc1'; fc2'] flags opt = design_fir n w [fc1; fc2] flags opt.
Proof.
  intros H1 H2. unfold design_fir. destruct w as [w|]; [|done].
  destruct (decide (n = 0)); [done|]. unfold fir_taps.
  destruct (window_of n flags opt) as [env|]; [|done].
  destruct (fill_window env n w) as [w1|]; [|done]. cbn.
  rewrite (lp_hp_stage_cutoff _ _ _ _ fc1 fc2 fc1' fc2') by done.
  destruct (lp_hp_stage _ _ _ _ _ _ _) as [[c wx|s1]|]; [done| |done]. cbn.
  by rewrite (bp_bs_stage_cutoff _ _ _ _ fc1 fc2 fc1' fc2') by done.
Qed.
End CutoffFacts.

(** ** FIR design: the loop behind a low-pass and a high-pass design *)

Section DesignShape.
Context {FT : FType} {LM : Libm FT} {FH : FilterH} {WG : WindowGen FT}.


End DesignShape.

(** ** FIR design: the loop of each kind, on the envelope *)

Section DesignShape2.
Context {FT : FType} {LM : Libm FT} {FH : FilterH} {WG : WindowGen FT}.

(** A band-stop design has an odd length and runs the band-stop loop
    once, from the centre tap as gain. *)
Lemma fir_taps_bs n w fc flags opt s :
  kind_of flags = Some kBS →
  fir_taps n w fc flags opt = Some (Next s) →
  fir_o n ≠ 0 ∧
  ∃ wc g0 k1 k3,
    taps_loop (bs_body k1 k3) (Z.to_nat (fir_end n)) n (fir_end n) 0 wc g0
    = Some (st_w s, st_g s) ∧
    load wc (fir_end n) = Some g0.
Proof.
  intros Hk. apply kind_of_stages in Hk as [[H1 H2]|[H1 H2]];
    [by apply first_stage_kind in H1 as [|]|].
  unfold fir_taps.
  destruct (window_of n flags opt) as [env|]; [|done].
  destruct (fill_window env n w) as [w1|]; [|done]. cbn.
  unfold lp_hp_stage. apply first_stage_None in H1.
  rewrite decide_False by done.
  unfold bp_bs_stage. unfold second_stage in H2.
  destruct (decide (Z.land flags (Z.lor BP BS) ≠ 0)); [|done].
  destruct (decide (Z.land flags BP ≠ 0)); [done|].
  destruct (load fc 0) as [fc1|]; [|done]. cbn.
  destruct (load fc 1) as [fc2|]; [|done]. cbn.
  destruct (decide (fir_o n = 0)) as [Ho|Ho]; [done|].
  destruct (load w1 (fir_end n)) as [we|]; [|done]. cbn.
  destruct (store w1 (fir_end n) _) as [wc|] eqn:Hc; [|done]. cbn.
  destruct (taps_loop _ _ _ _ _ _ _) as [[w2 g2]|] eqn:Hl; [|done]. cbn.
  intros [= <-]. cbn. split; [done|].
  eexists wc, _, _, _. split; [exact Hl|]. apply (load_store_eq _ _ _ _ Hc).
Qed.

(** A low-pass design, with the envelope and the cutoff it starts from:
    the loop runs on the envelope, with the centre tap, when there is
    one, set to [fc1 * w[end] * 2.0] and taken as the initial gain. *)
Lemma fir_taps_lp_env n w fc flags opt env s :
  0 < n < UINT_MAX →
  kind_of flags = Some kLP →
  window_of n flags opt = Some env →
  fir_taps n w fc flags opt = Some (Next s) →
  ∃ fc0 wc g0,
    load fc 0 = Some fc0 ∧
    taps_loop (lp_body (f_of_Z 2 * M_PI * cutoff fc0)
                       (f0_5 * f_of_Z (u32 (1 - fir_o n))))%fp
      (Z.to_nat (fir_end n)) n (fir_end n) 0 wc g0
    = Some (st_w s, st_g s) ∧
    (∀ p, 0 ≤ p < fir_end n → load wc p = Some (env p)) ∧
    if decide (fir_o n ≠ 0)
    then g0 = (cutoff fc0 * env (fir_end n) * f_of_Z 2)%fp ∧
         load wc (fir_end n) = Some g0
    else g0 = f_of_Z 0.
Proof.
  intros Hn Hk Henv. apply kind_of_stages in Hk as [[H1 H2]|[H1 H2]];
    [|by apply second_stage_kind in H2 as [|]].
  destruct (end_cases n ltac:(lia)) as [[_ He]|[? _]]; [|lia].
  assert (0 ≤ fir_end n < n) as Hlt by (rewrite He; Z.div_mod_to_equations; lia).
  unfold fir_taps. rewrite Henv.
  destruct (fill_window env n w) as [w1|] eqn:Hfill; [|done]. cbn.
  apply fill_window_inv in Hfill as (Hle & Hl1 & Hw1); [|lia].
  assert (∀ p, 0 ≤ p < n → load w1 p = Some (env p)) as Hload.
  { intros p Hp. subst w1. by apply load_envelope. }
  unfold lp_hp_stage. unfold first_stage in H1.
  destruct (decide (Z.land flags (Z.lor LP HP) ≠ 0)); [|done].
  destruct (decide (Z.land flags LP ≠ 0)); [|done].
  destruct (load fc 0) as [fc1|]; [|done]. cbn.
  assert (∀ k2 s1, bp_bs_stage n (fir_o n) (fir_end n) k2 fc flags s1
                   = Some (Next s1)) as Hskip.
  { intros k2 s1. unfold bp_bs_stage. apply second_stage_None in H2.
    by rewrite decide_False. }
  destruct (decide (fir_o n ≠ 0)) as [Ho|Ho].
  - rewrite Hload by lia. cbn.
    destruct (store w1 (fir_end n) _) as [wc|] eqn:Hc; [|done]. cbn.
    destruct (taps_loop _ _ _ _ _ _ _) as [[w2 g2]|] eqn:Hl; [|done]. cbn.
    rewrite Hskip. intros [= <-]. cbn.
    eexists fc1, wc, _. split; [done|]. split; [exact Hl|]. split.
    + intros p Hp. rewrite (load_store_ne _ _ _ _ _ Hc) by lia.
      apply Hload. lia.
    + split; [done|]. apply (load_store_eq _ _ _ _ Hc).
  - cbn. destruct (taps_loop _ _ _ _ _ _ _) as [[w2 g2]|] eqn:Hl; [|done]. cbn.
    rewrite Hskip. intros [= <-]. cbn.
    eexists fc1, w1, _. split; [done|]. split; [exact Hl|]. split; [|done].
    intros p Hp. apply Hload. lia.
Qed.

(** A high-pass design, with the envelope and the cutoff it starts from:
    the centre tap is [1.0 - fc1 * w[end] * 2.0], also the initial
    gain. *)
Lemma fir_taps_hp_env n w fc flags opt env s :
  0 < n < UINT_MAX →
  kind_of flags = Some kHP →
  window_of n flags opt = Some env →
  fir_taps n w fc flags opt = Some (Next s) →
  fir_o n ≠ 0 ∧
  ∃ fc0 wc,
    load fc 0 = Some fc0 ∧
    taps_loop (hp_body (f_of_Z 2 * M_PI * cutoff fc0)%fp)
      (Z.to_nat (fir_end n)) n (fir_end n) 0 wc
      (f_of_Z 1 - cutoff fc0 * env (fir_end n) * f_of_Z 2)%fp
    = Some (st_w s, st_g s) ∧
    (∀ p, 0 ≤ p < fir_end n → load wc p = Some (env p)) ∧
    load wc (fir_end n)
    = Some (f_of_Z 1 - cutoff fc0 * env (fir_end n) * f_of_Z 2)%fp.
Proof.
  intros Hn Hk Henv. apply kind_of_stages in Hk as [[H1 H2]|[H1 H2]];
    [|by apply second_stage_kind in H2 as [|]].
  destruct (end_cases n ltac:(lia)) as [[_ He]|[? _]]; [|lia].
  assert (0 ≤ fir_end n < n) as Hlt
    by (rewrite He; Z.div_mod_to_equations; lia).
  unfold fir_taps. rewrite Henv.
  destruct (fill_window env n w) as [w1|] eqn:Hfill; [|done]. cbn.
  apply fill_window_inv in Hfill as (Hle & Hl1 & Hw1); [|lia].
  assert (∀ p, 0 ≤ p < n → load w1 p = Some (env p)) as Hload.
  { intros p Hp. subst w1. by apply load_envelope. }
  unfold lp_hp_stage. unfold first_stage in H1.
  destruct (decide (Z.land flags (Z.lor LP HP) ≠ 0)); [|done].
  destruct (decide (Z.land flags LP ≠ 0)); [done|].
  destruct (load fc 0) as [fc1|]; [|done]. cbn.
  assert (∀ k2 s1, bp_bs_stage n (fir_o n) (fir_end n) k2 fc flags s1
                   = Some (Next s1)) as Hskip.
  { intros k2 s1. unfold bp_bs_stage. apply second_stage_None in H2.
    by rewrite decide_False. }
  destruct (decide (fir_o n = 0)) as [Ho|Ho]; [done|].
  rewrite Hload by lia. cbn.
  destruct (store w1 (fir_end n) _) as [wc|] eqn:Hc; [|done]. cbn.
  destruct (taps_loop _ _ _ _ _ _ _) as [[w2 g2]|] eqn:Hl; [|done]. cbn.
  rewrite Hskip. intros [= <-]. cbn. split; [done|].
  eexists fc1, wc. split; [done|]. split; [exact Hl|]. split.
  - intros p Hp. rewrite (load_store_ne _ _ _ _ _ Hc) by lia.
    apply Hload. lia.
  - apply (load_store_eq _ _ _ _ Hc).
Qed.

(** A band-pass design, with the envelope and the two cutoffs it starts
    from: the centre tap of an odd length is
    [(fc2 - fc1) * w[end] * 2.0], the initial gain [w[end] * (fc1 + fc2)]. *)
Lemma fir_taps_bp_env n w fc flags opt env s :
  0 < n < UINT_MAX →
  kind_of flags = Some kBP →
  window_of n flags opt = Some env →
  fir_taps n w fc flags opt = Some (Next s) →
  ∃ fc0 fc1 wc g0,
    load fc 0 = Some fc0 ∧ load fc 1 = Some fc1 ∧
    taps_loop (bp_body (f_of_Z 2 * M_PI * cutoff fc0)
                       (f0_5 * f_of_Z (u32 (1 - fir_o n)))
                       (f_of_Z 2 * M_PI * cutoff fc1))%fp
      (Z.to_nat (fir_end n)) n (fir_end n) 0 wc g0
    = Some (st_w s, st_g s) ∧
    (∀ p, 0 ≤ p < fir_end n → load wc p = Some (env p)) ∧
    if decide (fir_o n ≠ 0)
    then g0 = (env (fir_end n) * (cutoff fc0 + cutoff fc1))%fp ∧
         load wc (fir_end n)
         = Some ((cutoff fc1 - cutoff fc0) * env (fir_end n) * f_of_Z 2)%fp
    else g0 = f_of_Z 0.
Proof.
  intros Hn Hk Henv. apply kind_of_stages in Hk as [[H1 H2]|[H1 H2]];
    [by apply first_stage_kind in H1 as [|]|].
  destruct (end_cases n ltac:(lia)) as [[_ He]|[? _]]; [|lia].
  assert (0 ≤ fir_end n < n) as Hlt
    by (rewrite He; Z.div_mod_to_equations; lia).
  unfold fir_taps. rewrite Henv.
  destruct (fill_window env n w) as [w1|] eqn:Hfill; [|done]. cbn.
  apply fill_window_inv in Hfill as (Hle & Hl1 & Hw1); [|lia].
  assert (∀ p, 0 ≤ p < n → load w1 p = Some (env p)) as Hload.
  { intros p Hp. subst w1. by apply load_envelope. }
  unfold lp_hp_stage. apply first_stage_None in H1.
  rewrite decide_False by done.
  unfold bp_bs_stage. unfold second_stage in H2.
  destruct (decide (Z.land flags (Z.lor BP BS) ≠ 0)); [|done].
  destruct (decide (Z.land flags BP ≠ 0)); [|done].
  destruct (load fc 0) as [fc1|]; [|done]. cbn.
  destruct (load fc 1) as [fc2|]; [|done]. cbn.
  destruct (decide (fir_o n ≠ 0)) as [Ho|Ho].
  - rewrite Hload by lia. cbn.
    destruct (store w1 (fir_end n) _) as [wc|] eqn:Hc; [|done]. cbn.
    destruct (taps_loop _ _ _ _ _ _ _) as [[w2 g2]|] eqn:Hl; [|done]. cbn.
    intros [= <-]. cbn.
    eexists fc1, fc2, wc, _. split; [done|]. split; [done|].
    split; [exact Hl|]. split.
    + intros p Hp. rewrite (load_store_ne _ _ _ _ _ Hc) by lia.
      apply Hload. lia.
    + split; [done|]. apply (load_store_eq _ _ _ _ Hc).
  - cbn. destruct (taps_loop _ _ _ _ _ _ _) as [[w2 g2]|] eqn:Hl; [|done]. cbn.
    intros [= <-]. cbn.
    eexists fc1, fc2, w1, _. split; [done|]. split; [done|].
    split; [exact Hl|]. split; [|done].
    intros p Hp. apply Hload. lia.
Qed.

(** A band-stop design, with the envelope and the two cutoffs it starts
    from: the centre tap is [1.0 - (fc2 - fc1) * w[end] * 2.0], also the
    initial gain. *)
Lemma fir_taps_bs_env n w fc flags opt env s :
  0 < n < UINT_MAX →
  kind_of flags = Some kBS →
  window_of n flags opt = Some env →
  fir_taps n w fc flags opt = Some (Next s) →
  fir_o n ≠ 0 ∧
  ∃ fc0 fc1 wc,
    load fc 0 = Some fc0 ∧ load fc 1 = Some fc1 ∧
    taps_loop (bs_body (f_of_Z 2 * M_PI * cutoff fc0)
                       (f_of_Z 2 * M_PI * cutoff fc1))%fp
      (Z.to_nat (fir_end n)) n (fir_end n) 0 wc
      (f_of_Z 1 - (cutoff fc1 - cutoff fc0) * env (fir_end n) * f_of_Z 2)%fp
    = Some (st_w s, st_g s) ∧
    (∀ p, 0 ≤ p < fir_end n → load wc p = Some (env p)) ∧
    load wc (fir_end n)
    = Some (f_of_Z 1 - (cutoff fc1 - cutoff fc0) * env (fir_end n) * f_of_Z 2)%fp.
Proof.
  intros Hn Hk Henv. apply kind_of_stages in Hk as [[H1 H2]|[H1 H2]];
    [by apply first_stage_kind in H1 as [|]|].
  destruct (end_cases n ltac:(lia)) as [[_ He]|[? _]]; [|lia].
  assert (0 ≤ fir_end n < n) as Hlt
    by (rewrite He; Z.div_mod_to_equations; lia).
  unfold fir_taps. rewrite Henv.
  destruct (fill_window env n w) as [w1|] eqn:Hfill; [|done]. cbn.
  apply fill_window_inv in Hfill as (Hle & Hl1 & Hw1); [|lia].
  assert (∀ p, 0 ≤ p < n → load w1 p = Some (env p)) as Hload.
  { intros p Hp. subst w1. by apply load_envelope. }
  unfold lp_hp_stage. apply first_stage_None in H1.
  rewrite decide_False by done.
  unfold bp_bs_stage. unfold second_stage in H2.
  destruct (decide (Z.land flags (Z.lor BP BS) ≠ 0)); [|done].
  destruct (decide (Z.land flags BP ≠ 0)); [done|].
  destruct (load fc 0) as [fc1|]; [|done]. cbn.
  destruct (load fc 1) as [fc2|]; [|done]. cbn.
  destruct (decide (fir_o n = 0)) as [Ho|Ho]; [done|].
  rewrite Hload by lia. cbn.
  destruct (store w1 (fir_end n) _) as [wc|] eqn:Hc; [|done]. cbn.
  destruct (taps_loop _ _ _ _ _ _ _) as [[w2 g2]|] eqn:Hl; [|done]. cbn.
  intros [= <-]. cbn. split; [done|].
  eexists fc1, fc2, wc. split; [done|]. split; [done|].
  split; [exact Hl|]. split.
  - intros p Hp. rewrite (load_store_ne _ _ _ _ _ Hc) by lia.
    apply Hload. lia.
  - apply (load_store_eq _ _ _ _ Hc).
Qed.
End DesignShape2.

(** ** FIR design: the cutoffs a design is synthesized from *)

Section CutoffUse.
Context {FT : FType} {LM : Libm FT} {FH : FilterH} {WG : WindowGen FT}.
Implicit Types (w : list ftype_t) (g : ftype_t)
  (body : Z → ftype_t → ftype_t → ftype_t * ftype_t).

(** The tap loop on an envelope, when the two halves do not overlap and
    the tap a body stores does not depend on the gain: iteration [j]
    leaves the tap of [env (end-1-j)] in both cells and takes the gain
    through the body. *)
Lemma taps_loop_env body (env : Z → ftype_t) (n e : Z) (f : nat) :
  (∀ i wi g g', (body i wi g).1 = (body i wi g').1) →
  2 * e ≤ n ≤ UINT_MAX →
  ∀ i w g w' g',
    0 ≤ i → i + Z.of_nat f ≤ e →
    (∀ j, i ≤ j < i + Z.of_nat f → load w (e - 1 - j) = Some (env (e - 1 - j))) →
    taps_loop body f n e i w g = Some (w', g') →
    (∀ j gx, i ≤ j < i + Z.of_nat f →
       load w' (e - 1 - j) = Some (body j (env (e - 1 - j)) gx).1 ∧
       load w' (n - e + j) = Some (body j (env (e - 1 - j)) gx).1) ∧
    (∀ p, (∀ j, i ≤ j < i + Z.of_nat f → p ≠ e - 1 - j ∧ p ≠ n - e + j) →
          load w' p = load w p) ∧
    g' = foldl (λ g j, (body j (env (e - 1 - j)) g).2) g (seqZ i (Z.of_nat f)).
Proof.
  intros Hbody Hn. induction f as [|f IH]; intros i w g w' g' Hi Hf Henv Hrun.
  - cbn in Hrun. injection Hrun as <- <-.
    split; [intros; lia|]. split; [done|]. done.
  - rewrite Nat2Z.inj_succ in *. cbn [taps_loop] in Hrun.
    rewrite (lo_index n), (hi_index n) in Hrun by lia.
    rewrite (Henv i) in Hrun by lia. cbn in Hrun.
    destruct (body i (env (e - 1 - i)) g) as [tap g1] eqn:Hb.
    destruct (store w _ _) as [w1|] eqn:H1; [|done]. cbn in Hrun.
    destruct (store w1 _ _) as [w2|] eqn:H2; [|done]. cbn in Hrun.
    assert (∀ p, p ≠ e - 1 - i → p ≠ n - e + i → load w2 p = load w p) as H12.
    { intros p Hp1 Hp2. rewrite (load_store_ne _ _ _ _ _ H2) by lia.
      by rewrite (load_store_ne _ _ _ _ _ H1) by lia. }
    destruct (IH (i + 1) w2 g1 w' g' ltac:(lia) ltac:(lia)) as (Hv & Hfr & Hg);
      [|exact Hrun|].
    { intros j Hj. rewrite H12 by lia. apply Henv. lia. }
    split; [|split].
    + intros j gx Hj. destruct (decide (j = i)) as [->|Hne].
      * rewrite !Hfr by (intros j' Hj'; lia).
        rewrite (load_store_eq _ _ _ _ H2).
        rewrite (load_store_ne _ _ _ _ _ H2) by lia.
        rewrite (load_store_eq _ _ _ _ H1).
        rewrite (Hbody i _ gx g), Hb. done.
      * apply Hv. lia.
    + intros p Hp. rewrite Hfr by (intros j Hj; apply Hp; lia).
      destruct (Hp i ltac:(lia)). by apply H12.
    + rewrite Hg, (seqZ_cons i) by lia. cbn [foldl]. rewrite Hb. cbn.
      by rewrite Z.pred_succ.
Qed.

(** The loop on an envelope followed by the scaling. *)
Lemma design_taps_env body (n : Z) (wc : list ftype_t) (g0 : ftype_t)
    (env : Z → ftype_t) (s : fir_state) (w' : list ftype_t) :
  (∀ i wi g g', (body i wi g).1 = (body i wi g').1) →
  0 < n < UINT_MAX →
  taps_loop body (Z.to_nat (fir_end n)) n (fir_end n) 0 wc g0
  = Some (st_w s, st_g s) →
  (∀ p, 0 ≤ p < fir_end n → load wc p = Some (env p)) →
  normalize n s = Some w' →
  n ≤ Z.of_nat (length (st_w s)) →
  st_g s = foldl (λ g j, (body j (env (fir_end n - 1 - j)) g).2) g0
                 (seqZ 0 (fir_end n)) ∧
  (∀ j gx, 0 ≤ j < fir_end n →
     load w' (fir_end n - 1 - j)
     = Some ((body j (env (fir_end n - 1 - j)%Z) gx).1 * (f_of_Z 1 / st_g s))%fp ∧
     load w' (n - fir_end n + j)
     = Some ((body j (env (fir_end n - 1 - j)%Z) gx).1 * (f_of_Z 1 / st_g s))%fp) ∧
  (fir_o n ≠ 0 →
   ∀ c, load wc (fir_end n) = Some c →
        load w' (fir_end n) = Some (c * (f_of_Z 1 / st_g s))%fp).
Proof.
  intros Hbody Hn Hloop Hwc Hnorm Hlen.
  destruct (end_cases n ltac:(lia)) as [[_ He]|[? _]]; [|lia].
  assert (0 ≤ fir_end n ∧ 2 * fir_end n ≤ n ∧ fir_end n < n) as Hend
    by (rewrite He; Z.div_mod_to_equations; lia).
  destruct (taps_loop_env body env n (fir_end n) (Z.to_nat (fir_end n))
              Hbody ltac:(unfold UINT_MAX in *; lia) 0 wc g0 _ _
              ltac:(lia) ltac:(lia)
              ltac:(intros j Hj; apply Hwc; lia) Hloop) as (Hv & Hfr & Hgs).
  rewrite Z2Nat.id in Hv, Hfr, Hgs by lia.
  unfold normalize in Hnorm.
  apply norm_loop_spec in Hnorm as [_ Hp]; [|done].
  assert (∀ i x, 0 ≤ i < n → load (st_w s) i = Some x →
                 load w' i = Some (x * (f_of_Z 1 / st_g s))%fp) as Hw'.
  { intros i x Hi Hx. rewrite Hp, decide_True by lia. by rewrite Hx. }
  split; [done|]. split.
  - intros j gx Hj. destruct (Hv j gx ltac:(lia)) as [Ha Hb].
    split; apply Hw'; (lia || done).
  - intros Ho c Hc. apply Hw'; [lia|].
    assert (2 * fir_end n < n) as Hodd.
    { assert (n mod 2 = 1) as Hmod.
      { rewrite Zmod_odd. unfold fir_o in Ho. rewrite land_1_odd in Ho.
        by destruct (Z.odd n). }
      rewrite He. Z.div_mod_to_equations. lia. }
    rewrite Hfr by (intros j Hj; lia). done.
Qed.

Lemma cutoff_in_range (fc : ftype_t) :
  fle fc (f_of_Z 1) = true → flt (f_of_Z 0) fc = true →
  cutoff fc = (fc / f_of_Z 2)%fp.
Proof. unfold cutoff. by intros -> ->. Qed.

Lemma cutoff_out_of_range (fc : ftype_t) :
  fle fc (f_of_Z 1) = false ∨ flt (f_of_Z 0) fc = false → cutoff fc = f0_25.
Proof. unfold cutoff. intros [-> | ->]; [done|]. by rewrite andb_false_r. Qed.

(** The effective cutoff, from the two cases of the range test. *)
Lemma cutoff_cases (fc c : ftype_t) :
  (fle fc (f_of_Z 1) = true → flt (f_of_Z 0) fc = true → c = (fc / f_of_Z 2)%fp) →
  (fle fc (f_of_Z 1) = false ∨ flt (f_of_Z 0) fc = false → c = f0_25) →
  c = cutoff fc.
Proof.
  intros Hin Hout. unfold cutoff.
  destruct (fle fc (f_of_Z 1)) eqn:H1, (flt (f_of_Z 0) fc) eqn:H2; cbn;
    auto.
Qed.

Lemma design_fir_code_0 n flags opt kd env :
  0 < n → kind_of flags = Some kd → window_of n flags opt = Some env →
  (kd = kHP ∨ kd = kBS → fir_o n ≠ 0) →
  design_fir_code n flags opt = 0.
Proof.
  intros Hn Hk Henv Hpar. unfold design_fir_code.
  rewrite decide_False by lia. rewrite decide_False by (by rewrite Henv).
  apply kind_of_stages in Hk.
  rewrite decide_False; [rewrite decide_False; [done|]|].
  - intros [H2 Ho]. destruct Hk as [[_ H]|[_ H]]; [congruence|].
    apply Hpar; [|done]. right. congruence.
  - intros [H1 Ho]. destruct Hk as [[H _]|[H _]]; [|congruence].
    apply Hpar; [|done]. left. congruence.
Qed.

Lemma body_tap_lp k1 k2 i wi g g' :
  (lp_body k1 k2 i wi g).1 = (lp_body k1 k2 i wi g').1.
Proof. done. Qed.
Lemma body_tap_hp k1 i wi g g' :
  (hp_body k1 i wi g).1 = (hp_body k1 i wi g').1.
Proof. done. Qed.
Lemma body_tap_bp k1 k2 k3 i wi g g' :
  (bp_body k1 k2 k3 i wi g).1 = (bp_body k1 k2 k3 i wi g').1.
Proof. done. Qed.
Lemma body_tap_bs k1 k3 i wi g g' :
  (bs_body k1 k3 i wi g).1 = (bs_body k1 k3 i wi g').1.
Proof. done. Qed.
End CutoffUse.

(** C6: the range test [(fc <= 1.0) && (fc > 0.0)] never makes
    [design_fir] fail.  A cutoff that fails it is replaced by the
    effective cutoff 0.25, a cutoff that passes it is halved, and
    [design_fir] depends on its cutoffs through these effective values
    only.  A request of one kind that passes the length and parity tests
    is synthesized from them: with [c1] and [c2] the effective values of
    [fc[0]] and [fc[1]], the loop of the kind runs with [k1 = 2 pi c1] and
    [k3 = 2 pi c2] on the envelope [env]; tap [end-1-j] and its mirror
    image [n-end+j] hold the tap the loop body stores for [env (end-1-j)]
    (it does not depend on the gain [gx] the body is given), the centre
    tap of an odd length holds the centre value of the kind, and all of
    them are multiplied by [1/g], where [g] is the gain the loop
    accumulates from [g0].  The value returned on valid buffers,
    [design_fir_code], is the same whatever the cutoffs: it is still -1
    for [n = 0] and on the parity test of a high-pass or a band-stop
    request. *)
Theorem design_fir_cutoff_clamp {FT : FType} {LM : Libm FT} {FH : FilterH}
    {WG : WindowGen FT} (n : Z) (w : list ftype_t) (fc1 fc2 : ftype_t)
    (flags : Z) (opt : ftype_t) :
  0 ≤ n < UINT_MAX → n ≤ Z.of_nat (length w) →
  (fle fc1 (f_of_Z 1) = false ∨ flt (f_of_Z 0) fc1 = false → cutoff fc1 = f0_25) ∧
  (fle fc1 (f_of_Z 1) = true → flt (f_of_Z 0) fc1 = true →
   cutoff fc1 = (fc1 / f_of_Z 2)%fp) ∧
  (∀ fc1' fc2', cutoff fc1' = cutoff fc1 → cutoff fc2' = cutoff fc2 →
     design_fir n (Some w) [fc1'; fc2'] flags opt
     = design_fir n (Some w) [fc1; fc2] flags opt) ∧
  (∃ w', design_fir n (Some w) [fc1; fc2] flags opt
         = Some (design_fir_code n flags opt, Some w')) ∧
  (n = 0 → design_fir_code n flags opt = -1) ∧
  (first_stage flags = Some kHP ∨ second_stage flags = Some kBS →
   Z.even n = true → design_fir_code n flags opt = -1) ∧
  (∀ (kd : kind) (env : Z → ftype_t) (c1 c2 : ftype_t),
     0 < n → kind_of flags = Some kd → window_of n flags opt = Some env →
     (kd = kHP ∨ kd = kBS → fir_o n ≠ 0) →
     (fle fc1 (f_of_Z 1) = true → flt (f_of_Z 0) fc1 = true →
      c1 = (fc1 / f_of_Z 2)%fp) →
     (fle fc1 (f_of_Z 1) = false ∨ flt (f_of_Z 0) fc1 = false → c1 = f0_25) →
     (fle fc2 (f_of_Z 1) = true → flt (f_of_Z 0) fc2 = true →
      c2 = (fc2 / f_of_Z 2)%fp) →
     (fle fc2 (f_of_Z 1) = false ∨ flt (f_of_Z 0) fc2 = false → c2 = f0_25) →
     ∃ w', design_fir n (Some w) [fc1; fc2] flags opt = Some (0, Some w') ∧
       let e := fir_end n in
       let k1 := (f_of_Z 2 * M_PI * c1)%fp in
       let k2 := (f0_5 * f_of_Z (u32 (1 - fir_o n)))%fp in
       let k3 := (f_of_Z 2 * M_PI * c2)%fp in
       let body :=
         match kd with
         | kLP => lp_body k1 k2
         | kHP => hp_body k1
         | kBP => bp_body k1 k2 k3
         | kBS => bs_body k1 k3
         end in
       let centre :=
         match kd with
         | kLP => (c1 * env e * f_of_Z 2)%fp
         | kHP => (f_of_Z 1 - c1 * env e * f_of_Z 2)%fp
         | kBP => ((c2 - c1) * env e * f_of_Z 2)%fp
         | kBS => (f_of_Z 1 - (c2 - c1) * env e * f_of_Z 2)%fp
         end in
       let g0 :=
         if decide (fir_o n ≠ 0)
         then match kd with kBP => (env e * (c1 + c2))%fp | _ => centre end
         else f_of_Z 0 in
       let g := foldl (λ g j, (body j (env (e - 1 - j)) g).2) g0 (seqZ 0 e) in
       (∀ j gx, 0 ≤ j < e →
          load w' (e - 1 - j)
          = Some ((body j (env (e - 1 - j)%Z) gx).1 * (f_of_Z 1 / g))%fp ∧
          load w' (n - e + j)
          = Some ((body j (env (e - 1 - j)%Z) gx).1 * (f_of_Z 1 / g))%fp) ∧
       (fir_o n ≠ 0 → load w' e = Some (centre * (f_of_Z 1 / g))%fp)).
Proof.
  intros Hn Hle.
  split; [apply cutoff_out_of_range|]. split; [apply cutoff_in_range|].
  split; [intros fc1' fc2'; apply design_fir_cutoff|].
  destruct (design_fir_returns n w [fc1; fc2] flags opt Hn Hle ltac:(cbn; lia))
    as (w' & Hrun & _).
  split; [by exists w'|]. split; [by intros ->|]. split.
  { intros Hk Heven. unfold design_fir_code.
    assert (fir_o n = 0) as Ho.
    { unfold fir_o. rewrite land_1_odd, <- Z.negb_even, Heven. done. }
    repeat (destruct (decide _); [done|]). tauto. }
  intros kd env c1 c2 Hpos Hk Henv Hpar Hin1 Hout1 Hin2 Hout2.
  apply cutoff_cases in Hout1 as ->; [|done].
  apply cutoff_cases in Hout2 as ->; [|done].
  rewrite (design_fir_code_0 n flags opt kd env) in Hrun by done.
  exists w'. split; [done|]. cbn zeta.
  apply design_fir_0 in Hrun as (_ & s & Ht & Hnorm).
  destruct (fir_taps_Next n w [fc1; fc2] flags opt s ltac:(lia) Ht)
    as (_ & Hlen & _).
  destruct kd.
  - destruct (fir_taps_lp_env n w _ flags opt env s ltac:(lia) Hk Henv Ht)
      as (fc0 & wc & g0 & [= <-] & Hloop & Hwc & Hc).
    destruct (design_taps_env _ n wc g0 env s w' (body_tap_lp _ _)
                ltac:(lia) Hloop Hwc Hnorm ltac:(lia)) as (Hg & Hside & Hmid).
    destruct (decide (fir_o n ≠ 0)) as [Ho|Ho].
    + destruct Hc as [-> Hc]. rewrite <- Hg. split; [done|].
      intros _. by apply Hmid.
    + subst g0. rewrite <- Hg. split; [done|]. done.
  - destruct (fir_taps_hp_env n w _ flags opt env s ltac:(lia) Hk Henv Ht)
      as (Ho & fc0 & wc & [= <-] & Hloop & Hwc & Hc).
    destruct (design_taps_env _ n wc _ env s w' (body_tap_hp _)
                ltac:(lia) Hloop Hwc Hnorm ltac:(lia)) as (Hg & Hside & Hmid).
    rewrite decide_True by done. rewrite <- Hg. split; [done|].
    intros _. by apply Hmid.
  - destruct (fir_taps_bp_env n w _ flags opt env s ltac:(lia) Hk Henv Ht)
      as (fc0 & fc0' & wc & g0 & [= <-] & [= <-] & Hloop & Hwc & Hc).
    destruct (design_taps_env _ n wc g0 env s w' (body_tap_bp _ _ _)
                ltac:(lia) Hloop Hwc Hnorm ltac:(lia)) as (Hg & Hside & Hmid).
    destruct (decide (fir_o n ≠ 0)) as [Ho|Ho].
    + destruct Hc as [-> Hc]. rewrite <- Hg. split; [done|].
      intros _. by apply Hmid.
    + subst g0. rewrite <- Hg. split; [done|]. done.
  - destruct (fir_taps_bs_env n w _ flags opt env s ltac:(lia) Hk Henv Ht)
      as (Ho & fc0 & fc0' & wc & [= <-] & [= <-] & Hloop & Hwc & Hc).
    destruct (design_taps_env _ n wc _ env s w' (body_tap_bs _ _)
                ltac:(lia) Hloop Hwc Hnorm ltac:(lia)) as (Hg & Hside & Hmid).
    rewrite decide_True by done. rewrite <- Hg. split; [done|].
    intros _. by apply Hmid.
Qed.

(** ** The gain of the normalized taps, in exact arithmetic *)

Module ExactGain.
Import Reals Lra Exact.

Lemma sumR_ext (f g : nat → R) n :
  (∀ t, (t < n)%nat → f t = g t) → sumR f n = sumR g n.
Proof.
  induction n as [|n IH]; intros H; [done|]. cbn.
  rewrite IH by (intros; apply H; lia). rewrite H by lia. done.
Qed.

Lemma sumR_scal (f : nat → R) (c : R) n :
  sumR (λ t, (f t * c)%R) n = (sumR f n * c)%R.
Proof. induction n as [|n IH]; cbn; [lra|]. rewrite IH. lra. Qed.


Lemma sumR_shift (f : nat → R) n :
  sumR f (S n) = (f O + sumR (λ t, f (S t)) n)%R.
Proof. induction n as [|n IH]; cbn in *; [lra|]. rewrite IH. lra. Qed.

Lemma sumR_app (f : nat → R) a b :
  sumR f (a + b) = (sumR f a + sumR (λ t, f (a + t)%nat) b)%R.
Proof.
  induction b as [|b IH]; cbn.
  - rewrite Nat.add_0_r. lra.
  - replace (a + S b)%nat with (S (a + b)) by lia. cbn. rewrite IH. lra.
Qed.

Lemma sumR_rev (f : nat → R) n :
  sumR (λ t, f (n - 1 - t)%nat) n = sumR f n.
Proof.
  induction n as [|n IH]; [done|].
  rewrite sumR_shift. cbn [sumR]. rewrite <- IH.
  replace (S n - 1 - 0)%nat with n by lia.
  rewrite (sumR_ext (λ t, f (S n - 1 - S t)%nat) (λ t, f (n - 1 - t)%nat))
    by (intros; f_equal; lia).
  lra.
Qed.

Lemma tapZ_load (w : list R) i x : load w i = Some x → tapZ w i = x.
Proof. unfold tapZ. by intros ->. Qed.

(** The tap loop when the two halves do not overlap ([2 * end <= n]) and
    the body adds to the gain: iteration [j] leaves [T j] of the old
    [w[end-1-j]] in both cells and adds [D j] of it to [g]. *)
Lemma taps_loop_exact (T D : Z → R → R)
    (body : Z → R → R → R * R) (n e : Z) (f : nat) :
  (∀ i wi g, body i wi g = (T i wi, (g + D i wi)%R)) →
  2 * e ≤ n ≤ UINT_MAX →
  ∀ i (w : list R) (g : R) (w' : list R) (g' : R),
    0 ≤ i → i + Z.of_nat f ≤ e →
    taps_loop (FT := ftype_R) body f n e i w g = Some (w', g') →
    (∀ j, i ≤ j < i + Z.of_nat f →
          tapZ w' (e - 1 - j) = T j (tapZ w (e - 1 - j)) ∧
          tapZ w' (n - e + j) = T j (tapZ w (e - 1 - j))) ∧
    (∀ p, (∀ j, i ≤ j < i + Z.of_nat f → p ≠ e - 1 - j ∧ p ≠ n - e + j) →
          load w' p = load w p) ∧
    g' = (g + sumR (λ t, D (i + Z.of_nat t)%Z
                           (tapZ w (e - 1 - (i + Z.of_nat t))%Z)) f)%R.
Proof.
  intros Hbody Hn. induction f as [|f IH]; intros i w g w' g' Hi Hf Hrun.
  - cbn in Hrun. injection Hrun as <- <-.
    split; [intros; lia|]. split; [done|]. cbn. lra.
  - rewrite Nat2Z.inj_succ in *. cbn [taps_loop] in Hrun.
    rewrite (lo_index n), (hi_index n) in Hrun by lia.
    change (ftype_t (FType := ftype_R)) with R in Hrun.
    destruct (load w (e - 1 - i)) as [wi|] eqn:Hwi; [|done]. cbn in Hrun.
    rewrite Hbody in Hrun.
    destruct (store w _ _) as [w1|] eqn:H1; [|done]. cbn in Hrun.
    destruct (store w1 _ _) as [w2|] eqn:H2; [|done]. cbn in Hrun.
    destruct (IH (i + 1) w2 _ w' g' ltac:(lia) ltac:(lia) Hrun)
      as (Hv & Hfr & Hg).
    assert (∀ p, p ≠ e - 1 - i → p ≠ n - e + i → load w2 p = load w p) as H12.
    { intros p Hp1 Hp2. rewrite (load_store_ne _ _ _ _ _ H2) by lia.
      by rewrite (load_store_ne _ _ _ _ _ H1) by lia. }
    assert (∀ j, i < j < i + 1 + Z.of_nat f →
                 tapZ w2 (e - 1 - j) = tapZ w (e - 1 - j)) as Hold.
    { intros j Hj. unfold tapZ. rewrite H12 by lia. done. }
    split; [|split].
    + intros j Hj. destruct (decide (j = i)) as [->|Hne].
      * rewrite (tapZ_load _ _ _ Hwi). unfold tapZ.
        rewrite !Hfr by (intros j' Hj'; lia).
        rewrite (load_store_eq _ _ _ _ H2).
        rewrite (load_store_ne _ _ _ _ _ H2) by lia.
        rewrite (load_store_eq _ _ _ _ H1). done.
      * destruct (Hv j ltac:(lia)) as [Ha Hb].
        rewrite Ha, Hb, Hold by lia. done.
    + intros p Hp. rewrite Hfr by (intros j Hj; apply Hp; lia).
      destruct (Hp i ltac:(lia)). by apply H12.
    + rewrite Hg, sumR_shift. rewrite Z.add_0_r, (tapZ_load _ _ _ Hwi).
      rewrite (sumR_ext _ (λ t, D (i + Z.of_nat (S t))
                                  (tapZ w (e - 1 - (i + Z.of_nat (S t)))))).
      * lra.
      * intros t Ht. rewrite Nat2Z.inj_succ.
        replace (i + 1 + Z.of_nat t) with (i + Z.succ (Z.of_nat t)) by lia.
        rewrite Hold by lia. done.
Qed.

(** A weighted sum over taps that are mirrored around an optional centre:
    [h] pairs [(h-1-j, h+m+j)] holding [tau j], and the centre [c] when
    [m = 1]. *)
Lemma mirrored_sum (sigma tau : nat → R) (w : list R) (h m : nat) (c : R) :
  (m ≤ 1)%nat →
  (∀ j, (j < h)%nat →
        tapZ w (Z.of_nat (h - 1 - j)) = tau j ∧
        tapZ w (Z.of_nat (h + m + j)) = tau j) →
  (m = 1%nat → tapZ w (Z.of_nat h) = c) →
  sumR (λ p, sigma p * tapZ w (Z.of_nat p))%R (h + m + h)
  = (sumR (λ j, (sigma (h - 1 - j)%nat + sigma (h + m + j)%nat) * tau j) h
     + (if decide (m = 1%nat) then sigma h * c else 0))%R.
Proof.
  intros Hm Hpair Hc. rewrite !sumR_app.
  assert (sumR (λ p, sigma p * tapZ w (Z.of_nat p))%R h
          = sumR (λ j, sigma (h - 1 - j)%nat * tau j)%R h) as ->.
  { rewrite <- (sumR_rev (λ j, sigma (h - 1 - j)%nat * tau j)%R).
    apply sumR_ext. intros t Ht.
    destruct (Hpair (h - 1 - t)%nat ltac:(lia)) as [Ha _].
    replace (h - 1 - (h - 1 - t))%nat with t in * by lia. by rewrite Ha. }
  assert (sumR (λ t, sigma (h + m + t)%nat * tapZ w (Z.of_nat (h + m + t)))%R h
          = sumR (λ j, sigma (h + m + j)%nat * tau j)%R h) as ->.
  { apply sumR_ext. intros t Ht. destruct (Hpair t Ht) as [_ Hb]. by rewrite Hb. }
  assert (sumR (λ t, sigma (h + t)%nat * tapZ w (Z.of_nat (h + t)))%R m
          = (if decide (m = 1%nat) then sigma h * c else 0)%R) as ->.
  { destruct m as [|[|m]]; [done| |lia]. cbn [sumR].
    rewrite Nat.add_0_r, Hc, decide_True by done. lra. }
  rewrite (sumR_ext (λ j, (sigma (h - 1 - j)%nat + sigma (h + m + j)%nat) * tau j)%R
                    (λ j, sigma (h - 1 - j)%nat * tau j
                          + sigma (h + m + j)%nat * tau j)%R)
    by (intros; lra).
  assert (∀ (f g : nat → R) k,
            sumR (λ j, f j + g j)%R k = (sumR f k + sumR g k)%R) as Hplus.
  { intros f g k. induction k as [|k IH]; cbn; [lra|]. rewrite IH. lra. }
  rewrite Hplus. lra.
Qed.

(** The lengths [h = end], [m = n - 2 end] of a design, as naturals. *)
Lemma halves n :
  0 < n < UINT_MAX →
  ∃ h m : nat,
    fir_end n = Z.of_nat h ∧ Z.to_nat n = (h + m + h)%nat ∧ (m ≤ 1)%nat ∧
    (m = 1%nat ↔ fir_o n ≠ 0).
Proof.
  intros Hn. destruct (end_cases n ltac:(lia)) as [[_ He]|[? _]]; [|lia].
  exists (Z.to_nat (n / 2)), (Z.to_nat (n mod 2)).
  unfold fir_o. rewrite land_1_odd, He. pose proof (Zmod_odd n) as Hodd.
  destruct (Z.odd n); rewrite Hodd;
    (split; [Z.div_mod_to_equations; lia|]);
    (split; [Z.div_mod_to_equations; lia|]); split; try lia; split; try lia; done.
Qed.

(** Scaling the taps scales a weighted sum. *)
Lemma scaled_sum (sigma : nat → R) (ws w' : list R) (q : R) (n : nat) :
  (∀ i, 0 ≤ i < Z.of_nat n → tapZ w' i = (tapZ ws i * q)%R) →
  sumR (λ p, sigma p * tapZ w' (Z.of_nat p))%R n
  = (sumR (λ p, sigma p * tapZ ws (Z.of_nat p))%R n * q)%R.
Proof.
  intros H. rewrite <- sumR_scal. apply sumR_ext. intros t Ht.
  rewrite H by lia. lra.
Qed.

(** What the scaling loop leaves, in terms of taps. *)
Lemma normalize_taps (n : Z) (s : fir_state (FT := ftype_R)) :
  0 ≤ n ≤ Z.of_nat (length (st_w s)) →
  ∃ w' : list R,
    normalize n s = Some w' ∧
    ∀ i, 0 ≤ i < n → tapZ w' i = (tapZ (st_w s) i * (1 / st_g s))%R.
Proof.
  intros Hn. unfold normalize.
  destruct (norm_loop_total (FT := ftype_R) (Z.to_nat n)
              (f_of_Z 1 / st_g s)%fp 0 (st_w s)) as [w' Hnorm]; [lia|lia|].
  exists w'. split; [done|].
  apply norm_loop_spec in Hnorm as [_ Hp]; [|done].
  intros i Hi. destruct (load_is_Some (st_w s) i) as [x Hx]; [lia|].
  specialize (Hp i). rewrite decide_True in Hp by lia. rewrite Hx in Hp.
  unfold tapZ. change (ftype_t (FType := ftype_R)) with R in *.
  rewrite Hp, Hx. done.
Qed.





End ExactGain.

(** ** The design on concrete requests, in exact arithmetic *)

Module DesignExamples.
Import Reals Lra Exact.

#[local] Existing Instances ftype_R libm_R example_flags.
#[local] Existing Instance rect_windows.

Ltac eval_R :=
  cbv -[Rplus Rmult Rminus Rdiv Rinv Ropp PI IZR Rtrigo_def.sin Rtrigo1.tan
        Rle_dec Rlt_dec cutoff].

Ltac eval_R_in H :=
  cbv -[Rplus Rmult Rminus Rdiv Rinv Ropp PI IZR Rtrigo_def.sin Rtrigo1.tan
        Rle_dec Rlt_dec cutoff] in H.

Lemma fle_R_true (x y : R) : (x <= y)%R → fle (FType := ftype_R) x y = true.
Proof. intros H. cbn. destruct (Rle_dec x y); [done|lra]. Qed.

Lemma fle_R_false (x y : R) : (y < x)%R → fle (FType := ftype_R) x y = false.
Proof. intros H. cbn. destruct (Rle_dec x y); [lra|done]. Qed.

Lemma flt_R_true (x y : R) : (x < y)%R → flt (FType := ftype_R) x y = true.
Proof. intros H. cbn. destruct (Rlt_dec x y); [done|lra]. Qed.

Lemma cutoff_R_1 : cutoff 1%R = (1 / 2)%R.
Proof.
  unfold cutoff. rewrite fle_R_true, flt_R_true by (cbn; lra). done.
Qed.

(** The high-pass request of length 1 with the rectangular window and the
    cutoff 1.0: the centre tap and the gain are [1 - 0.5 * 1 * 2]. *)
Lemma hp1_taps :
  fir_taps 1 [0%R] [1%R] hp_boxcar 0%R
  = Some (Next (FirState [(1 - 1 / 2 * 1 * 2)%R] (1 - 1 / 2 * 1 * 2)%R
                         (2 * PI * (1 / 2))%R)).
Proof.
  pose proof cutoff_R_1 as Hc. eval_R_in Hc. eval_R. rewrite Hc. reflexivity.
Qed.

(** C2, as stated, fails: on that request the gain is 0 after synthesis;
    [design_fir] multiplies the tap by [1/g] all the same and returns 0,
    not -1. *)
Lemma design_fir_zero_gain_returns_0 :
  ∃ s,
    fir_taps 1 [0%R] [1%R] hp_boxcar 0%R = Some (Next s) ∧
    st_g s = 0%R ∧
    design_fir 1 (Some [0%R]) [1%R] hp_boxcar 0%R
    = Some (0, Some [(st_g s * (1 / st_g s))%R]).
Proof.
  eexists. split; [apply hp1_taps|]. split; [cbn; lra|].
  unfold design_fir. rewrite decide_False by lia. rewrite hp1_taps. reflexivity.
Qed.

(** The amended C2 on the same request. *)
Lemma design_fir_always_normalizes_witness :
  ∃ s w',
    fir_taps 1 [0%R] [1%R] hp_boxcar 0%R = Some (Next s) ∧
    design_fir 1 (Some [0%R]) [1%R] hp_boxcar 0%R = Some (0, Some w') ∧
    ∃ x, load (st_w s) 0 = Some x ∧
         load w' 0 = Some (x * (1 / st_g s))%R.
Proof.
  destruct (design_fir_always_normalizes (FT := ftype_R) 1 [0%R] [1%R]
              hp_boxcar 0%R _ ltac:(unfold UINT_MAX; lia) hp1_taps)
    as (w' & Hrun & Hw).
  eexists _, w'. split; [exact hp1_taps|]. split; [exact Hrun|].
  apply (Hw 0). lia.
Defined.

(** C3 at length 4: the high-pass request fails, the low-pass one does not. *)
Lemma design_fir_parity_witness :
  (∃ w', design_fir 4 (Some [0; 0; 0; 0]%R) [1; 1]%R hp_boxcar 0%R
         = Some (-1, Some w')) ∧
  (∃ w', design_fir 4 (Some [0; 0; 0; 0]%R) [1; 1]%R lp_boxcar 0%R
         = Some (0, Some w')).
Proof.
  destruct (design_fir_parity (FT := ftype_R) 4 [0; 0; 0; 0]%R [1; 1]%R 0%R) as [Hhp Hlp];
    [unfold UINT_MAX; lia|simpl; lia|simpl; lia|].
  split.
  - apply Hhp; [reflexivity|left; reflexivity].
  - apply Hlp; [lia|eexists; reflexivity|left; reflexivity].
Defined.

(** C5 on a low-pass request of length 4. *)
Lemma design_fir_symmetric_witness :
  ∃ w',
    design_fir 4 (Some [0; 0; 0; 0]%R) [1; 1]%R lp_boxcar 0%R = Some (0, Some w') ∧
    ∃ v, load w' 1 = Some v ∧ load w' (4 - 1 - 1) = Some v.
Proof.
  destruct (design_fir_returns (FT := ftype_R) 4 [0; 0; 0; 0]%R [1; 1]%R lp_boxcar 0%R)
    as (w' & Hrun & _); [unfold UINT_MAX; lia|simpl; lia|simpl; lia|].
  change (design_fir_code (FT := ftype_R) 4 lp_boxcar 0%R) with 0 in Hrun.
  exists w'. split; [exact Hrun|].
  apply (design_fir_symmetric (FT := ftype_R) 4 [0; 0; 0; 0]%R [1; 1]%R lp_boxcar 0%R w');
    [unfold UINT_MAX; lia|left; discriminate|exact Hrun|lia].
Defined.

(** C6 on the band-pass request of length 3 with the cutoffs 7.0, out of
    range, and 1.0, in range: the taps are those of the effective cutoffs
    0.25 and 0.5. *)
Lemma design_fir_cutoff_clamp_witness :
  ∃ w' : list R,
    design_fir 3 (Some [0; 0; 0]%R) [7; 1]%R 0x40001 0%R = Some (0, Some w') ∧
    let t := (1 - 1 / 2 * 0)%R in
    let s1 := (sin (2 * PI * (1 / 4) * t) / (PI * t))%R in
    let s2 := (sin (2 * PI * (1 / 2) * t) / (PI * t))%R in
    let g := (1 * (1 / 4 + 1 / 2) + 1 * (s1 + s2))%R in
    load w' 1 = Some ((1 / 2 - 1 / 4) * 1 * 2 * (1 / g))%R ∧
    load w' 0 = Some (1 * (s2 - s1) * (1 / g))%R ∧
    load w' 2 = Some (1 * (s2 - s1) * (1 / g))%R.
Proof.
  destruct (design_fir_cutoff_clamp (FT := ftype_R) 3 [0; 0; 0]%R 7%R 1%R
              0x40001 0%R) as (_ & _ & _ & _ & _ & _ & Huse);
    [unfold UINT_MAX; lia|simpl; lia|].
  destruct (Huse kBP (λ _, 1%R) (1 / 4)%R (1 / 2)%R)
    as (w' & Hrun & Hside & Hmid).
  - lia.
  - reflexivity.
  - reflexivity.
  - intros [|]; discriminate.
  - intros H. rewrite fle_R_false in H by (cbn; lra). discriminate.
  - intros _. reflexivity.
  - intros _ _. reflexivity.
  - intros [H|H].
    + rewrite fle_R_true in H by (cbn; lra). discriminate.
    + rewrite flt_R_true in H by (cbn; lra). discriminate.
  - exists w'. split; [exact Hrun|].
    destruct (Hside 0 0%R) as [Hlo Hhi]; [change (fir_end 3) with 1; lia|].
    split; [|split].
    + apply Hmid. discriminate.
    + exact Hlo.
    + exact Hhi.
Defined.

(** C10 at length 4: the failed high-pass request leaves the rectangular
    envelope in the buffer. *)
Lemma design_fir_failure_overwrites_witness :
  design_fir 4 (Some [0; 0; 0; 0]%R) [1; 1]%R hp_boxcar 0%R
  = Some (-1, Some [1; 1; 1; 1]%R).
Proof.
  apply (design_fir_failure_overwrites (FT := ftype_R) 4 [0; 0; 0; 0]%R [1; 1]%R hp_boxcar 0%R
           (λ _, 1%R));
    [unfold UINT_MAX; lia|reflexivity|reflexivity|left; reflexivity
    |simpl; lia|simpl; lia].
Defined.

Lemma cutoff_R_half : cutoff (1 / 2)%R = (1 / 2 / 2)%R.
Proof.
  unfold cutoff. rewrite fle_R_true, flt_R_true by (cbn; lra). done.
Qed.



End DesignExamples.

(** * Further properties *)

(** ** The FIR kernel and the filter bank *)

Section FirFacts.
Context {FT : FType}.

(** One pass through the body of the [do ... while] loop. *)
Lemma fir_loop_step fuel n (w x : list ftype_t) wo xo y wn xn :
  1 ≤ n ≤ UINT_MAX →
  load w (wo + (n - 1)) = Some wn → load x (xo + (n - 1)) = Some xn →
  fir_loop (S fuel) n w wo x xo y
  = if decide (n - 1 ≠ 0) then fir_loop fuel (n - 1) w wo x xo (y + wn * xn)%fp
    else Some (y + wn * xn)%fp.
Proof.
  unfold UINT_MAX. intros Hn Hw Hx. cbn [fir_loop].
  rewrite u32_small by lia. rewrite Hw. cbn. rewrite Hx. cbn. done.
Qed.

(** With [n] taps inside both buffers the loop ends within [n]
    iterations. *)
Lemma fir_loop_total (w x : list ftype_t) (wo xo : Z) (m : nat) :
  ∀ n fuel y,
    n = Z.of_nat m + 1 → n ≤ UINT_MAX → 0 ≤ wo → 0 ≤ xo →
    wo + n ≤ Z.of_nat (length w) → xo + n ≤ Z.of_nat (length x) →
    (m < fuel)%nat →
    is_Some (fir_loop fuel n w wo x xo y).
Proof.
  induction m as [|m IH]; intros n fuel y Hn Hmax Hwo Hxo Hw Hx Hfuel;
    (destruct fuel as [|fuel]; [lia|]);
    destruct (load_is_Some w (wo + (n - 1))) as [wn Hwn]; try lia;
    destruct (load_is_Some x (xo + (n - 1))) as [xn Hxn]; try lia;
    rewrite (fir_loop_step fuel n w x wo xo y wn xn) by (done || lia);
    destruct (decide (n - 1 ≠ 0)); try lia; try by eexists.
  apply IH; lia.
Qed.

Lemma fir_total (n : Z) (w x : list ftype_t) (wo xo : Z) :
  1 ≤ n ≤ UINT_MAX → 0 ≤ wo → 0 ≤ xo →
  wo + n ≤ Z.of_nat (length w) → xo + n ≤ Z.of_nat (length x) →
  is_Some (fir n w wo x xo).
Proof.
  intros Hn Hwo Hxo Hw Hx. unfold fir. rewrite decide_False by lia.
  apply (fir_loop_total w x wo xo (Z.to_nat (n - 1))); lia.
Qed.

Lemma pfir_loop_spec (d : nat) (n nt s : Z) (w x : list ftype_t) :
  1 ≤ s →
  ∀ (wt xt yp : Z) (y : list ftype_t),
    0 ≤ yp →
    (d ≠ O → yp + (Z.of_nat d - 1) * s < Z.of_nat (length y)) →
    (∀ q, 0 ≤ q < Z.of_nat d →
          is_Some (fir n w (wt + q * n) x (xt + q * nt))) →
    ∃ y',
      pfir_loop d n nt s wt xt yp w x y = Some (yp + Z.of_nat d * s, y') ∧
      length y' = length y ∧
      (∀ q, 0 ≤ q < Z.of_nat d →
            load y' (yp + q * s) = fir n w (wt + q * n) x (xt + q * nt)) ∧
      (∀ p, (∀ q, 0 ≤ q < Z.of_nat d → p ≠ yp + q * s) →
            load y' p = load y p).
Proof.
  intros Hs. induction d as [|d IH]; intros wt xt yp y Hyp Hfit Hfir.
  - exists y. cbn. rewrite Z.add_0_r. split; [done|]. split; [done|].
    split; [intros; lia|done].
  - specialize (Hfit ltac:(done)). rewrite Nat2Z.inj_succ in *.
    assert (0 ≤ Z.of_nat d * s) as HDs by (apply Z.mul_nonneg_nonneg; lia).
    destruct (Hfir 0 ltac:(lia)) as [v Hv].
    rewrite !Z.mul_0_l, !Z.add_0_r in Hv.
    destruct (store y yp v) as [y1|] eqn:H1;
      [|rewrite store_Some in H1 by lia; done].
    pose proof (store_length _ _ _ _ H1) as Hl1.
    destruct (IH (wt + n) (xt + nt) (yp + s) y1) as (y' & Hrun & Hlen & Hw & Hfr).
    + lia.
    + intros. lia.
    + intros q Hq. specialize (Hfir (q + 1) ltac:(lia)).
      replace (wt + (q + 1) * n) with (wt + n + q * n) in Hfir by lia.
      by replace (xt + (q + 1) * nt) with (xt + nt + q * nt) in Hfir by lia.
    + exists y'. cbn [pfir_loop]. rewrite Hv. cbn. rewrite H1. cbn.
      rewrite Hrun. split; [f_equal; f_equal; lia|]. split; [congruence|].
      split.
      * intros q Hq. destruct (decide (q = 0)) as [->|Hq0].
        -- rewrite !Z.mul_0_l, !Z.add_0_r, Hv.
           rewrite Hfr by (intros q' Hq'; nia).
           by rewrite (load_store_eq _ _ _ _ H1).
        -- specialize (Hw (q - 1) ltac:(lia)).
           replace (yp + s + (q - 1) * s) with (yp + q * s) in Hw by lia.
           replace (wt + n + (q - 1) * n) with (wt + q * n) in Hw by lia.
           by replace (xt + nt + (q - 1) * nt) with (xt + q * nt) in Hw by lia.
      * intros p Hp. rewrite Hfr.
        -- apply (load_store_ne _ _ _ _ _ H1). specialize (Hp 0 ltac:(lia)). lia.
        -- intros q Hq. specialize (Hp (q + 1) ltac:(lia)). lia.
Qed.

(** [updatepq] on any length [n >= 1], a power of two or not. *)
Lemma updatepq_run (n d xi s : Z) (xq inp : list ftype_t) :
  1 ≤ n → 2 * n ≤ INT_MAX → 0 ≤ xi < n → 1 ≤ d → 0 ≤ s →
  2 * n * d ≤ Z.of_nat (length xq) →
  (d - 1) * s < Z.of_nat (length inp) →
  ∃ xq',
    updatepq n d xi xq inp s
    = Some (i32 (Z.land (u32 (xi + 1)) (u32 (n - 1))), xq') ∧
    length xq' = length xq ∧
    (∀ q, 0 ≤ q < d →
          ∃ v, load inp (q * s) = Some v ∧
               load xq' (q * (2 * n) + xi) = Some v ∧
               load xq' (q * (2 * n) + xi + n) = Some v) ∧
    (∀ p, (∀ q, 0 ≤ q < d → p ≠ q * (2 * n) + xi ∧ p ≠ q * (2 * n) + xi + n) →
          load xq' p = load xq p).
Proof.
  intros Hpos Hint Hxi Hd Hs Hxq Hinp. unfold INT_MAX in Hint.
  destruct (updatepq_loop_spec (Z.to_nat d) n s ltac:(lia) Hs xi 0 xq inp)
    as (xq' & Hrun & Hlen & Hw & Hfr); [lia|lia|intros _; nia|intros _; lia|].
  exists xq'. unfold updatepq.
  replace (i32 (u32 (n * 2))) with (2 * n)
    by (rewrite u32_small, i32_small; lia).
  rewrite Hrun. cbn.
  split; [done|]. split; [done|]. split.
  - intros q Hq. destruct (Hw q) as ([v Hv] & Ha & Hb); [lia|].
    exists v. rewrite Z.add_0_l in *.
    replace (q * (2 * n) + xi) with (xi + q * (2 * n)) by lia.
    rewrite Ha, Hb. done.
  - intros p Hp. apply Hfr. intros q Hq. destruct (Hp q); lia.
Qed.

(** The cursor [updatepq] returns, for a power-of-two length. *)
Lemma cursor_pow2 (e n xi : Z) :
  0 ≤ e → n = 2 ^ e → 2 * n ≤ INT_MAX → 0 ≤ xi < n →
  i32 (Z.land (u32 (xi + 1)) (u32 (n - 1))) = (xi + 1) mod n.
Proof.
  unfold INT_MAX. intros He Hn Hint Hxi.
  rewrite !u32_small by lia. subst n. rewrite land_pow2_pred by done.
  apply i32_small. pose proof (Z.mod_pos_bound (xi + 1) (2 ^ e)). lia.
Qed.
End FirFacts.

Lemma land_le_r (a b : Z) : 0 ≤ a → 0 ≤ b → Z.land a b ≤ b.
Proof.
  intros Ha Hb. rewrite <- (Z2N.id a), <- (Z2N.id b) by done.
  rewrite <- N2Z.inj_land. apply N2Z.inj_le, N.land_le_r.
Qed.

(** A cell of the queue buffer is in one queue, at one offset. *)
Lemma cell_unique (n q j q' j' : Z) :
  0 < n → 0 ≤ j < 2 * n → 0 ≤ j' < 2 * n →
  q * (2 * n) + j = q' * (2 * n) + j' → q = q' ∧ j = j'.
Proof.
  intros Hn Hj Hj' Heq.
  assert (q = q') as -> by nia. split; [done|lia].
Qed.

(** Closes [q * (2 * n) + j ≠ q' * (2 * n) + j'] for distinct offsets. *)
Ltac cell_ne n q j q' j' :=
  let H := fresh in
  intros H; destruct (cell_unique n q j q' j'); lia.

(** X1: [fir] with no taps: the body runs before the test, [n--] wraps to
    [UINT_MAX], and the first read is [w[4294967295]]: outside any buffer
    of at most [UINT_MAX] cells. *)
Theorem fir_no_taps {FT : FType} (w x : list ftype_t) (wo xo : Z) :
  0 ≤ wo → 0 ≤ xo →
  Z.of_nat (length w) ≤ UINT_MAX ∨ Z.of_nat (length x) ≤ UINT_MAX →
  fir 0 w wo x xo = None.
Proof.
  unfold UINT_MAX. intros Hwo Hxo Hlen. unfold fir.
  rewrite decide_True by done.
  destruct (Z.to_nat (2 ^ 32)) as [|fuel] eqn:Hfuel; [done|].
  cbn [fir_loop]. change (u32 (0 - 1)) with (2 ^ 32 - 1).
  destruct (load w (wo + (2 ^ 32 - 1))) as [wn|] eqn:Hw; [|done].
  apply load_Some_lt in Hw. cbn.
  destruct (load x (xo + (2 ^ 32 - 1))) as [xn|] eqn:Hx; [|done].
  apply load_Some_lt in Hx. lia.
Qed.

(** X1 on two buffers of four cells. *)
Lemma fir_no_taps_witness :
  fir (FT := Double.ftype_double) 0 Double.taps4 0 Double.taps4 0 = None.
Proof. apply fir_no_taps; [lia|lia|left; vm_compute; discriminate]. Defined.


Section FirOrder.
Context {FT : FType}.

Lemma fir_acc_None w wo x xo (l : list Z) :
  foldr (fir_acc w wo x xo) None l = None.
Proof. induction l as [|i l IH]; [done|]. cbn. by rewrite IH. Qed.

Lemma fir_loop_foldr (w x : list ftype_t) (wo xo : Z) (m : nat) :
  ∀ n fuel y,
    n = Z.of_nat m + 1 → n ≤ UINT_MAX → (m < fuel)%nat →
    fir_loop fuel n w wo x xo y
    = foldr (fir_acc w wo x xo) (Some y) (seqZ 0 n).
Proof.
  induction m as [|m IH]; intros n fuel y Hn Hmax Hfuel;
    (destruct fuel as [|fuel]; [lia|]);
    replace n with ((n - 1) + 1) at 2 by lia;
    rewrite seqZ_app by lia; rewrite foldr_app; cbn [fir_loop];
    rewrite u32_small by (unfold UINT_MAX in *; lia);
    change (seqZ (0 + (n - 1)) 1) with [0 + (n - 1)]; cbn [foldr];
    rewrite Z.add_0_l; unfold fir_acc at 2; cbn [mbind option_bind];
    (destruct (load w (wo + (n - 1))) as [wn|]; cbn;
       [|by rewrite fir_acc_None]);
    (destruct (load x (xo + (n - 1))) as [xn|]; cbn;
       [|by rewrite fir_acc_None]);
    destruct (decide (n - 1 ≠ 0)) as [Hne|Heq]; try lia.
  - replace (n - 1) with 0 by lia. done.
  - apply IH; lia.
Qed.
End FirOrder.

(** X2: [fir] accumulates from the last tap down to the first, starting
    from 0.0: its result is the right fold of [y + w[i]*x[i]] over
    [i = 0 .. n-1], whose innermost step is [i = n-1], and it is undefined
    as soon as one of the [2n] reads is outside its buffer. *)
Theorem fir_accumulates_downwards {FT : FType} (n : Z)
    (w x : list ftype_t) (wo xo : Z) :
  1 ≤ n ≤ UINT_MAX →
  fir n w wo x xo
  = foldr (fir_acc w wo x xo) (Some (f_of_Z 0)) (seqZ 0 n).
Proof.
  intros Hn. unfold fir. rewrite decide_False by lia.
  by rewrite (fir_loop_foldr w x wo xo (Z.to_nat (n - 1)) n) by lia.
Qed.

(** X2 on two taps: [(0 + 2*4) + 1*3]. *)
Lemma fir_accumulates_downwards_witness :
  fir (FT := Double.ftype_double) 2 Double.taps4 0 Double.taps4 2
  = Some (PrimFloat.add
            (PrimFloat.add (Double.of_Z 0)
               (PrimFloat.mul (Double.of_Z 2) (Double.of_Z 4)))
            (PrimFloat.mul (Double.of_Z 1) (Double.of_Z 3))).
Proof.
  rewrite fir_accumulates_downwards by (unfold UINT_MAX; lia).
  reflexivity.
Defined.

(** X3: [pfir] on [d] filters of [n] taps: output [q] is what [fir] returns on
    the taps [w[q*n ..]] and the window of queue [q] at the cursor,
    [x[q*2n + xi ..]]; it goes to [y[q*s]], the other cells of [y] are
    left alone, and the pointer returned is [y + d*s]. *)
Theorem pfir_outputs {FT : FType} (n d xi s : Z) (w x y : list ftype_t) :
  1 ≤ n → 2 * n ≤ INT_MAX → 0 ≤ xi → 1 ≤ d → 1 ≤ s →
  d * n ≤ Z.of_nat (length w) →
  xi + d * (2 * n) ≤ Z.of_nat (length x) + n →
  (d - 1) * s < Z.of_nat (length y) →
  ∃ y',
    pfir n d xi w x y s = Some (d * s, y') ∧
    length y' = length y ∧
    (∀ q, 0 ≤ q < d →
          ∃ v, fir n w (q * n) x (q * (2 * n) + xi) = Some v ∧
               load y' (q * s) = Some v) ∧
    (∀ p, (∀ q, 0 ≤ q < d → p ≠ q * s) → load y' p = load y p).
Proof.
  unfold INT_MAX. intros Hn Hint Hxi Hd Hs Hw Hx Hy.
  assert (∀ q, 0 ≤ q < d → is_Some (fir n w (q * n) x (q * (2 * n) + xi)))
    as Hfir.
  { intros q Hq. apply fir_total; unfold UINT_MAX; nia. }
  destruct (pfir_loop_spec (Z.to_nat d) n (2 * n) s w x Hs 0 xi 0 y)
    as (y' & Hrun & Hlen & Hout & Hfr).
  - lia.
  - intros _. rewrite Z2Nat.id by lia. lia.
  - intros q Hq. rewrite Z.add_0_l.
    replace (xi + q * (2 * n)) with (q * (2 * n) + xi) by lia.
    apply Hfir. lia.
  - exists y'. unfold pfir.
    replace (i32 (u32 (2 * n))) with (2 * n)
      by (rewrite u32_small, i32_small; lia).
    rewrite Hrun, Z2Nat.id by lia.
    split; [done|]. split; [done|]. split.
    + intros q Hq. destruct (Hfir q Hq) as [v Hv]. exists v.
      split; [done|]. specialize (Hout q ltac:(lia)).
      rewrite !Z.add_0_l in Hout.
      replace (xi + q * (2 * n)) with (q * (2 * n) + xi) in Hout by lia.
      by rewrite Hout.
    + intros p Hp. apply Hfr. intros q Hq. rewrite Z.add_0_l.
      apply Hp. lia.
Qed.

(** X3 on two filters of two taps, two queues with the cursor at 1 and
    the output stride 3: the outputs are [1*2 + 2*1] and [3*4 + 4*3], and
    cell 1 of the output buffer is as it was. *)
Lemma pfir_outputs_witness :
  ∃ y',
    pfir (FT := Double.ftype_double) 2 2 1 Double.taps4
      (Double.of_Z <$> [1; 2; 1; 2; 3; 4; 3; 4]) Double.taps4 3
    = Some (6, y') ∧
    load y' 0 = Some (Double.of_Z 4) ∧ load y' 3 = Some (Double.of_Z 24) ∧
    load y' 1 = Some (Double.of_Z 2).
Proof.
  destruct (pfir_outputs (FT := Double.ftype_double) 2 2 1 3 Double.taps4
              (Double.of_Z <$> [1; 2; 1; 2; 3; 4; 3; 4]) Double.taps4)
    as (y' & Hrun & _ & Hout & Hfr);
    [lia|unfold INT_MAX; lia|lia|lia|lia|simpl; lia|simpl; lia|simpl; lia|].
  exists y'. split; [exact Hrun|].
  destruct (Hout 0 ltac:(lia)) as (v0 & Hv0 & Hy0).
  destruct (Hout 1 ltac:(lia)) as (v1 & Hv1 & Hy1).
  vm_compute in Hv0, Hv1. injection Hv0 as <-. injection Hv1 as <-.
  split; [exact Hy0|]. split; [exact Hy1|].
  rewrite Hfr; [reflexivity|]. intros q Hq. lia.
Defined.

(** X4: The layout is an invariant of [updatepq], for any length [n >= 1]:
    from a cursor in [0, n) and a doubled queue buffer, the call returns a
    cursor in [0, n) and a doubled queue buffer of the same size. *)
Theorem updatepq_keeps_layout {FT : FType} (n d xi s : Z)
    (xq inp : list ftype_t) :
  1 ≤ n → 2 * n ≤ INT_MAX → 0 ≤ xi < n → 1 ≤ d → 0 ≤ s →
  2 * n * d ≤ Z.of_nat (length xq) →
  (d - 1) * s < Z.of_nat (length inp) →
  doubled n d xq →
  ∃ xi' xq',
    updatepq n d xi xq inp s = Some (xi', xq') ∧
    0 ≤ xi' < n ∧ length xq' = length xq ∧ doubled n d xq'.
Proof.
  intros Hn Hint Hxi Hd Hs Hxq Hinp Hdbl.
  destruct (updatepq_run n d xi s xq inp) as (xq' & Hrun & Hlen & Hw & Hfr);
    try done.
  eexists _, xq'. split; [exact Hrun|]. unfold INT_MAX in Hint.
  split; [|split; [done|]].
  - rewrite !u32_small by lia.
    pose proof (Z.land_nonneg (xi + 1) (n - 1)) as [_ Hnn].
    assert (Z.land (xi + 1) (n - 1) ≤ n - 1) as Hle.
    { apply land_le_r; lia. }
    rewrite i32_small; lia.
  - intros q j Hq Hj. destruct (decide (j = xi)) as [->|Hne].
    + destruct (Hw q Hq) as (v & _ & Ha & Hb). by rewrite Ha, Hb.
    + rewrite !Hfr; [by apply Hdbl|..]; intros q' Hq';
        (split; [|cell_ne n q j q' (xi + n) || cell_ne n q (j + n) q' (xi + n)];
         cell_ne n q j q' xi || cell_ne n q (j + n) q' xi).
Qed.

(** X4 on one queue of length 2 with the cursor at 1. *)
Lemma updatepq_keeps_layout_witness :
  ∃ xi' xq',
    updatepq (FT := Double.ftype_double) 2 1 1
      (Double.of_Z <$> [1; 2; 1; 2]) [Double.of_Z 7] 1 = Some (xi', xq') ∧
    0 ≤ xi' < 2 ∧ length xq' = 4%nat ∧ doubled 2 1 xq'.
Proof.
  destruct (updatepq_keeps_layout (FT := Double.ftype_double) 2 1 1 1
              (Double.of_Z <$> [1; 2; 1; 2]) [Double.of_Z 7])
    as (xi' & xq' & Hrun & Hxi & Hlen & Hdbl);
    [lia|unfold INT_MAX; lia|lia|lia|lia|simpl; lia|simpl; lia| |].
  - intros q j Hq Hj. assert (q = 0) as -> by lia.
    assert (j = 0 ∨ j = 1) as [-> | ->] by lia; reflexivity.
  - exists xi', xq'. split; [exact Hrun|]. split; [exact Hxi|].
    split; [exact Hlen|exact Hdbl].
Defined.

(** After a push the window of each queue at the new cursor is the window
    at the old cursor moved by one cell, with the new sample in its last
    cell. *)
Lemma window_slides {FT : FType} (n d xi s : Z) (xq xq' inp : list ftype_t) :
  1 ≤ n → 0 ≤ xi < n → doubled n d xq →
  (∀ q, 0 ≤ q < d →
        ∃ v, load inp (q * s) = Some v ∧
             load xq' (q * (2 * n) + xi) = Some v ∧
             load xq' (q * (2 * n) + xi + n) = Some v) →
  (∀ p, (∀ q, 0 ≤ q < d → p ≠ q * (2 * n) + xi ∧ p ≠ q * (2 * n) + xi + n) →
        load xq' p = load xq p) →
  ∀ q, 0 ≤ q < d →
       (∀ i, 0 ≤ i < n - 1 →
             load xq' (q * (2 * n) + (xi + 1) mod n + i)
             = load xq (q * (2 * n) + xi + (i + 1))) ∧
       load xq' (q * (2 * n) + (xi + 1) mod n + (n - 1)) = load inp (q * s).
Proof.
  intros Hn Hxi Hdbl Hw Hfr q Hq.
  destruct (Hw q Hq) as (v & Hv & Ha & Hb).
  destruct (decide (xi + 1 < n)) as [Hlt|Hge].
  - rewrite Z.mod_small by lia. split.
    + intros i Hi.
      replace (q * (2 * n) + (xi + 1) + i) with (q * (2 * n) + xi + (i + 1))
        by lia.
      apply Hfr. intros q' Hq'.
      split; [cell_ne n q (xi + (i + 1)) q' xi
             |cell_ne n q (xi + (i + 1)) q' (xi + n)].
    + replace (q * (2 * n) + (xi + 1) + (n - 1)) with (q * (2 * n) + xi + n)
        by lia.
      by rewrite Hb, Hv.
  - assert (xi = n - 1) as -> by lia.
    replace (n - 1 + 1) with n by lia. rewrite Z_mod_same_full, Z.add_0_r.
    split.
    + intros i Hi.
      replace (q * (2 * n) + (n - 1) + (i + 1)) with (q * (2 * n) + i + n)
        by lia.
      rewrite <- (Hdbl q i) by lia.
      apply Hfr. intros q' Hq'.
      split; [cell_ne n q i q' (n - 1)|cell_ne n q i q' (n - 1 + n)].
    + by rewrite Ha, Hv.
Qed.

(** X5: For a power-of-two length: after a push, the window [pfir] reads at
    the new cursor holds the [n - 1] newest cells of the window at the old
    cursor, moved down by one, and the new sample in its last cell. *)
Theorem updatepq_slides_window {FT : FType} (e n d xi s : Z)
    (xq inp : list ftype_t) :
  0 ≤ e → n = 2 ^ e → 2 * n ≤ INT_MAX → 0 ≤ xi < n → 1 ≤ d → 0 ≤ s →
  2 * n * d ≤ Z.of_nat (length xq) →
  (d - 1) * s < Z.of_nat (length inp) →
  doubled n d xq →
  ∃ xi' xq',
    updatepq n d xi xq inp s = Some (xi', xq') ∧
    ∀ q, 0 ≤ q < d →
         (∀ i, 0 ≤ i < n - 1 →
               load xq' (q * (2 * n) + xi' + i)
               = load xq (q * (2 * n) + xi + (i + 1))) ∧
         load xq' (q * (2 * n) + xi' + (n - 1)) = load inp (q * s).
Proof.
  intros He Hn Hint Hxi Hd Hs Hxq Hinp Hdbl.
  assert (1 ≤ n) as Hpos by lia.
  destruct (updatepq_run n d xi s xq inp) as (xq' & Hrun & Hlen & Hw & Hfr);
    try done.
  rewrite (cursor_pow2 e) in Hrun by done.
  eexists _, xq'. split; [exact Hrun|].
  by apply (window_slides n d xi s xq xq' inp).
Qed.

(** X5 on one queue of length 2 holding 1 and 2, with the cursor at 1:
    after the push of 7 the window is [1; 7]. *)
Lemma updatepq_slides_window_witness :
  ∃ xi' xq',
    updatepq (FT := Double.ftype_double) 2 1 1
      (Double.of_Z <$> [1; 2; 1; 2]) [Double.of_Z 7] 1 = Some (xi', xq') ∧
    load xq' (xi' + 0) = Some (Double.of_Z 1) ∧
    load xq' (xi' + 1) = Some (Double.of_Z 7).
Proof.
  destruct (updatepq_slides_window (FT := Double.ftype_double) 1 2 1 1 1
              (Double.of_Z <$> [1; 2; 1; 2]) [Double.of_Z 7])
    as (xi' & xq' & Hrun & Hwin);
    [lia|reflexivity|unfold INT_MAX; lia|lia|lia|lia|simpl; lia|simpl; lia| |].
  - intros q j Hq Hj. assert (q = 0) as -> by lia.
    assert (j = 0 ∨ j = 1) as [-> | ->] by lia; reflexivity.
  - exists xi', xq'. split; [exact Hrun|].
    destruct (Hwin 0 ltac:(lia)) as [Hold Hnew].
    split; [exact (Hold 0 ltac:(lia))|exact Hnew].
Defined.

(** ** The FIR kernel in exact arithmetic *)

Module ExactRuntime.
Import Reals Lra Exact ExactGain.

(** In exact arithmetic the order of the accumulation does not matter:
    the loop adds the sum of the [n] products to [y]. *)
Lemma fir_loop_exact (w x : list R) (wo xo : Z) (m : nat) :
  ∀ n fuel (y : R),
    n = Z.of_nat m + 1 → n ≤ UINT_MAX → 0 ≤ wo → 0 ≤ xo →
    wo + n ≤ Z.of_nat (length w) → xo + n ≤ Z.of_nat (length x) →
    (m < fuel)%nat →
    fir_loop (FT := ftype_R) fuel n w wo x xo y
    = Some (y + sumR (λ t, tapZ w (wo + Z.of_nat t)
                           * tapZ x (xo + Z.of_nat t)) (S m))%R.
Proof.
  induction m as [|m IH]; intros n fuel y Hn Hmax Hwo Hxo Hw Hx Hfuel;
    (destruct fuel as [|fuel]; [lia|]);
    destruct (load_is_Some w (wo + (n - 1))) as [wn Hwn]; try lia;
    destruct (load_is_Some x (xo + (n - 1))) as [xn Hxn]; try lia;
    rewrite (fir_loop_step (FT := ftype_R) fuel n w x wo xo y wn xn)
      by (done || lia);
    destruct (decide (n - 1 ≠ 0)); try lia.
  - f_equal. cbn [sumR]. replace (Z.of_nat 0) with (n - 1) by lia.
    rewrite (tapZ_load _ _ _ Hwn), (tapZ_load _ _ _ Hxn). cbn. lra.
  - rewrite (IH (n - 1) fuel) by lia. f_equal.
    cbn [sumR]. replace (Z.of_nat (S m)) with (n - 1) by lia.
    rewrite (tapZ_load _ _ _ Hwn), (tapZ_load _ _ _ Hxn). cbn. lra.
Qed.

(** X6: [fir] is the dot product of the [n] taps with the [n] samples. *)
Theorem fir_dot_product (n : Z) (w x : list R) (wo xo : Z) :
  1 ≤ n ≤ UINT_MAX → 0 ≤ wo → 0 ≤ xo →
  wo + n ≤ Z.of_nat (length w) → xo + n ≤ Z.of_nat (length x) →
  fir (FT := ftype_R) n w wo x xo = Some (dot n w wo x xo).
Proof.
  intros Hn Hwo Hxo Hw Hx. unfold fir, dot. rewrite decide_False by lia.
  rewrite (fir_loop_exact w x wo xo (Z.to_nat (n - 1)) n) by lia.
  replace (S (Z.to_nat (n - 1))) with (Z.to_nat n) by lia.
  f_equal. cbn. lra.
Qed.

(** X6 on two taps at offset 1: [2*4 + 3*5 = 23]. *)
Lemma fir_dot_product_witness :
  fir (FT := ftype_R) 2 [1; 2; 3]%R 1 [4; 5]%R 0
  = Some (dot 2 [1; 2; 3]%R 1 [4; 5]%R 0) ∧
  dot 2 [1; 2; 3]%R 1 [4; 5]%R 0 = 23%R.
Proof.
  split.
  - apply fir_dot_product; [unfold UINT_MAX; lia|lia|lia|simpl; lia|simpl; lia].
  - cbv -[Rplus Rmult IZR]. lra.
Defined.

(** X7: A push followed by the filter bank, for a power-of-two length: output
    [q] is the dot product of the first [n - 1] taps of filter [q] with
    the [n - 1] newest cells of the window before the push, plus the last
    tap times the new sample. *)
Theorem pfir_after_updatepq (e n d xi s sy : Z) (w xq inp y : list R) :
  0 ≤ e → n = 2 ^ e → 2 * n ≤ INT_MAX → 0 ≤ xi < n → 1 ≤ d →
  0 ≤ s → 1 ≤ sy →
  2 * n * d ≤ Z.of_nat (length xq) →
  (d - 1) * s < Z.of_nat (length inp) →
  d * n ≤ Z.of_nat (length w) →
  (d - 1) * sy < Z.of_nat (length y) →
  doubled (FT := ftype_R) n d xq →
  ∃ xi' xq' y',
    updatepq (FT := ftype_R) n d xi xq inp s = Some (xi', xq') ∧
    pfir (FT := ftype_R) n d xi' w xq' y sy = Some (d * sy, y') ∧
    ∀ q, 0 ≤ q < d →
         load y' (q * sy)
         = Some (dot (n - 1) w (q * n) xq (q * (2 * n) + xi + 1)
                 + tapZ w (q * n + (n - 1)) * tapZ inp (q * s))%R.
Proof.
  intros He Hn Hint Hxi Hd Hs Hsy Hxq Hinp Hw Hy Hdbl.
  assert (1 ≤ n) as Hpos by lia.
  destruct (updatepq_run (FT := ftype_R) n d xi s xq inp)
    as (xq' & Hrun & Hlen & Hwr & Hfr); try done.
  rewrite (cursor_pow2 e) in Hrun by done.
  pose proof (window_slides (FT := ftype_R) n d xi s xq xq' inp
                Hpos Hxi Hdbl Hwr Hfr) as Hwin.
  pose proof (Z.mod_pos_bound (xi + 1) n ltac:(lia)) as Hxi'.
  set (xi' := (xi + 1) mod n) in *. clearbody xi'. unfold INT_MAX in Hint.
  change (ftype_t (FType := ftype_R)) with R in *.
  assert (∀ q, 0 ≤ q < d →
               fir (FT := ftype_R) n w (q * n) xq' (q * (2 * n) + xi')
               = Some (dot (n - 1) w (q * n) xq (q * (2 * n) + xi + 1)
                       + tapZ w (q * n + (n - 1)) * tapZ inp (q * s))%R)
    as Hfir.
  { intros q Hq. destruct (Hwin q Hq) as [Hold Hnew].
    unfold fir. rewrite decide_False by lia.
    assert (0 ≤ q * n ∧ q * n + n ≤ d * n) as Hqn by nia.
    rewrite (fir_loop_exact w xq' (q * n) (q * (2 * n) + xi')
               (Z.to_nat (n - 1)) n) by (unfold UINT_MAX; lia).
    f_equal. unfold dot. cbn [sumR]. rewrite Z2Nat.id by lia.
    unfold tapZ at 4. rewrite Hnew.
    rewrite (sumR_ext _ (λ t, tapZ w (q * n + Z.of_nat t)
                              * tapZ xq (q * (2 * n) + xi + 1 + Z.of_nat t))%R).
    - change (f_of_Z (FType := ftype_R) 0) with 0%R.
      change (default 0%R (load inp (q * s))) with (tapZ inp (q * s)). lra.
    - intros t Ht. f_equal. unfold tapZ. rewrite Hold by lia.
      do 2 f_equal. lia. }
  destruct (pfir_loop_spec (FT := ftype_R) (Z.to_nat d) n (2 * n) sy w xq'
              Hsy 0 xi' 0 y) as (y' & Hprun & _ & Hout & _);
    change (ftype_t (FType := ftype_R)) with R in *.
  - lia.
  - intros _. rewrite Z2Nat.id by lia. lia.
  - intros q Hq. rewrite Z.add_0_l.
    replace (xi' + q * (2 * n)) with (q * (2 * n) + xi') by lia.
    rewrite Hfir by lia. by eexists.
  - exists xi', xq', y'. split; [exact Hrun|]. split.
    + unfold pfir.
      replace (i32 (u32 (2 * n))) with (2 * n)
        by (rewrite u32_small, i32_small; lia).
      rewrite Hprun, Z2Nat.id by lia. done.
    + intros q Hq. specialize (Hout q ltac:(lia)).
      rewrite !Z.add_0_l in Hout.
      replace (xi' + q * (2 * n)) with (q * (2 * n) + xi') in Hout by lia.
      rewrite Hout. by apply Hfir.
Qed.

(** X7 on one filter of two taps and the push of 7. *)
Lemma pfir_after_updatepq_witness :
  ∃ xi' xq' y',
    updatepq (FT := ftype_R) 2 1 1 [1; 2; 1; 2]%R [7%R] 1 = Some (xi', xq') ∧
    pfir (FT := ftype_R) 2 1 xi' [3; 5]%R xq' [0%R] 1 = Some (1 * 1, y') ∧
    load y' (0 * 1)
    = Some (dot (2 - 1) [3; 5]%R (0 * 2) [1; 2; 1; 2]%R (0 * (2 * 2) + 1 + 1)
            + tapZ [3; 5]%R (0 * 2 + (2 - 1)) * tapZ [7%R] (0 * 1))%R.
Proof.
  destruct (pfir_after_updatepq 1 2 1 1 1 1 [3; 5]%R [1; 2; 1; 2]%R [7%R] [0%R])
    as (xi' & xq' & y' & Hu & Hp & Hy);
    [lia|reflexivity|unfold INT_MAX; lia|lia|lia|lia|lia
    |simpl; lia|simpl; lia|simpl; lia|simpl; lia| |].
  - intros q j Hq Hj. assert (q = 0) as -> by lia.
    assert (j = 0 ∨ j = 1) as [-> | ->] by lia; reflexivity.
  - exists xi', xq', y'. split; [exact Hu|]. split; [exact Hp|].
    apply Hy. lia.
Defined.
End ExactRuntime.

(** ** More on the polyphase bank *)

Section PolyphaseRuns.
Context {FT : FType} {FH : FilterH}.
Implicit Types (pw : list (list ftype_t)) (w : list ftype_t).

(** A valid call, column by column in the order the prototype is read:
    read-column [c] goes to column [l - 1 - c] of the bank in the [REW]
    direction and to column [c] in the forward direction.  Only [l * k]
    taps need to be there. *)
Lemma design_pfir_run (n k : Z) w pw (g : ftype_t) (flags : Z) :
  1 ≤ k ≤ INT_MAX → 0 ≤ n ≤ UINT_MAX → 1 ≤ n / k ≤ INT_MAX →
  n / k * k ≤ Z.of_nat (length w) → bank_ok pw k (n / k) →
  ∃ pw',
    design_pfir n k (Some w) (Some pw) g flags = Some (-1, Some pw') ∧
    bank_ok pw' k (n / k) ∧
    (∀ c i, 0 ≤ c < n / k → 0 ≤ i < k →
            ∃ wv, load w (c * k + i) = Some wv ∧
                  if decide (Z.land flags REW ≠ 0)
                  then load2 pw' i (n / k - 1 - c)
                       = Some (g * wv * sign_rew flags (n / k - 1 - c))%fp
                  else load2 pw' i c = Some (g * wv * sign_fwd flags c)%fp) ∧
    (∀ i j, ¬ (0 ≤ i < k ∧ 0 ≤ j < n / k) → load2 pw' i j = load2 pw i j).
Proof.
  intros Hk Hn Hl Hw Hok. unfold INT_MAX, UINT_MAX in *.
  unfold design_pfir. rewrite decide_False by lia.
  rewrite u32_i32 by lia. rewrite (i32_small (n / k)) by lia.
  rewrite (decide_False (P := _ ∨ _)) by lia.
  set (l := n / k) in *.
  destruct (decide (Z.land flags REW ≠ 0)) as [Hrew|Hfwd].
  - destruct (pfir_cols_spec (sign_rew flags) (-1) k l g w (Z.to_nat l)
                ltac:(by right) ltac:(done) (l - 1) 0 pw)
      as (pw' & Hrun & Hok' & Hfill & Hfr); [lia..|done|].
    rewrite Hrun. cbn. exists pw'. split; [done|]. split; [done|]. split.
    + intros c i Hc Hi. destruct (Hfill c i) as (wv & Ha & Hb); [lia..|].
      replace (l - 1 + c * -1) with (l - 1 - c) in Hb by lia.
      exists wv. rewrite Z.add_0_l in Ha. done.
    + intros i j Hout. apply Hfr. intros (Hi & c & Hc & ->).
      apply Hout. lia.
  - destruct (pfir_cols_spec (sign_fwd flags) 1 k l g w (Z.to_nat l)
                ltac:(by left) ltac:(done) 0 0 pw)
      as (pw' & Hrun & Hok' & Hfill & Hfr); [lia..|done|].
    rewrite Hrun. cbn. exists pw'. split; [done|]. split; [done|]. split.
    + intros c i Hc Hi. destruct (Hfill c i) as (wv & Ha & Hb); [lia..|].
      replace (0 + c * 1) with c in Hb by lia.
      exists wv. rewrite Z.add_0_l in Ha. done.
    + intros i j Hout. apply Hfr. intros (Hi & c & Hc & ->).
      apply Hout. lia.
Qed.

(** The row loop and the column loop read the prototype only where the
    moving pointer passes. *)
Lemma pfir_rows_wp (f : nat) :
  ∀ i j g sign w wp pw wp' pw',
    pfir_rows f i j g sign w wp pw = Some (wp', pw') → wp' = wp + Z.of_nat f.
Proof.
  induction f as [|f IH]; intros i j g sign w wp pw wp' pw' Hrun.
  - cbn in Hrun. injection Hrun as <- <-. lia.
  - cbn [pfir_rows] in Hrun.
    destruct (load w wp) as [wv|]; [|done]. cbn in Hrun.
    destruct (store2 pw i j _) as [pw1|]; [|done]. cbn in Hrun.
    apply IH in Hrun. lia.
Qed.

Lemma pfir_rows_ext (f : nat) :
  ∀ i j g sign w1 w2 wp pw,
    (∀ t, wp ≤ t < wp + Z.of_nat f → load w1 t = load w2 t) →
    pfir_rows f i j g sign w1 wp pw = pfir_rows f i j g sign w2 wp pw.
Proof.
  induction f as [|f IH]; intros i j g sign w1 w2 wp pw Hagree; [done|].
  cbn [pfir_rows]. rewrite (Hagree wp) by lia.
  destruct (load w2 wp) as [wv|]; [|done]. cbn.
  destruct (store2 pw i j _) as [pw1|]; [|done]. cbn.
  apply IH. intros t Ht. apply Hagree. lia.
Qed.

Lemma pfir_cols_ext sgn dj (k : Z) (f : nat) :
  0 ≤ i32 k →
  ∀ j g w1 w2 wp pw,
    (∀ t, wp ≤ t < wp + Z.of_nat f * i32 k → load w1 t = load w2 t) →
    pfir_cols sgn dj f j k g w1 wp pw = pfir_cols sgn dj f j k g w2 wp pw.
Proof.
  intros Hk. induction f as [|f IH]; intros j g w1 w2 wp pw Hagree; [done|].
  cbn [pfir_cols]. rewrite Nat2Z.inj_succ in Hagree.
  assert (0 ≤ Z.of_nat f * i32 k) by (apply Z.mul_nonneg_nonneg; lia).
  rewrite (pfir_rows_ext _ _ _ _ _ w1 w2) by (intros t Ht; apply Hagree; lia).
  destruct (pfir_rows _ _ _ _ _ w2 _ _) as [[wp' pw1]|] eqn:Hrows; [|done].
  apply pfir_rows_wp in Hrows. cbn. subst wp'.
  apply IH. intros t Ht. apply Hagree. lia.
Qed.
End PolyphaseRuns.

(** X8: A call with a null prototype or bank, with fewer taps than
    components, or with a quotient [n / k] above [INT_MAX] returns -1 and
    leaves the bank as it was.  The test [k < 1] of the sanity check is
    never reached with [k = 0]: the division [(int)n/k] comes first. *)
Theorem design_pfir_rejects {FT : FType} {FH : FilterH} (n k : Z)
    (w : option (list ftype_t)) (pw : option (list (list ftype_t)))
    (g : ftype_t) (flags : Z) :
  0 ≤ n ≤ UINT_MAX → 0 ≤ k ≤ UINT_MAX →
  (k = 0 → design_pfir n k w pw g flags = None) ∧
  (1 ≤ k → w = None ∨ pw = None ∨ n < k ∨ INT_MAX < n / k →
   design_pfir n k w pw g flags = Some (-1, pw)).
Proof.
  unfold INT_MAX, UINT_MAX. intros Hn Hk. split.
  - intros ->. done.
  - intros Hk1 Hbad. unfold design_pfir. rewrite decide_False by lia.
    destruct w as [w|], pw as [pw|]; try done.
    rewrite u32_i32 by lia.
    rewrite decide_True; [done|]. left.
    destruct Hbad as [|[|[Hlt|Hbig]]]; try done.
    + rewrite Z.div_small by lia. done.
    + assert (n / k < 2 ^ 32)
        by (apply Z.div_lt_upper_bound; nia).
      unfold i32. replace (n / k + 2 ^ 31) with (n / k - 2 ^ 31 + 1 * 2 ^ 32)
        by lia.
      rewrite Z.mod_add by lia. rewrite Z.mod_small by lia. lia.
Qed.

(** X8 with [k = 0], and with one tap for two components. *)
Lemma design_pfir_rejects_witness :
  design_pfir (FT := Double.ftype_double) (FH := example_flags) 1 0
    (Some Double.taps4) (Some Double.bank22) (Double.of_Z 1) 0 = None ∧
  design_pfir (FT := Double.ftype_double) (FH := example_flags) 1 2
    (Some Double.taps4) (Some Double.bank22) (Double.of_Z 1) 0
  = Some (-1, Some Double.bank22).
Proof.
  split.
  - apply (design_pfir_rejects (FT := Double.ftype_double)
             (FH := example_flags) 1 0); [unfold UINT_MAX; lia..|done].
  - apply (design_pfir_rejects (FT := Double.ftype_double)
             (FH := example_flags) 1 2); [unfold UINT_MAX; lia..|lia|].
    right. right. left. lia.
Defined.

(** X9: A valid call writes the [k] by [n / k] block of the bank and nothing
    else: the bank keeps its shape and every cell outside the block keeps
    its value. *)
Theorem design_pfir_writes_block {FT : FType} {FH : FilterH} (n k : Z)
    (w : list ftype_t) (pw : list (list ftype_t)) (rows cols : Z)
    (g : ftype_t) (flags : Z) :
  1 ≤ k ≤ INT_MAX → 0 ≤ n ≤ UINT_MAX → 1 ≤ n / k ≤ INT_MAX →
  n / k * k ≤ Z.of_nat (length w) →
  k ≤ rows → n / k ≤ cols → bank_ok pw rows cols →
  ∃ pw',
    design_pfir n k (Some w) (Some pw) g flags = Some (-1, Some pw') ∧
    (∀ i j, 0 ≤ i < rows → 0 ≤ j < cols → is_Some (load2 pw' i j)) ∧
    (∀ i j, ¬ (0 ≤ i < k ∧ 0 ≤ j < n / k) → load2 pw' i j = load2 pw i j).
Proof.
  intros Hk Hn Hl Hw Hrows Hcols Hok.
  assert (bank_ok pw k (n / k)) as Hok'.
  { intros i Hi. destruct (Hok i ltac:(lia)) as (row & Hrow & Hlen).
    exists row. split; [done|lia]. }
  destruct (design_pfir_run n k w pw g flags Hk Hn Hl Hw Hok')
    as (pw' & Hrun & Hok'' & Hfill & Hfr).
  exists pw'. split; [done|]. split; [|done].
  intros i j Hi Hj.
  destruct (decide (0 ≤ i < k ∧ 0 ≤ j < n / k)) as [[Hik Hjl]|Hout].
  - destruct (Hok'' i Hik) as (row & Hrow & Hlen). unfold load2.
    rewrite Hrow. cbn. apply load_is_Some. lia.
  - rewrite (Hfr i j Hout).
    destruct (Hok i Hi) as (row & Hrow & Hlen). unfold load2.
    rewrite Hrow. cbn. apply load_is_Some. lia.
Qed.

(** X9 on a bank of two rows of two and a block of two rows of one: row
    1, column 1 is as it was. *)
Lemma design_pfir_writes_block_witness :
  ∃ pw',
    design_pfir (FT := Double.ftype_double) (FH := example_flags) 2 2
      (Some Double.taps4) (Some Double.bank22) (Double.of_Z 1) 0
    = Some (-1, Some pw') ∧
    is_Some (load2 pw' 1 1) ∧
    load2 pw' 1 1 = load2 (FT := Double.ftype_double) Double.bank22 1 1.
Proof.
  destruct (design_pfir_writes_block (FT := Double.ftype_double)
              (FH := example_flags) 2 2 Double.taps4 Double.bank22 2 2
              (Double.of_Z 1) 0)
    as (pw' & Hrun & Hshape & Hfr);
    [unfold INT_MAX; lia|unfold UINT_MAX; lia
    |change (2 / 2) with 1; unfold INT_MAX; lia|by vm_compute|lia
    |change (2 / 2) with 1; lia| |].
  - intros i Hi.
    assert (i = 0 ∨ i = 1) as [-> | ->] by lia; eexists;
      (split; [reflexivity|simpl; lia]).
  - exists pw'. split; [exact Hrun|]. split.
    + apply Hshape; lia.
    + apply Hfr. change (2 / 2) with 1. lia.
Defined.

(** X10: The prototype is read up to tap [(n / k) * k] only: when [k] does not
    divide [n] the last [n mod k] taps play no part, and two prototypes
    that agree before them give the same bank. *)
Theorem design_pfir_ignores_tail {FT : FType} {FH : FilterH} (n k : Z)
    (w1 w2 : list ftype_t) (pw : option (list (list ftype_t)))
    (g : ftype_t) (flags : Z) :
  1 ≤ k ≤ INT_MAX → 0 ≤ n ≤ UINT_MAX →
  (∀ t, 0 ≤ t < n / k * k → load w1 t = load w2 t) →
  design_pfir n k (Some w1) pw g flags = design_pfir n k (Some w2) pw g flags.
Proof.
  unfold INT_MAX, UINT_MAX. intros Hk Hn Hagree.
  unfold design_pfir. rewrite !decide_False by lia.
  destruct pw as [pw|]; [|done].
  rewrite u32_i32 by lia.
  destruct (decide (i32 (n / k) < 1 ∨ k < 1)) as [|Hl]; [done|].
  assert (0 ≤ n / k) by (apply Z.div_pos; lia).
  assert (n / k < 2 ^ 32) by (apply Z.div_lt_upper_bound; nia).
  assert (i32 (n / k) = n / k) as Hnk.
  { destruct (decide (n / k < 2 ^ 31)) as [|Hbig]; [apply i32_small; lia|].
    exfalso. apply Hl. left. unfold i32.
    replace (n / k + 2 ^ 31) with (n / k - 2 ^ 31 + 1 * 2 ^ 32) by lia.
    rewrite Z.mod_add by lia. rewrite Z.mod_small by lia. lia. }
  rewrite Hnk in *.
  assert (∀ t, 0 ≤ t < 0 + Z.of_nat (Z.to_nat (n / k)) * i32 k →
               load w1 t = load w2 t) as Hagree'.
  { intros t Ht. apply Hagree. rewrite i32_small in Ht by lia. lia. }
  rewrite (pfir_cols_ext (sign_rew flags) (-1) k (Z.to_nat (n / k))
             ltac:(rewrite i32_small; lia) _ g w1 w2 0 pw Hagree').
  rewrite (pfir_cols_ext (sign_fwd flags) 1 k (Z.to_nat (n / k))
             ltac:(rewrite i32_small; lia) _ g w1 w2 0 pw Hagree').
  done.
Qed.

(** X10 on three taps and two components: the third tap plays no part. *)
Lemma design_pfir_ignores_tail_witness :
  design_pfir (FT := Double.ftype_double) (FH := example_flags) 3 2
    (Some (Double.of_Z <$> [1; 2; 3])) (Some Double.bank22) (Double.of_Z 1) 0
  = design_pfir (FT := Double.ftype_double) (FH := example_flags) 3 2
      (Some (Double.of_Z <$> [1; 2; 7])) (Some Double.bank22) (Double.of_Z 1) 0.
Proof.
  apply (design_pfir_ignores_tail (FT := Double.ftype_double)
           (FH := example_flags) 3 2);
    [unfold INT_MAX; lia|unfold UINT_MAX; lia|].
  intros t Ht. change (3 / 2 * 2) with 2 in Ht.
  assert (t = 0 ∨ t = 1) as [-> | ->] by lia; reflexivity.
Defined.

(** X11: The two directions fill the bank in mirrored column order: without
    [ODD], or with [ODD] and an even number of columns, column [j] of the
    [REW] bank is column [n / k - 1 - j] of the forward bank, signs
    included. *)
Theorem design_pfir_rew_mirrors_fwd {FT : FType} {FH : FilterH} (n k : Z)
    (w : list ftype_t) (pw : list (list ftype_t)) (g : ftype_t)
    (fwd rew : Z) :
  1 ≤ k ≤ INT_MAX → 0 ≤ n ≤ UINT_MAX → 1 ≤ n / k ≤ INT_MAX →
  n / k * k ≤ Z.of_nat (length w) → bank_ok pw k (n / k) →
  Z.land fwd REW = 0 → Z.land rew REW ≠ 0 →
  (Z.land fwd ODD ≠ 0 ↔ Z.land rew ODD ≠ 0) →
  (Z.land fwd ODD ≠ 0 → Z.even (n / k) = true) →
  ∃ pf pr,
    design_pfir n k (Some w) (Some pw) g fwd = Some (-1, Some pf) ∧
    design_pfir n k (Some w) (Some pw) g rew = Some (-1, Some pr) ∧
    ∀ i j, 0 ≤ i < k → 0 ≤ j < n / k →
           is_Some (load2 pr i j) ∧
           load2 pr i j = load2 pf i (n / k - 1 - j).
Proof.
  intros Hk Hn Hl Hw Hok Hfwd Hrew Hodd Heven.
  destruct (design_pfir_run n k w pw g fwd Hk Hn Hl Hw Hok)
    as (pf & Hrunf & _ & Hfillf & _).
  destruct (design_pfir_run n k w pw g rew Hk Hn Hl Hw Hok)
    as (pr & Hrunr & _ & Hfillr & _).
  exists pf, pr. split; [done|]. split; [done|].
  intros i j Hi Hj. set (l := n / k) in *.
  destruct (Hfillf (l - 1 - j) i ltac:(lia) Hi) as (wv & Hwv & Hf).
  destruct (Hfillr (l - 1 - j) i ltac:(lia) Hi) as (wv' & Hwv' & Hr).
  rewrite Hwv in Hwv'. injection Hwv' as <-.
  rewrite decide_False in Hf by lia. rewrite decide_True in Hr by done.
  replace (l - 1 - (l - 1 - j)) with j in Hr by lia.
  rewrite Hr, Hf. split; [by eexists|]. do 2 f_equal.
  rewrite sign_rew_eq, sign_fwd_eq. f_equal.
  destruct (decide (Z.land fwd ODD ≠ 0)) as [Ho|Ho].
  - rewrite !bool_decide_eq_true_2 by tauto.
    rewrite !Z.even_sub, (Heven Ho), <- (Z.negb_odd j).
    by destruct (Z.odd j).
  - rewrite !bool_decide_eq_false_2 by tauto. done.
Qed.

(** X11 on four taps and two components, with [ODD]. *)
Lemma design_pfir_rew_mirrors_fwd_witness :
  ∃ pf pr,
    design_pfir (FT := Double.ftype_double) (FH := example_flags) 4 2
      (Some Double.taps4) (Some Double.bank22) (Double.of_Z 1) 0x10
    = Some (-1, Some pf) ∧
    design_pfir (FT := Double.ftype_double) (FH := example_flags) 4 2
      (Some Double.taps4) (Some Double.bank22) (Double.of_Z 1) 0x12
    = Some (-1, Some pr) ∧
    is_Some (load2 pr 0 0) ∧ load2 pr 0 0 = load2 pf 0 (4 / 2 - 1 - 0).
Proof.
  destruct (design_pfir_rew_mirrors_fwd (FT := Double.ftype_double)
              (FH := example_flags) 4 2 Double.taps4 Double.bank22
              (Double.of_Z 1) 0x10 0x12)
    as (pf & pr & Hf & Hr & Hm);
    [unfold INT_MAX; lia|unfold UINT_MAX; lia
    |change (4 / 2) with 2; unfold INT_MAX; lia|by vm_compute| 
    |reflexivity|discriminate|split; discriminate|reflexivity|].
  - intros i Hi. change (4 / 2) with 2.
    assert (i = 0 ∨ i = 1) as [-> | ->] by lia; eexists;
      (split; [reflexivity|simpl; lia]).
  - exists pf, pr. split; [exact Hf|]. split; [exact Hr|].
    apply Hm; [lia|change (4 / 2) with 2; lia].
Defined.

(** ** What [design_fir] leaves alone *)

Section DesignFrame.
Context {FT : FType} {LM : Libm FT} {FH : FilterH} {WG : WindowGen FT}.

Lemma load_past_envelope (env : Z → ftype_t) (n : Z) (w : list ftype_t) p :
  0 ≤ n ≤ Z.of_nat (length w) → n ≤ p →
  load ((env <$> seqZ 0 n) ++ drop (Z.to_nat n) w) p = load w p.
Proof.
  intros Hn Hp. unfold load. rewrite !decide_True by lia.
  rewrite lookup_app_r by (rewrite length_fmap, length_seqZ; lia).
  rewrite length_fmap, length_seqZ, lookup_drop. f_equal. lia.
Qed.

Lemma taps_loop_frame body (n end_ : Z) (f : nat) :
  end_ ≤ n ≤ UINT_MAX →
  ∀ i (w : list ftype_t) g w' g',
    0 ≤ i → i + Z.of_nat f ≤ end_ →
    taps_loop body f n end_ i w g = Some (w', g') →
    ∀ p, n ≤ p → load w' p = load w p.
Proof.
  intros Hn. induction f as [|f IH]; intros i w g w' g' Hi Hf Hrun p Hp.
  - cbn in Hrun. by injection Hrun as <- <-.
  - rewrite Nat2Z.inj_succ in *. cbn [taps_loop] in Hrun.
    rewrite (lo_index n), (hi_index n) in Hrun by lia.
    destruct (load w (end_ - 1 - i)) as [wi|]; [|done]. cbn in Hrun.
    destruct (body i wi g) as [tap g1].
    destruct (store w _ _) as [w1|] eqn:H1; [|done]. cbn in Hrun.
    destruct (store w1 _ _) as [w2|] eqn:H2; [|done]. cbn in Hrun.
    rewrite (IH (i + 1) w2 g1 w' g' ltac:(lia) ltac:(lia) Hrun p Hp).
    rewrite (load_store_ne _ _ _ _ _ H2) by lia.
    by rewrite (load_store_ne _ _ _ _ _ H1) by lia.
Qed.

Lemma stage_loop_frame body n (w : list ftype_t) g w' g' :
  0 < n < UINT_MAX →
  taps_loop body (Z.to_nat (fir_end n)) n (fir_end n) 0 w g = Some (w', g') →
  ∀ p, n ≤ p → load w' p = load w p.
Proof.
  intros Hn Hrun. pose proof (end_bounds n ltac:(lia)) as He.
  apply (taps_loop_frame body n (fir_end n) (Z.to_nat (fir_end n))
           ltac:(lia) 0 w g w' g'); [lia|lia|done].
Qed.

Lemma lp_hp_stage_frame n k2 fc flags s s' :
  0 < n < UINT_MAX →
  lp_hp_stage n (fir_o n) (fir_end n) k2 fc flags s = Some (Next s') →
  ∀ p, n ≤ p → load (st_w s') p = load (st_w s) p.
Proof.
  intros Hn Hrun p Hp.
  destruct (end_cases n ltac:(lia)) as [[_ He]|[? _]]; [|lia].
  assert (fir_end n < n) as Hlt by (rewrite He; Z.div_mod_to_equations; lia).
  revert Hrun. unfold lp_hp_stage.
  destruct (decide (Z.land flags (Z.lor LP HP) ≠ 0)); [|by intros [= <-]].
  destruct (load fc 0) as [fc1|]; [|done]. cbn.
  destruct (decide (Z.land flags LP ≠ 0)).
  - destruct (decide (fir_o n ≠ 0)).
    + destruct (load (st_w s) (fir_end n)) as [we|]; [|done]. cbn.
      destruct (store (st_w s) (fir_end n) _) as [wc|] eqn:Hc; [|done]. cbn.
      destruct (taps_loop _ _ _ _ _ _ _) as [[w2 g2]|] eqn:Hl; [|done]. cbn.
      intros [= <-]. cbn.
      rewrite (stage_loop_frame _ _ _ _ _ _ Hn Hl) by done.
      apply (load_store_ne _ _ _ _ _ Hc). lia.
    + cbn. destruct (taps_loop _ _ _ _ _ _ _) as [[w2 g2]|] eqn:Hl; [|done].
      cbn. intros [= <-]. cbn.
      by rewrite (stage_loop_frame _ _ _ _ _ _ Hn Hl).
  - destruct (decide (fir_o n = 0)); [done|].
    destruct (load (st_w s) (fir_end n)) as [we|]; [|done]. cbn.
    destruct (store (st_w s) (fir_end n) _) as [wc|] eqn:Hc; [|done]. cbn.
    destruct (taps_loop _ _ _ _ _ _ _) as [[w2 g2]|] eqn:Hl; [|done]. cbn.
    intros [= <-]. cbn.
    rewrite (stage_loop_frame _ _ _ _ _ _ Hn Hl) by done.
    apply (load_store_ne _ _ _ _ _ Hc). lia.
Qed.

Lemma bp_bs_stage_frame n k2 fc flags s s' :
  0 < n < UINT_MAX →
  bp_bs_stage n (fir_o n) (fir_end n) k2 fc flags s = Some (Next s') →
  ∀ p, n ≤ p → load (st_w s') p = load (st_w s) p.
Proof.
  intros Hn Hrun p Hp.
  destruct (end_cases n ltac:(lia)) as [[_ He]|[? _]]; [|lia].
  assert (fir_end n < n) as Hlt by (rewrite He; Z.div_mod_to_equations; lia).
  revert Hrun. unfold bp_bs_stage.
  destruct (decide (Z.land flags (Z.lor BP BS) ≠ 0)); [|by intros [= <-]].
  destruct (load fc 0) as [fc1|]; [|done]. cbn.
  destruct (load fc 1) as [fc2|]; [|done]. cbn.
  destruct (decide (Z.land flags BP ≠ 0)).
  - destruct (decide (fir_o n ≠ 0)).
    + destruct (load (st_w s) (fir_end n)) as [we|]; [|done]. cbn.
      destruct (store (st_w s) (fir_end n) _) as [wc|] eqn:Hc; [|done]. cbn.
      destruct (taps_loop _ _ _ _ _ _ _) as [[w2 g2]|] eqn:Hl; [|done]. cbn.
      intros [= <-]. cbn.
      rewrite (stage_loop_frame _ _ _ _ _ _ Hn Hl) by done.
      apply (load_store_ne _ _ _ _ _ Hc). lia.
    + cbn. destruct (taps_loop _ _ _ _ _ _ _) as [[w2 g2]|] eqn:Hl; [|done].
      cbn. intros [= <-]. cbn.
      by rewrite (stage_loop_frame _ _ _ _ _ _ Hn Hl).
  - destruct (decide (fir_o n = 0)); [done|].
    destruct (load (st_w s) (fir_end n)) as [we|]; [|done]. cbn.
    destruct (store (st_w s) (fir_end n) _) as [wc|] eqn:Hc; [|done]. cbn.
    destruct (taps_loop _ _ _ _ _ _ _) as [[w2 g2]|] eqn:Hl; [|done]. cbn.
    intros [= <-]. cbn.
    rewrite (stage_loop_frame _ _ _ _ _ _ Hn Hl) by done.
    apply (load_store_ne _ _ _ _ _ Hc). lia.
Qed.
End DesignFrame.

(** X12: Whatever it returns, [design_fir] keeps the size of the buffer and
    writes no cell from [w[n]] on. *)
Theorem design_fir_frame {FT : FType} {LM : Libm FT} {FH : FilterH}
    {WG : WindowGen FT} (n : Z) (w : list ftype_t) (fc : list ftype_t)
    (flags : Z) (opt : ftype_t) (c : Z) (w' : list ftype_t) :
  0 ≤ n < UINT_MAX →
  design_fir n (Some w) fc flags opt = Some (c, Some w') →
  length w' = length w ∧ ∀ p, n ≤ p → load w' p = load w p.
Proof.
  intros Hn. unfold design_fir.
  destruct (decide (n = 0)); [by intros [= <- <-]|].
  unfold fir_taps.
  destruct (window_of n flags opt) as [env|]; [|by intros [= <- <-]].
  destruct (fill_window env n w) as [w1|] eqn:Hfill; [|done]. cbn.
  apply fill_window_inv in Hfill as (Hle & Hl1 & Hw1); [|lia].
  assert (∀ p, n ≤ p → load w1 p = load w p) as Hf1.
  { intros p Hp. subst w1. apply load_past_envelope; lia. }
  set (k2 := (f0_5 * f_of_Z (u32 (1 - fir_o n)))%fp).
  set (s0 := FirState w1 _ _).
  destruct (lp_hp_stage n (fir_o n) (fir_end n) k2 fc flags s0)
    as [[c1 wx|s1]|] eqn:H1; [| |done]; cbn.
  { apply lp_hp_stage_Exit in H1 as (_ & -> & _). intros [= <- <-]. done. }
  pose proof (lp_hp_stage_frame n k2 fc flags s0 s1 ltac:(lia) H1) as Hf2.
  apply lp_hp_stage_Next in H1 as (Hl2 & _); [|unfold UINT_MAX in *; lia].
  cbn in Hl2, Hf2.
  destruct (bp_bs_stage n (fir_o n) (fir_end n) k2 fc flags s1)
    as [[c2 wx|s2]|] eqn:H2; [| |done]; cbn.
  { apply bp_bs_stage_Exit in H2 as (_ & -> & _). intros [= <- <-].
    split; [congruence|]. intros p Hp. rewrite Hf2, Hf1 by done. done. }
  pose proof (bp_bs_stage_frame n k2 fc flags s1 s2 ltac:(lia) H2) as Hf3.
  apply bp_bs_stage_Next in H2 as (Hl3 & _); [|unfold UINT_MAX in *; lia].
  unfold normalize.
  destruct (norm_loop _ _ _ _) as [w2|] eqn:Hnorm; [|done]. cbn.
  intros [= <- <-].
  apply norm_loop_spec in Hnorm as [Hl4 Hf4]; [|lia].
  split; [congruence|]. intros p Hp.
  rewrite Hf4, decide_False by lia. rewrite Hf3, Hf2, Hf1 by done. done.
Qed.

(** X13: A null buffer, a zero length and a window selector that is none of
    the seven are rejected with -1 before anything is written: the buffer
    is as it was. *)
Theorem design_fir_rejects_untouched {FT : FType} {LM : Libm FT}
    {FH : FilterH} {WG : WindowGen FT} (n : Z) (w : option (list ftype_t))
    (fc : list ftype_t) (flags : Z) (opt : ftype_t) :
  w = None ∨ n = 0 ∨ window_of n flags opt = None →
  design_fir n w fc flags opt = Some (-1, w).
Proof.
  intros Hbad. unfold design_fir. destruct w as [w|]; [|done].
  destruct (decide (n = 0)); [done|].
  destruct Hbad as [|[|Hwin]]; try done.
  unfold fir_taps. by rewrite Hwin.
Qed.

(** X14: A selector with none of the four filter kinds is not rejected: both
    stages are skipped, the gain is still the initial 0, and every
    envelope coefficient is multiplied by [1/0]; the call returns 0.  The
    cutoff array is not read. *)
Theorem design_fir_no_kind {FT : FType} {LM : Libm FT} {FH : FilterH}
    {WG : WindowGen FT} (n : Z) (w : list ftype_t) (fc : list ftype_t)
    (flags : Z) (opt : ftype_t) (env : Z → ftype_t) :
  0 < n → n ≤ Z.of_nat (length w) →
  window_of n flags opt = Some env →
  first_stage flags = None → second_stage flags = None →
  ∃ w',
    design_fir n (Some w) fc flags opt = Some (0, Some w') ∧
    ∀ i, 0 ≤ i < n →
         load w' i = Some (env i * (f_of_Z 1 / f_of_Z 0))%fp.
Proof.
  intros Hn Hle Henv H1 H2.
  apply first_stage_None in H1. apply second_stage_None in H2.
  unfold design_fir. rewrite decide_False by lia.
  unfold fir_taps. rewrite Henv, fill_window_Some by lia. cbn.
  unfold lp_hp_stage. rewrite decide_False by done. cbn.
  unfold bp_bs_stage. rewrite decide_False by done. cbn.
  set (w1 := (env <$> seqZ 0 n) ++ drop (Z.to_nat n) w).
  assert (length w1 = length w) as Hl1.
  { unfold w1. rewrite length_app, length_fmap, length_seqZ, length_drop. lia. }
  unfold normalize. cbn.
  destruct (norm_loop_total (Z.to_nat n) (f_of_Z 1 / f_of_Z 0)%fp 0 w1)
    as [w' Hnorm]; [lia|lia|].
  rewrite Hnorm. cbn. exists w'. split; [done|].
  apply norm_loop_spec in Hnorm as [_ Hp]; [|lia].
  intros i Hi. rewrite Hp, decide_True by lia.
  unfold w1. by rewrite load_envelope.
Qed.

(** X15: A low-pass or high-pass design reads one cutoff, [fc[0]]: what
    follows it in the array plays no part. *)
Theorem design_fir_single_cutoff {FT : FType} {LM : Libm FT} {FH : FilterH}
    {WG : WindowGen FT} (n : Z) (w : option (list ftype_t)) (fc0 : ftype_t)
    (rest : list ftype_t) (flags : Z) (opt : ftype_t) :
  second_stage flags = None →
  design_fir n w (fc0 :: rest) flags opt = design_fir n w [fc0] flags opt.
Proof.
  intros H2. apply second_stage_None in H2.
  unfold design_fir. destruct w as [w|]; [|done].
  destruct (decide (n = 0)); [done|].
  unfold fir_taps. destruct (window_of n flags opt) as [env|]; [|done].
  destruct (fill_window env n w) as [w1|]; [|done]. cbn.
  assert (∀ k2 s, lp_hp_stage n (fir_o n) (fir_end n) k2 (fc0 :: rest) flags s
                  = lp_hp_stage n (fir_o n) (fir_end n) k2 [fc0] flags s) as ->.
  { intros k2 s. unfold lp_hp_stage. by rewrite !load_cons_0. }
  destruct (lp_hp_stage _ _ _ _ _ _ _) as [[c wx|s1]|]; try done. cbn.
  unfold bp_bs_stage. by rewrite !decide_False by done.
Qed.

(** X16: A band-pass or band-stop design reads two cutoffs: on an array of
    one, the read of [fc[1]] is outside the array. *)
Theorem design_fir_band_needs_two_cutoffs {FT : FType} {LM : Libm FT}
    {FH : FilterH} {WG : WindowGen FT} (n : Z) (w : list ftype_t)
    (fc0 : ftype_t) (flags : Z) (opt : ftype_t) :
  0 < n → n ≤ Z.of_nat (length w) →
  is_Some (window_of n flags opt) →
  first_stage flags = None → second_stage flags ≠ None →
  design_fir n (Some w) [fc0] flags opt = None.
Proof.
  intros Hn Hle [env Henv] H1 H2.
  apply first_stage_None in H1.
  assert (Z.land flags (Z.lor BP BS) ≠ 0) as H2'.
  { intros H0. apply H2. apply second_stage_None. intros Hne. by apply Hne. }
  unfold design_fir. rewrite decide_False by lia.
  unfold fir_taps. rewrite Henv, fill_window_Some by lia. cbn.
  unfold lp_hp_stage. rewrite decide_False by done. cbn.
  unfold bp_bs_stage. rewrite decide_True by done.
  rewrite load_cons_0. cbn. rewrite load_cons_pos by lia. done.
Qed.

(** ** The taps of the designs, in exact arithmetic *)

Module ExactShape.
Import Reals Lra Exact ExactGain.

(** What the scaling loop leaves, cell by cell. *)
Lemma normalize_loads (n : Z) (s : fir_state (FT := ftype_R)) (w' : list R) :
  0 ≤ n ≤ Z.of_nat (length (st_w s)) →
  normalize n s = Some w' →
  ∀ i, 0 ≤ i < n → load w' i = Some (tapZ (st_w s) i * (1 / st_g s))%R.
Proof.
  intros Hn Hnorm i Hi. unfold normalize in Hnorm.
  apply (norm_loop_spec (FT := ftype_R)) in Hnorm as [_ Hp]; [|done].
  destruct (load_is_Some (st_w s) i) as [x Hx]; [lia|].
  specialize (Hp i). rewrite decide_True in Hp by lia.
  change (ftype_t (FType := ftype_R)) with R in *.
  rewrite Hp. unfold tapZ. rewrite Hx. done.
Qed.

(** The loop on an envelope followed by the scaling, for a body that
    leaves [T j] of the old cell and adds [D j] of it to the gain. *)
Lemma design_taps_exact (T D : Z → R → R) (body : Z → R → R → R * R)
    (n : Z) (wc : list R) (g0 : R) (env : Z → R)
    (s : fir_state (FT := ftype_R)) (w' : list R) :
  (∀ i wi g, body i wi g = (T i wi, (g + D i wi)%R)) →
  0 < n < UINT_MAX →
  taps_loop (FT := ftype_R) body (Z.to_nat (fir_end n)) n (fir_end n) 0 wc g0
  = Some (st_w s, st_g s) →
  (∀ p, 0 ≤ p < fir_end n → load wc p = Some (env p)) →
  normalize n s = Some w' →
  n ≤ Z.of_nat (length (st_w s)) →
  st_g s = (g0 + sumR (λ t, D (Z.of_nat t) (env (fir_end n - 1 - Z.of_nat t)%Z))
                      (Z.to_nat (fir_end n)))%R ∧
  (∀ j, 0 ≤ j < fir_end n →
        load w' (fir_end n - 1 - j)
        = Some (T j (env (fir_end n - 1 - j)%Z) * (1 / st_g s))%R ∧
        load w' (n - fir_end n + j)
        = Some (T j (env (fir_end n - 1 - j)%Z) * (1 / st_g s))%R) ∧
  (fir_o n ≠ 0 →
   ∀ c, load wc (fir_end n) = Some c →
        load w' (fir_end n) = Some (c * (1 / st_g s))%R).
Proof.
  intros Hbody Hn Hloop Hwc Hnorm Hlen.
  destruct (end_cases n ltac:(lia)) as [[_ He]|[? _]]; [|lia].
  assert (0 ≤ fir_end n ∧ 2 * fir_end n ≤ n ∧ fir_end n < n) as Hend
    by (rewrite He; Z.div_mod_to_equations; lia).
  destruct (taps_loop_exact T D body n (fir_end n) (Z.to_nat (fir_end n))
              Hbody ltac:(unfold UINT_MAX in *; lia) 0 wc g0 _ _
              ltac:(lia) ltac:(lia) Hloop) as (Hv & Hfr & Hgs).
  pose proof (normalize_loads n s w' ltac:(lia) Hnorm) as Hw'.
  assert (∀ j, 0 ≤ j < fir_end n →
               tapZ wc (fir_end n - 1 - j) = env (fir_end n - 1 - j)%Z) as Henv.
  { intros j Hj. unfold tapZ. by rewrite Hwc by lia. }
  split; [|split].
  - rewrite Hgs. f_equal. apply sumR_ext. intros t Ht.
    rewrite Z.add_0_l, Henv by lia. done.
  - intros j Hj. destruct (Hv j ltac:(lia)) as [Ha Hb].
    rewrite !Hw' by lia. rewrite Ha, Hb, Henv by lia. done.
  - intros Ho c Hc. rewrite Hw' by lia.
    assert (2 * fir_end n < n) as Hodd.
    { assert (n mod 2 = 1) as Hmod.
      { rewrite Zmod_odd. unfold fir_o in Ho. rewrite land_1_odd in Ho.
        by destruct (Z.odd n). }
      rewrite He. Z.div_mod_to_equations. lia. }
    unfold tapZ. rewrite Hfr by (intros j Hj; lia).
    change (ftype_t (FType := ftype_R)) with R in *. by rewrite Hc.
Qed.

(** The gain [g] a band-stop design accumulates is the DC gain of the taps
    it has synthesized. *)
Lemma bs_gain_is_dc {LM : Libm ftype_R} {FH : FilterH}
    {WG : WindowGen ftype_R} (n : Z) (w fc : list R) (flags : Z) (opt : R)
    (s : fir_state (FT := ftype_R)) :
  0 < n < UINT_MAX →
  kind_of flags = Some kBS →
  fir_taps (FT := ftype_R) n w fc flags opt = Some (Next s) →
  dc_gain n (st_w s) = st_g s.
Proof.
  intros Hn Hk Ht.
  destruct (fir_taps_bs (FT := ftype_R) n w fc flags opt s Hk Ht)
    as (Ho & wc & g0 & k1 & k3 & Hloop & Hc).
  destruct (halves n Hn) as (h & m & Hh & Hnat & Hm & Hm1).
  assert (m = 1%nat) as -> by (by apply Hm1).
  rewrite Hh, Nat2Z.id in *.
  set (T := λ (j : Z) (x : R), fst (bs_body (FT := ftype_R) k1 k3 j x 0%R)).
  destruct (taps_loop_exact T (λ j x, 2 * T j x)%R (bs_body k1 k3) n
              (Z.of_nat h) h ltac:(done) ltac:(lia) 0 wc g0 _ _
              ltac:(lia) ltac:(lia) Hloop) as (Hv & Hfr & Hgs).
  set (tau := λ j : nat, T (Z.of_nat j) (tapZ wc (Z.of_nat h - 1 - Z.of_nat j))).
  unfold dc_gain. rewrite Hnat.
  rewrite (sumR_ext _ (λ p, 1 * tapZ (st_w s) (Z.of_nat p))%R)
    by (intros; lra).
  rewrite (mirrored_sum (λ _, 1%R) tau (st_w s) h 1 g0 Hm).
  - rewrite (sumR_ext _ (λ j, (1 + 1) * tau j)%R) in Hgs
      by (intros; unfold tau; rewrite Z.add_0_l; lra).
    rewrite Hgs. rewrite decide_True by done. lra.
  - intros j Hj. destruct (Hv (Z.of_nat j) ltac:(lia)) as [Ha Hb].
    replace (Z.of_nat (h - 1 - j)) with (Z.of_nat h - 1 - Z.of_nat j) by lia.
    replace (Z.of_nat (h + 1 + j)) with (n - Z.of_nat h + Z.of_nat j) by lia.
    done.
  - intros _. unfold tapZ. rewrite Hfr by (intros j Hj; lia).
    change (ftype_t (FType := ftype_R)) with R in *. by rewrite Hc.
Qed.

(** X17: In exact arithmetic a band-stop design whose synthesized gain is not
    0 returns taps whose sum, the response at frequency 0, is 1. *)
Theorem design_fir_bs_unit_dc {LM : Libm ftype_R} {FH : FilterH}
    {WG : WindowGen ftype_R} (n : Z) (w fc : list R) (flags : Z) (opt : R)
    (s : fir_state (FT := ftype_R)) :
  0 < n < UINT_MAX →
  kind_of flags = Some kBS →
  fir_taps (FT := ftype_R) n w fc flags opt = Some (Next s) →
  st_g s ≠ 0%R →
  ∃ w' : list R,
    design_fir (FT := ftype_R) n (Some w) fc flags opt = Some (0, Some w') ∧
    dc_gain n w' = 1%R.
Proof.
  intros Hn Hk Ht Hg.
  destruct (fir_taps_Next (FT := ftype_R) n w fc flags opt s ltac:(lia) Ht)
    as (Hle & Hlen & _).
  destruct (normalize_taps n s ltac:(lia)) as (w' & Hnorm & Hw').
  exists w'. split.
  - unfold design_fir. rewrite decide_False by lia. rewrite Ht. cbn.
    by rewrite Hnorm.
  - pose proof (bs_gain_is_dc n w fc flags opt s Hn Hk Ht) as Hdc.
    unfold dc_gain in *.
    rewrite (sumR_ext _ (λ p, 1 * tapZ w' (Z.of_nat p))%R) by (intros; lra).
    rewrite (scaled_sum (λ _, 1%R) (st_w s) w' (1 / st_g s)%R)
      by (intros i Hi; apply Hw'; lia).
    rewrite (sumR_ext _ (λ p, tapZ (st_w s) (Z.of_nat p))) by (intros; lra).
    rewrite Hdc. by field.
Qed.

(** X18: In exact arithmetic the taps of a low-pass design are the windowed
    sinc: tap [end-1-j] and its mirror image [n-end+j] are the envelope
    coefficient [env (end-1-j)] times [sin(2 pi fc t) / (pi t)] at
    [t = j + 1], or [j + 1/2] for an even length, with [fc] the effective
    cutoff; the centre tap of an odd length is [2 fc env(end)]; and all of
    them are divided by their sum [g]. *)
Theorem design_fir_lp_taps {FH : FilterH} {WG : WindowGen ftype_R}
    (n : Z) (w fc : list R) (flags : Z) (opt : R) (env : Z → R)
    (w' : list R) :
  0 < n < UINT_MAX →
  kind_of flags = Some kLP →
  window_of (FT := ftype_R) n flags opt = Some env →
  design_fir (FT := ftype_R) (LM := libm_R) n (Some w) fc flags opt
  = Some (0, Some w') →
  ∃ fc0 : R,
    load fc 0 = Some fc0 ∧
    let c : R := cutoff (FT := ftype_R) fc0 in
    let side := λ j : Z,
      let t := (IZR (j + 1) - 1 / 2 * IZR (1 - fir_o n))%R in
      (env (fir_end n - 1 - j)%Z * sin (2 * PI * c * t) / (PI * t))%R in
    let centre :=
      if decide (fir_o n ≠ 0) then (c * env (fir_end n) * 2)%R else 0%R in
    let g := (centre + sumR (λ i, 2 * side (Z.of_nat i))
                            (Z.to_nat (fir_end n)))%R in
    (∀ j, 0 ≤ j < fir_end n →
          load w' (fir_end n - 1 - j) = Some (side j * (1 / g))%R ∧
          load w' (n - fir_end n + j) = Some (side j * (1 / g))%R) ∧
    (fir_o n ≠ 0 → load w' (fir_end n) = Some (centre * (1 / g))%R).
Proof.
  intros Hn Hk Henv Hrun.
  apply (design_fir_0 (FT := ftype_R) (LM := libm_R)) in Hrun
    as (_ & s & Ht & Hnorm).
  destruct (fir_taps_Next (FT := ftype_R) (LM := libm_R) n w fc flags opt s
              ltac:(lia) Ht) as (Hle & Hlen & _).
  destruct (fir_taps_lp_env (FT := ftype_R) (LM := libm_R) n w fc flags opt
              env s Hn Hk Henv Ht)
    as (fc0 & wc & g0 & Hfc & Hloop & Hwc & Hcentre).
  exists fc0. split; [done|]. cbn zeta.
  pose proof (end_bounds n ltac:(lia)) as Hend.
  assert (u32 (1 - fir_o n) = 1 - fir_o n) as Hu.
  { unfold fir_o. rewrite land_1_odd. by destruct (Z.odd n). }
  set (c := cutoff (FT := ftype_R) fc0 : R) in *.
  set (k1 := (f_of_Z (FType := ftype_R) 2 * M_PI (Libm := libm_R) * c)%fp) in *.
  set (k2 := (f0_5 (FType := ftype_R) * f_of_Z (u32 (1 - fir_o n)))%fp) in *.
  set (T := λ (j : Z) (x : R),
         fst (lp_body (FT := ftype_R) (LM := libm_R) k1 k2 j x 0%R)).
  destruct (design_taps_exact T (λ j x, 2 * T j x)%R
              (lp_body (FT := ftype_R) (LM := libm_R) k1 k2) n wc g0 env s w')
    as (Hg & Hside & Hmid);
    [done|exact Hn|exact Hloop|exact Hwc|exact Hnorm|lia|].
  assert (∀ j, 0 ≤ j < fir_end n →
               T j (env (fir_end n - 1 - j)%Z)
               = (env (fir_end n - 1 - j)%Z
                  * sin (2 * PI * c
                         * (IZR (j + 1) - 1 / 2 * IZR (1 - fir_o n)))
                  / (PI * (IZR (j + 1) - 1 / 2 * IZR (1 - fir_o n))))%R)
    as HT.
  { intros j Hj. unfold T, lp_body. cbn. unfold k2.
    rewrite Hu. rewrite u32_small by (unfold UINT_MAX in *; lia). done. }
  assert (st_g s
          = ((if decide (fir_o n ≠ 0%Z) then c * env (fir_end n) * 2 else 0)
             + sumR (λ i, 2 * (env (fir_end n - 1 - Z.of_nat i)%Z
                  * sin (2 * PI * c
                         * (IZR (Z.of_nat i + 1) - 1 / 2 * IZR (1 - fir_o n)))
                  / (PI * (IZR (Z.of_nat i + 1)
                           - 1 / 2 * IZR (1 - fir_o n)))))
                    (Z.to_nat (fir_end n)))%R) as Hg'.
  { rewrite Hg. f_equal.
    - destruct (decide (fir_o n ≠ 0)); [by destruct Hcentre|done].
    - apply sumR_ext. intros i Hi. rewrite HT by lia. done. }
  rewrite <- Hg'. split.
  - intros j Hj. destruct (Hside j Hj) as [Ha Hb].
    rewrite Ha, Hb, HT by done. done.
  - intros Ho. rewrite decide_True by done.
    rewrite decide_True in Hcentre by done. destruct Hcentre as [-> Hc].
    by apply Hmid.
Qed.

(** X19: In exact arithmetic the taps of a high-pass design are the unit
    impulse minus the windowed sinc: the centre tap is
    [1 - 2 fc env(end)], tap [end-1-j] and its mirror image [n-end+j] are
    [- env(end-1-j) sin(2 pi fc t) / (pi t)] at [t = j + 1]; all of them
    are divided by [g], the centre value plus, for the pairs at odd [j],
    and minus, for the pairs at even [j], twice the side value. *)
Theorem design_fir_hp_taps {FH : FilterH} {WG : WindowGen ftype_R}
    (n : Z) (w fc : list R) (flags : Z) (opt : R) (env : Z → R)
    (w' : list R) :
  0 < n < UINT_MAX →
  kind_of flags = Some kHP →
  window_of (FT := ftype_R) n flags opt = Some env →
  design_fir (FT := ftype_R) (LM := libm_R) n (Some w) fc flags opt
  = Some (0, Some w') →
  ∃ fc0 : R,
    load fc 0 = Some fc0 ∧
    let c : R := cutoff (FT := ftype_R) fc0 in
    let side := λ j : Z,
      (-1 * env (fir_end n - 1 - j)%Z * sin (2 * PI * c * IZR (j + 1))
       / (PI * IZR (j + 1)))%R in
    let centre := (1 - c * env (fir_end n) * 2)%R in
    let g := (centre
              + sumR (λ t, if Z.odd (Z.of_nat t)
                           then 2 * side (Z.of_nat t)
                           else -2 * side (Z.of_nat t))
                     (Z.to_nat (fir_end n)))%R in
    (∀ j, 0 ≤ j < fir_end n →
          load w' (fir_end n - 1 - j) = Some (side j * (1 / g))%R ∧
          load w' (n - fir_end n + j) = Some (side j * (1 / g))%R) ∧
    load w' (fir_end n) = Some (centre * (1 / g))%R.
Proof.
  intros Hn Hk Henv Hrun.
  apply (design_fir_0 (FT := ftype_R) (LM := libm_R)) in Hrun
    as (_ & s & Ht & Hnorm).
  destruct (fir_taps_Next (FT := ftype_R) (LM := libm_R) n w fc flags opt s
              ltac:(lia) Ht) as (Hle & Hlen & _).
  destruct (fir_taps_hp_env (FT := ftype_R) (LM := libm_R) n w fc flags opt
              env s Hn Hk Henv Ht)
    as (Ho & fc0 & wc & Hfc & Hloop & Hwc & Hcentre).
  exists fc0. split; [done|]. cbn zeta.
  pose proof (end_bounds n ltac:(lia)) as Hend.
  set (c := cutoff (FT := ftype_R) fc0 : R) in *.
  set (k1 := (f_of_Z (FType := ftype_R) 2 * M_PI (Libm := libm_R) * c)%fp) in *.
  set (T := λ (j : Z) (x : R),
         fst (hp_body (FT := ftype_R) (LM := libm_R) k1 j x 0%R)).
  set (D := λ (j : Z) (x : R),
         if decide (Z.land j 1 ≠ 0) then (2 * T j x)%R else (-2 * T j x)%R).
  destruct (design_taps_exact T D (hp_body (FT := ftype_R) (LM := libm_R) k1) n wc
              (1 - c * env (fir_end n) * 2)%R env s w')
    as (Hg & Hside & Hmid);
    [|exact Hn|exact Hloop|exact Hwc|exact Hnorm|lia|].
  { intros i wi g. unfold D, T, hp_body. cbn. by destruct (decide _). }
  assert (∀ j, 0 ≤ j < fir_end n →
               T j (env (fir_end n - 1 - j)%Z)
               = (-1 * env (fir_end n - 1 - j)%Z
                  * sin (2 * PI * c * IZR (j + 1)) / (PI * IZR (j + 1)))%R)
    as HT.
  { intros j Hj. unfold T, hp_body. cbn.
    rewrite u32_small by (unfold UINT_MAX in *; lia). done. }
  assert (st_g s
          = (1 - c * env (fir_end n) * 2
             + sumR (λ t, if Z.odd (Z.of_nat t)
                          then 2 * (-1 * env (fir_end n - 1 - Z.of_nat t)%Z
                                    * sin (2 * PI * c * IZR (Z.of_nat t + 1))
                                    / (PI * IZR (Z.of_nat t + 1)))
                          else -2 * (-1 * env (fir_end n - 1 - Z.of_nat t)%Z
                                     * sin (2 * PI * c * IZR (Z.of_nat t + 1))
                                     / (PI * IZR (Z.of_nat t + 1))))
                    (Z.to_nat (fir_end n)))%R) as Hg'.
  { rewrite Hg. f_equal. apply sumR_ext. intros t Ht'.
    unfold D. rewrite land_1_odd, HT by lia.
    by destruct (Z.odd (Z.of_nat t)). }
  rewrite <- Hg'. split.
  - intros j Hj. destruct (Hside j Hj) as [Ha Hb].
    rewrite Ha, Hb, HT by done. done.
  - by apply Hmid.
Qed.

(** X20: In exact arithmetic the taps of a band-pass design are the windowed
    difference of two sincs: tap [end-1-j] and its mirror image are
    [env(end-1-j) (sin(2 pi fc2 t) - sin(2 pi fc1 t)) / (pi t)], written
    as the difference of the two quotients, at [t = j + 1], or [j + 1/2]
    for an even length; the centre tap of an odd length is
    [2 (fc2 - fc1) env(end)].  They are divided by [g], which is not
    their sum: it adds, over the pairs, the envelope times the sum of
    the two sincs, and [env(end) (fc1 + fc2)] for the centre. *)
Theorem design_fir_bp_taps {FH : FilterH} {WG : WindowGen ftype_R}
    (n : Z) (w fc : list R) (flags : Z) (opt : R) (env : Z → R)
    (w' : list R) :
  0 < n < UINT_MAX →
  kind_of flags = Some kBP →
  window_of (FT := ftype_R) n flags opt = Some env →
  design_fir (FT := ftype_R) (LM := libm_R) n (Some w) fc flags opt
  = Some (0, Some w') →
  ∃ fc0 fc1 : R,
    load fc 0 = Some fc0 ∧ load fc 1 = Some fc1 ∧
    let c1 : R := cutoff (FT := ftype_R) fc0 in
    let c2 : R := cutoff (FT := ftype_R) fc1 in
    let t := λ j : Z, (IZR (j + 1) - 1 / 2 * IZR (1 - fir_o n))%R in
    let sinc := λ (c : R) (j : Z), (sin (2 * PI * c * t j) / (PI * t j))%R in
    let side := λ j : Z,
      (env (fir_end n - 1 - j)%Z * (sinc c2 j - sinc c1 j))%R in
    let g := ((if decide (fir_o n ≠ 0%Z) then env (fir_end n) * (c1 + c2)
               else 0)
              + sumR (λ i, env (fir_end n - 1 - Z.of_nat i)%Z
                           * (sinc c1 (Z.of_nat i) + sinc c2 (Z.of_nat i)))
                     (Z.to_nat (fir_end n)))%R in
    (∀ j, 0 ≤ j < fir_end n →
          load w' (fir_end n - 1 - j) = Some (side j * (1 / g))%R ∧
          load w' (n - fir_end n + j) = Some (side j * (1 / g))%R) ∧
    (fir_o n ≠ 0 →
     load w' (fir_end n)
     = Some ((c2 - c1) * env (fir_end n) * 2 * (1 / g))%R).
Proof.
  intros Hn Hk Henv Hrun.
  apply (design_fir_0 (FT := ftype_R) (LM := libm_R)) in Hrun
    as (_ & s & Ht & Hnorm).
  destruct (fir_taps_Next (FT := ftype_R) (LM := libm_R) n w fc flags opt s
              ltac:(lia) Ht) as (Hle & Hlen & _).
  destruct (fir_taps_bp_env (FT := ftype_R) (LM := libm_R) n w fc flags opt
              env s Hn Hk Henv Ht)
    as (fc0 & fc1 & wc & g0 & Hfc0 & Hfc1 & Hloop & Hwc & Hcentre).
  exists fc0, fc1. split; [done|]. split; [done|]. cbn zeta.
  pose proof (end_bounds n ltac:(lia)) as Hend.
  assert (u32 (1 - fir_o n) = 1 - fir_o n) as Hu.
  { unfold fir_o. rewrite land_1_odd. by destruct (Z.odd n). }
  set (c1 := cutoff (FT := ftype_R) fc0 : R) in *.
  set (c2 := cutoff (FT := ftype_R) fc1 : R) in *.
  set (k1 := (f_of_Z (FType := ftype_R) 2 * M_PI (Libm := libm_R) * c1)%fp) in *.
  set (k3 := (f_of_Z (FType := ftype_R) 2 * M_PI (Libm := libm_R) * c2)%fp) in *.
  set (k2 := (f0_5 (FType := ftype_R) * f_of_Z (u32 (1 - fir_o n)))%fp) in *.
  set (T := λ (j : Z) (x : R),
         fst (bp_body (FT := ftype_R) (LM := libm_R) k1 k2 k3 j x 0%R)).
  set (D := λ (j : Z) (x : R),
         (snd (bp_body (FT := ftype_R) (LM := libm_R) k1 k2 k3 j x 0%R)
          - 0)%R).
  destruct (design_taps_exact T D
              (bp_body (FT := ftype_R) (LM := libm_R) k1 k2 k3) n wc g0 env s w')
    as (Hg & Hside & Hmid);
    [|exact Hn|exact Hloop|exact Hwc|exact Hnorm|lia|].
  { intros i wi g. unfold D, T, bp_body. cbn. f_equal. lra. }
  assert (∀ j, 0 ≤ j < fir_end n →
               u32 (j + 1) = j + 1) as Hj1.
  { intros j Hj. apply u32_small. unfold UINT_MAX in *. lia. }
  assert (st_g s
          = ((if decide (fir_o n ≠ 0%Z) then env (fir_end n) * (c1 + c2)
              else 0)
             + sumR (λ i,
                 env (fir_end n - 1 - Z.of_nat i)%Z
                 * (sin (2 * PI * c1
                         * (IZR (Z.of_nat i + 1) - 1 / 2 * IZR (1 - fir_o n)))
                    / (PI * (IZR (Z.of_nat i + 1) - 1 / 2 * IZR (1 - fir_o n)))
                    + sin (2 * PI * c2
                           * (IZR (Z.of_nat i + 1) - 1 / 2 * IZR (1 - fir_o n)))
                      / (PI * (IZR (Z.of_nat i + 1)
                               - 1 / 2 * IZR (1 - fir_o n)))))
                 (Z.to_nat (fir_end n)))%R) as Hg'.
  { rewrite Hg. f_equal.
    - destruct (decide (fir_o n ≠ 0)); [by destruct Hcentre|done].
    - apply sumR_ext. intros i Hi. unfold D, bp_body. cbn.
      unfold k2. rewrite Hu, Hj1 by lia. lra. }
  rewrite <- Hg'. split.
  - intros j Hj. destruct (Hside j Hj) as [Ha Hb].
    rewrite Ha, Hb. unfold T, bp_body. cbn. unfold k2.
    rewrite Hu, Hj1 by lia. done.
  - intros Ho. rewrite decide_True in Hcentre by done.
    destruct Hcentre as [_ Hc]. by apply Hmid.
Qed.

(** X21: In exact arithmetic the taps of a band-stop design are the unit
    impulse minus the band-pass kernel: the centre tap is
    [1 - 2 (fc2 - fc1) env(end)], tap [end-1-j] and its mirror image are
    [env(end-1-j) (sin(2 pi fc1 t) - sin(2 pi fc2 t)) / (pi t)], written
    as the difference of the two quotients, at [t = j + 1]; all of them
    are divided by their sum [g]. *)
Theorem design_fir_bs_taps {FH : FilterH} {WG : WindowGen ftype_R}
    (n : Z) (w fc : list R) (flags : Z) (opt : R) (env : Z → R)
    (w' : list R) :
  0 < n < UINT_MAX →
  kind_of flags = Some kBS →
  window_of (FT := ftype_R) n flags opt = Some env →
  design_fir (FT := ftype_R) (LM := libm_R) n (Some w) fc flags opt
  = Some (0, Some w') →
  ∃ fc0 fc1 : R,
    load fc 0 = Some fc0 ∧ load fc 1 = Some fc1 ∧
    let c1 : R := cutoff (FT := ftype_R) fc0 in
    let c2 : R := cutoff (FT := ftype_R) fc1 in
    let sinc := λ (c : R) (j : Z),
      (sin (2 * PI * c * IZR (j + 1)) / (PI * IZR (j + 1)))%R in
    let side := λ j : Z,
      (env (fir_end n - 1 - j)%Z * (sinc c1 j - sinc c2 j))%R in
    let centre := (1 - (c2 - c1) * env (fir_end n) * 2)%R in
    let g := (centre + sumR (λ i, 2 * side (Z.of_nat i))
                            (Z.to_nat (fir_end n)))%R in
    (∀ j, 0 ≤ j < fir_end n →
          load w' (fir_end n - 1 - j) = Some (side j * (1 / g))%R ∧
          load w' (n - fir_end n + j) = Some (side j * (1 / g))%R) ∧
    load w' (fir_end n) = Some (centre * (1 / g))%R.
Proof.
  intros Hn Hk Henv Hrun.
  apply (design_fir_0 (FT := ftype_R) (LM := libm_R)) in Hrun
    as (_ & s & Ht & Hnorm).
  destruct (fir_taps_Next (FT := ftype_R) (LM := libm_R) n w fc flags opt s
              ltac:(lia) Ht) as (Hle & Hlen & _).
  destruct (fir_taps_bs_env (FT := ftype_R) (LM := libm_R) n w fc flags opt
              env s Hn Hk Henv Ht)
    as (Ho & fc0 & fc1 & wc & Hfc0 & Hfc1 & Hloop & Hwc & Hcentre).
  exists fc0, fc1. split; [done|]. split; [done|]. cbn zeta.
  pose proof (end_bounds n ltac:(lia)) as Hend.
  set (c1 := cutoff (FT := ftype_R) fc0 : R) in *.
  set (c2 := cutoff (FT := ftype_R) fc1 : R) in *.
  set (k1 := (f_of_Z (FType := ftype_R) 2 * M_PI (Libm := libm_R) * c1)%fp) in *.
  set (k3 := (f_of_Z (FType := ftype_R) 2 * M_PI (Libm := libm_R) * c2)%fp) in *.
  set (T := λ (j : Z) (x : R),
         fst (bs_body (FT := ftype_R) (LM := libm_R) k1 k3 j x 0%R)).
  destruct (design_taps_exact T (λ j x, 2 * T j x)%R
              (bs_body (FT := ftype_R) (LM := libm_R) k1 k3) n wc
              (1 - (c2 - c1) * env (fir_end n) * 2)%R env s w')
    as (Hg & Hside & Hmid);
    [done|exact Hn|exact Hloop|exact Hwc|exact Hnorm|lia|].
  assert (∀ j, 0 ≤ j < fir_end n →
               T j (env (fir_end n - 1 - j)%Z)
               = (env (fir_end n - 1 - j)%Z
                  * (sin (2 * PI * c1 * IZR (j + 1)) / (PI * IZR (j + 1))
                     - sin (2 * PI * c2 * IZR (j + 1)) / (PI * IZR (j + 1))))%R)
    as HT.
  { intros j Hj. unfold T, bs_body. cbn.
    rewrite u32_small by (unfold UINT_MAX in *; lia). done. }
  assert (st_g s
          = (1 - (c2 - c1) * env (fir_end n) * 2
             + sumR (λ i, 2 * (env (fir_end n - 1 - Z.of_nat i)%Z
                  * (sin (2 * PI * c1 * IZR (Z.of_nat i + 1))
                     / (PI * IZR (Z.of_nat i + 1))
                     - sin (2 * PI * c2 * IZR (Z.of_nat i + 1))
                       / (PI * IZR (Z.of_nat i + 1)))))
                    (Z.to_nat (fir_end n)))%R) as Hg'.
  { rewrite Hg. f_equal. apply sumR_ext. intros i Hi.
    rewrite HT by lia. done. }
  rewrite <- Hg'. split.
  - intros j Hj. destruct (Hside j Hj) as [Ha Hb].
    rewrite Ha, Hb, HT by done. done.
  - by apply Hmid.
Qed.
End ExactShape.

(** ** The bilinear transform, in exact arithmetic *)

Module ExactIIR.
Import Reals Lra Exact.

Lemma warp_1_4 : warp 1 4 = 8%R.
Proof.
  unfold warp. replace (PI * 1 / 4)%R with (PI / 4)%R by lra.
  rewrite tan_PI4. lra.
Qed.

(** X22: Prewarping rescales the frequency axis of the polynomial by [wp]:
    the prewarped polynomial at [wp * s] is the given one at [s]. *)
Theorem prewarp_rescales (a : list R) (fc fs : R) :
  (3 ≤ length a)%nat → warp fc fs ≠ 0%R →
  ∃ a' : list R,
    prewarp (FT := ftype_R) (LM := libm_R) a fc fs = Some a' ∧
    length a' = length a ∧
    ∀ s : R, poly2 a' (warp fc fs * s) = poly2 a s.
Proof.
  intros Hlen Hwp.
  destruct a as [|a0 [|a1 [|a2 rest]]]; try (cbn in Hlen; lia).
  eexists. split; [unfold prewarp; buf_simpl; reflexivity|]. split; [done|].
  intros s. unfold poly2, tapZ. buf_simpl. cbn. fold (warp fc fs). by field.
Qed.

(** X22 with [fc / fs = 1/4], where [wp = 8]. *)
Lemma prewarp_rescales_witness :
  ∃ a' : list R,
    prewarp (FT := ftype_R) (LM := libm_R) [1; 2; 3]%R 1%R 4%R = Some a' ∧
    poly2 a' (warp 1 4 * 1) = poly2 [1; 2; 3]%R 1.
Proof.
  destruct (prewarp_rescales [1; 2; 3]%R 1 4) as (a' & Hrun & _ & Hp);
    [simpl; lia|rewrite warp_1_4; lra|].
  exists a'. split; [exact Hrun|apply Hp].
Defined.

(** X23: [bilinear] realises the substitution [s = 2 fs (1 - u) / (1 + u)],
    [u = z^(-1)]: the gain it leaves in [*k], times the z-domain biquad
    it stores in [coef], is the gain it was given times the s-domain
    biquad [a / b].  The divisors [ad] and [bd] are the values of [a] and
    [b] at [s = 2 fs]. *)
Theorem bilinear_transfer (a b coef : list R) (k fs : R) :
  (3 ≤ length a)%nat → (3 ≤ length b)%nat → (4 ≤ length coef)%nat →
  poly2 a (2 * fs) ≠ 0%R → poly2 b (2 * fs) ≠ 0%R →
  ∃ (k' : R) (coef' : list R),
    bilinear (FT := ftype_R) a b k fs coef = Some (k', coef') ∧
    k' = (k * (poly2 a (2 * fs) / poly2 b (2 * fs)))%R ∧
    length coef' = length coef ∧
    (∀ i, 4 ≤ i → load coef' i = load coef i) ∧
    ∀ u s : R,
      (1 + u)%R ≠ 0%R → s = (2 * fs * (1 - u) / (1 + u))%R →
      (k' * z_num coef' u * poly2 b s = k * poly2 a s * z_den coef' u)%R.
Proof.
  intros Ha Hb Hc Had Hbd.
  destruct a as [|a0 [|a1 [|a2 ra]]]; try (cbn in Ha; lia).
  destruct b as [|b0 [|b1 [|b2 rb]]]; try (cbn in Hb; lia).
  destruct coef as [|c0 [|c1 [|c2 [|c3 rc]]]]; try (cbn in Hc; lia).
  unfold poly2, tapZ in Had, Hbd. revert Had Hbd. buf_simpl. cbn.
  intros Had Hbd.
  eexists _, _. split; [unfold bilinear; buf_simpl; reflexivity|].
  split; [unfold poly2, tapZ, s_gain; buf_simpl; cbn; f_equal; f_equal; lra|].
  split; [done|]. split.
  { intros i Hi. by rewrite !load_cons_pos by lia. }
  intros u s Hu ->. unfold z_num, z_den, poly2, tapZ, s_gain. buf_simpl. cbn.
  field. repeat split; try done; lra.
Qed.

Lemma flt_R_iff (x y : R) : flt (FType := ftype_R) x y = true ↔ (x < y)%R.
Proof. cbn. destruct (Rlt_dec x y); split; (done || lra). Qed.

Lemma Q_in_range (Q : R) :
  (1 <= Q <= 1000)%R →
  flt (FType := ftype_R) (f_of_Z 1000) Q || flt (FType := ftype_R) Q (f_of_Z 1)
  = false.
Proof.
  intros HQ. apply orb_false_intro; apply not_true_is_false;
    rewrite flt_R_iff; cbn; lra.
Qed.

(** X24: [szxform] composes the damping by [Q], the prewarping and the
    bilinear substitution: the gain it leaves in [*k], times the z-domain
    biquad it stores, is the gain it was given times the s-domain biquad
    [a / b] with [b[1]] divided by [Q], on the frequency axis divided by
    [wp]. *)
Theorem szxform_transfer (a b coef : list R) (Q fc fs k : R) :
  (3 ≤ length a)%nat → (3 ≤ length b)%nat → (4 ≤ length coef)%nat →
  (1 <= Q <= 1000)%R → warp fc fs ≠ 0%R →
  poly2 a (2 * fs / warp fc fs) ≠ 0%R →
  poly2 (damp b Q) (2 * fs / warp fc fs) ≠ 0%R →
  ∃ (k' : R) (coef' : list R),
    szxform (FT := ftype_R) (LM := libm_R) (Some a) (Some b) Q fc fs
      (Some k) (Some coef)
    = Some (0, Some k', Some coef') ∧
    ∀ u s : R,
      (1 + u)%R ≠ 0%R → s = (2 * fs * (1 - u) / (1 + u))%R →
      (k' * z_num coef' u * poly2 (damp b Q) (s / warp fc fs)
       = k * poly2 a (s / warp fc fs) * z_den coef' u)%R.
Proof.
  intros Ha Hb Hc HQ Hwp Had Hbd.
  destruct a as [|a0 [|a1 [|a2 ra]]]; try (cbn in Ha; lia).
  destruct b as [|b0 [|b1 [|b2 rb]]]; try (cbn in Hb; lia).
  destruct coef as [|c0 [|c1 [|c2 [|c3 rc]]]]; try (cbn in Hc; lia).
  unfold damp, poly2, tapZ in *. revert Had Hbd. cbn. buf_simpl. cbn.
  intros Had Hbd.
  eexists _, _. split.
  { unfold szxform.
    destruct (Rlt_dec 1000 Q); [exfalso; lra|].
    destruct (Rlt_dec Q 1); [exfalso; lra|].
    cbn [orb].
    unfold copy3. rewrite !decide_True by (cbn; lia). cbn [take].
    unfold prewarp, bilinear. buf_simpl. reflexivity. }
  intros u s Hu ->. unfold z_num, z_den, tapZ, s_gain. buf_simpl. cbn.
  fold (warp fc fs). fold (warp fc fs) in Had, Hbd.
  set (wp := warp fc fs) in *. clearbody wp.
  assert (Q ≠ 0)%R as HQ0 by lra.
  field. repeat split; try done.
  - intros Heq. apply Hbd.
    transitivity ((4 * b2 * fs * fs * Q + 2 * b1 * fs * wp
                   + b0 * (wp * (Q * wp))) / (Q * (wp * wp)))%R;
      [by field|rewrite Heq; by field].
  - intros Heq. apply Had.
    transitivity ((4 * a2 * fs * fs + 2 * a1 * fs * wp + a0 * (wp * wp))
                  / (wp * wp))%R;
      [by field|rewrite Heq; by field].
Qed.

(** X24 on a one-pole-pair section at [u = 1], that is [s = 0], with
    [fc / fs = 1/4]. *)
Lemma szxform_transfer_witness :
  ∃ (k' : R) (coef' : list R),
    szxform (FT := ftype_R) (LM := libm_R) (Some [1; 0; 0]%R)
      (Some [1; 1; 1]%R) 1%R 1%R 4%R (Some 1%R) (Some [0; 0; 0; 0]%R)
    = Some (0, Some k', Some coef') ∧
    (k' * z_num coef' 1 * poly2 (damp [1; 1; 1]%R 1) (0 / warp 1 4)
     = 1 * poly2 [1; 0; 0]%R (0 / warp 1 4) * z_den coef' 1)%R.
Proof.
  destruct (szxform_transfer [1; 0; 0]%R [1; 1; 1]%R [0; 0; 0; 0]%R 1 1 4 1)
    as (k' & coef' & Hrun & Hz).
  - simpl. lia.
  - simpl. lia.
  - simpl. lia.
  - lra.
  - rewrite warp_1_4. lra.
  - rewrite warp_1_4. cbv -[Rplus Rmult Rdiv IZR]. lra.
  - rewrite warp_1_4. cbv -[Rplus Rmult Rdiv IZR]. lra.
  - exists k', coef'. split; [exact Hrun|]. apply Hz; lra.
Defined.

(** X25: In exact arithmetic the range test on [Q] is inclusive at both
    ends: with valid buffers [szxform] returns 0 exactly when
    [1 <= Q <= 1000], and when it does not it returns -1 and leaves [*k]
    and [coef] as they were. *)
Theorem szxform_accepts_iff (a b coef : list R) (Q fc fs k : R) :
  (3 ≤ length a)%nat → (3 ≤ length b)%nat → (4 ≤ length coef)%nat →
  ∃ (r : Z) (k' : R) (coef' : list R),
    szxform (FT := ftype_R) (LM := libm_R) (Some a) (Some b) Q fc fs
      (Some k) (Some coef)
    = Some (r, Some k', Some coef') ∧
    (r = 0 ↔ (1 <= Q <= 1000)%R) ∧
    (r ≠ 0 → r = -1 ∧ k' = k ∧ coef' = coef).
Proof.
  intros Ha Hb Hc.
  assert ((1 <= Q <= 1000)%R ∨ ¬ (1 <= Q <= 1000)%R) as [HQ|HQ].
  { destruct (Rle_dec 1 Q), (Rle_dec Q 1000); (by left) || (right; lra). }
  - destruct (szxform_gain (FT := ftype_R) (LM := libm_R)
                (Biquad (FT := ftype_R) a b Q fc fs coef) k) as (r & coef' & _ & Hrun).
    { unfold biquad_ok. cbn [bq_a bq_b bq_Q bq_coef].
      destruct (orb_false_elim _ _ (Q_in_range Q HQ)) as [H1 H2]. done. }
    cbn [bq_a bq_b bq_Q bq_fc bq_fs bq_coef] in Hrun.
    eexists 0, _, coef'. split; [exact Hrun|]. split; [done|]. done.
  - exists (-1), k, coef. split.
    + unfold szxform.
      assert (flt (FType := ftype_R) (f_of_Z 1000) Q
              || flt (FType := ftype_R) Q (f_of_Z 1) = true) as ->; [|done].
      apply orb_true_iff. rewrite !flt_R_iff. cbn.
      destruct (Rlt_dec 1000 Q); [by left|right; lra].
    + split; [|done]. split; [done|]. intros. done.
Qed.

(** X25 with [Q = 1001]. *)
Lemma szxform_accepts_iff_witness :
  ∃ (r : Z) (k' : R) (coef' : list R),
    szxform (FT := ftype_R) (LM := libm_R) (Some [1; 0; 0]%R)
      (Some [1; 1; 1]%R) 1001%R 1%R 4%R (Some 1%R) (Some [0; 0; 0; 0]%R)
    = Some (r, Some k', Some coef') ∧
    (r = 0 ↔ (1 <= 1001 <= 1000)%R) ∧
    (r ≠ 0 → r = -1 ∧ k' = 1%R ∧ coef' = [0; 0; 0; 0]%R).
Proof.
  apply (szxform_accepts_iff [1; 0; 0]%R [1; 1; 1]%R [0; 0; 0; 0]%R);
    simpl; lia.
Defined.
End ExactIIR.

(** ** The range test of [szxform] in double arithmetic *)

(** X26: In double arithmetic a NaN [Q] passes the range test of [szxform]:
    both [Q > 1000.0] and [Q < 1.0] are false of it, so with buffers of
    three coefficients and four outputs the call returns 0, whatever the
    math library and the other arguments. *)
Theorem szxform_accepts_nan (LM : Libm Double.ftype_double)
    (a0 a1 a2 b0 b1 b2 c0 c1 c2 c3 : PrimFloat.float)
    (ra rb rc : list PrimFloat.float) (fc fs k : PrimFloat.float) :
  ∃ (k' : PrimFloat.float) (coef' : list PrimFloat.float),
    szxform (FT := Double.ftype_double) (Some (a0 :: a1 :: a2 :: ra))
      (Some (b0 :: b1 :: b2 :: rb)) PrimFloat.nan fc fs (Some k)
      (Some (c0 :: c1 :: c2 :: c3 :: rc))
    = Some (0, Some k', Some coef') ∧
    length coef' = length (c0 :: c1 :: c2 :: c3 :: rc).
Proof.
  unfold szxform.
  change (flt (FType := Double.ftype_double) (f_of_Z 1000) PrimFloat.nan)
    with false.
  change (flt (FType := Double.ftype_double) PrimFloat.nan (f_of_Z 1))
    with false.
  cbn [orb]. unfold copy3. rewrite !decide_True by (cbn [length]; lia).
  cbn [take]. unfold prewarp, bilinear. buf_simpl.
  eexists _, _. split; reflexivity.
Qed.

(** ** More concrete requests *)

Module MoreExamples.
Import Reals Lra Exact ExactGain ExactShape ExactIIR.
Import DesignExamples.

#[local] Existing Instances ftype_R libm_R example_flags.
#[local] Existing Instance rect_windows.

(** X12 on a low-pass request of length 2 and a buffer of three cells: the
    third cell keeps its 5. *)
Lemma design_fir_frame_witness :
  ∃ c w',
    design_fir 2 (Some [0; 0; 5]%R) [1; 1]%R lp_boxcar 0%R = Some (c, Some w') ∧
    length w' = 3%nat ∧ load w' 2 = Some 5%R.
Proof.
  destruct (design_fir_returns (FT := ftype_R) 2 [0; 0; 5]%R [1; 1]%R
              lp_boxcar 0%R) as (w' & Hrun & _);
    [unfold UINT_MAX; lia|simpl; lia|simpl; lia|].
  destruct (design_fir_frame (FT := ftype_R) 2 [0; 0; 5]%R [1; 1]%R
              lp_boxcar 0%R _ w' ltac:(unfold UINT_MAX; lia) Hrun)
    as [Hlen Hfr].
  eexists _, w'. split; [exact Hrun|]. split; [exact Hlen|].
  rewrite Hfr by lia. reflexivity.
Defined.

(** X13 with [n = 0]. *)
Lemma design_fir_rejects_untouched_witness :
  design_fir 0 (Some [5%R]) [1%R] lp_boxcar 0%R = Some (-1, Some [5%R]).
Proof.
  apply (design_fir_rejects_untouched (FT := ftype_R)). right. left.
  reflexivity.
Defined.

(** X14 with the selector [BOXCAR] alone: both taps are [1 * (1/0)]. *)
Lemma design_fir_no_kind_witness :
  ∃ w',
    design_fir 2 (Some [0; 0]%R) [] 0x01 0%R = Some (0, Some w') ∧
    load w' 1 = Some (1 * (1 / 0))%R.
Proof.
  destruct (design_fir_no_kind (FT := ftype_R) 2 [0; 0]%R [] 0x01 0%R
              (λ _, 1%R)) as (w' & Hrun & Hw');
    [lia|simpl; lia|reflexivity|reflexivity|reflexivity|].
  exists w'. split; [exact Hrun|]. apply Hw'. lia.
Defined.

(** X15 on a low-pass request of length 1. *)
Lemma design_fir_single_cutoff_witness :
  design_fir 1 (Some [0%R]) [1; 7]%R lp_boxcar 0%R
  = design_fir 1 (Some [0%R]) [1%R] lp_boxcar 0%R.
Proof.
  apply (design_fir_single_cutoff (FT := ftype_R)). reflexivity.
Defined.

(** X16 on a band-stop request with one cutoff. *)
Lemma design_fir_band_needs_two_cutoffs_witness :
  design_fir 1 (Some [0%R]) [1%R] 0x80001 0%R = None.
Proof.
  apply (design_fir_band_needs_two_cutoffs (FT := ftype_R));
    [lia|simpl; lia|by eexists|reflexivity|discriminate].
Defined.

(** The band-stop request of length 1 with the rectangular window and
    the band from 0.5 to 1.0: the centre tap and the gain are
    [1 - (1/2 - 1/4) * 1 * 2]. *)
Lemma bs1_taps :
  fir_taps 1 [0%R] [(1 / 2)%R; 1%R] 0x80001 0%R
  = Some (Next (FirState [(1 - (1 / 2 - 1 / 2 / 2) * 1 * 2)%R]
                         (1 - (1 / 2 - 1 / 2 / 2) * 1 * 2)%R
                         (2 * PI * (1 / 2 / 2))%R)).
Proof.
  pose proof cutoff_R_1 as Hc1. pose proof cutoff_R_half as Hc2.
  eval_R_in Hc1. eval_R_in Hc2. eval_R. rewrite Hc1, Hc2. reflexivity.
Qed.

(** X17 on the band-stop request of length 1 above. *)
Lemma design_fir_bs_unit_dc_witness :
  ∃ w' : list R,
    design_fir 1 (Some [0%R]) [(1 / 2)%R; 1%R] 0x80001 0%R
    = Some (0, Some w') ∧
    dc_gain 1 w' = 1%R.
Proof.
  apply (design_fir_bs_unit_dc 1 [0%R] [(1 / 2)%R; 1%R] 0x80001 0%R
           (FirState (FT := ftype_R) [(1 - (1 / 2 - 1 / 2 / 2) * 1 * 2)%R]
                     (1 - (1 / 2 - 1 / 2 / 2) * 1 * 2)%R
                     (2 * PI * (1 / 2 / 2))%R)).
  - unfold UINT_MAX. lia.
  - reflexivity.
  - exact bs1_taps.
  - cbn. lra.
Defined.

(** X23 on a one-pole-pair section with [fs = 1], at [u = 1], that is
    [s = 0]. *)
Lemma bilinear_transfer_witness :
  ∃ (k' : R) (coef' : list R),
    bilinear (FT := ftype_R) [1; 0; 0]%R [1; 1; 1]%R 1%R 1%R [0; 0; 0; 0]%R
    = Some (k', coef') ∧
    k' = (1 * (poly2 [1; 0; 0]%R (2 * 1) / poly2 [1; 1; 1]%R (2 * 1)))%R ∧
    (k' * z_num coef' 1 * poly2 [1; 1; 1]%R 0
     = 1 * poly2 [1; 0; 0]%R 0 * z_den coef' 1)%R.
Proof.
  destruct (bilinear_transfer [1; 0; 0]%R [1; 1; 1]%R [0; 0; 0; 0]%R 1 1)
    as (k' & coef' & Hrun & Hk & _ & _ & Hz).
  - simpl. lia.
  - simpl. lia.
  - simpl. lia.
  - cbv -[Rplus Rmult IZR]. lra.
  - cbv -[Rplus Rmult IZR]. lra.
  - exists k', coef'. split; [exact Hrun|]. split; [exact Hk|].
    apply Hz; lra.
Defined.

(** X18 on a low-pass request of length 3: the two side taps. *)
Lemma design_fir_lp_taps_witness :
  ∃ (w' : list R) (fc0 g : R),
    design_fir 3 (Some [0; 0; 0]%R) [(1 / 2)%R; 1%R] lp_boxcar 0%R
    = Some (0, Some w') ∧
    load [(1 / 2)%R; 1%R] 0 = Some fc0 ∧
    load w' 0
    = Some (1 * sin (2 * PI * cutoff fc0 * (IZR (0 + 1) - 1 / 2 * IZR (1 - 1)))
            / (PI * (IZR (0 + 1) - 1 / 2 * IZR (1 - 1))) * (1 / g))%R ∧
    load w' 2
    = Some (1 * sin (2 * PI * cutoff fc0 * (IZR (0 + 1) - 1 / 2 * IZR (1 - 1)))
            / (PI * (IZR (0 + 1) - 1 / 2 * IZR (1 - 1))) * (1 / g))%R.
Proof.
  destruct (design_fir_returns (FT := ftype_R) 3 [0; 0; 0]%R
              [(1 / 2)%R; 1%R] lp_boxcar 0%R) as (w' & Hrun & _);
    [unfold UINT_MAX; lia|simpl; lia|simpl; lia|].
  change (design_fir_code (FT := ftype_R) 3 lp_boxcar 0%R) with 0 in Hrun.
  destruct (design_fir_lp_taps 3 [0; 0; 0]%R [(1 / 2)%R; 1%R] lp_boxcar 0%R
              (λ _, 1%R) w')
    as (fc0 & Hfc & Hside & _);
    [unfold UINT_MAX; lia|reflexivity|reflexivity|exact Hrun|].
  exists w', fc0. eexists. split; [exact Hrun|]. split; [exact Hfc|].
  exact (Hside 0 ltac:(change (fir_end 3) with 1; lia)).
Defined.

(** X19 on a high-pass request of length 3: the centre tap. *)
Lemma design_fir_hp_taps_witness :
  ∃ (w' : list R) (fc0 g : R),
    design_fir 3 (Some [0; 0; 0]%R) [(1 / 2)%R; 1%R] hp_boxcar 0%R
    = Some (0, Some w') ∧
    load [(1 / 2)%R; 1%R] 0 = Some fc0 ∧
    load w' 1 = Some ((1 - cutoff fc0 * 1 * 2) * (1 / g))%R.
Proof.
  destruct (design_fir_returns (FT := ftype_R) 3 [0; 0; 0]%R
              [(1 / 2)%R; 1%R] hp_boxcar 0%R) as (w' & Hrun & _);
    [unfold UINT_MAX; lia|simpl; lia|simpl; lia|].
  change (design_fir_code (FT := ftype_R) 3 hp_boxcar 0%R) with 0 in Hrun.
  destruct (design_fir_hp_taps 3 [0; 0; 0]%R [(1 / 2)%R; 1%R] hp_boxcar 0%R
              (λ _, 1%R) w')
    as (fc0 & Hfc & _ & Hcentre);
    [unfold UINT_MAX; lia|reflexivity|reflexivity|exact Hrun|].
  exists w', fc0. eexists. split; [exact Hrun|]. split; [exact Hfc|].
  exact Hcentre.
Defined.

(** X20 on a band-pass request of the even length 2, where the time of
    the pair is [1/2]. *)
Lemma design_fir_bp_taps_witness :
  ∃ (w' : list R) (fc0 fc1 g : R),
    design_fir 2 (Some [0; 0]%R) [(1 / 2)%R; 1%R] 0x40001 0%R
    = Some (0, Some w') ∧
    load [(1 / 2)%R; 1%R] 0 = Some fc0 ∧ load [(1 / 2)%R; 1%R] 1 = Some fc1 ∧
    load w' 0
    = Some (1 * (sin (2 * PI * cutoff fc1
                      * (IZR (0 + 1) - 1 / 2 * IZR (1 - 0)))
                 / (PI * (IZR (0 + 1) - 1 / 2 * IZR (1 - 0)))
                 - sin (2 * PI * cutoff fc0
                        * (IZR (0 + 1) - 1 / 2 * IZR (1 - 0)))
                   / (PI * (IZR (0 + 1) - 1 / 2 * IZR (1 - 0))))
            * (1 / g))%R.
Proof.
  destruct (design_fir_returns (FT := ftype_R) 2 [0; 0]%R
              [(1 / 2)%R; 1%R] 0x40001 0%R) as (w' & Hrun & _);
    [unfold UINT_MAX; lia|simpl; lia|simpl; lia|].
  change (design_fir_code (FT := ftype_R) 2 0x40001 0%R) with 0 in Hrun.
  destruct (design_fir_bp_taps 2 [0; 0]%R [(1 / 2)%R; 1%R] 0x40001 0%R
              (λ _, 1%R) w')
    as (fc0 & fc1 & Hfc0 & Hfc1 & Hside & _);
    [unfold UINT_MAX; lia|reflexivity|reflexivity|exact Hrun|].
  exists w', fc0, fc1. eexists. split; [exact Hrun|].
  split; [exact Hfc0|]. split; [exact Hfc1|].
  exact (proj1 (Hside 0 ltac:(change (fir_end 2) with 1; lia))).
Defined.

(** X21 on a band-stop request of length 3: the centre tap. *)
Lemma design_fir_bs_taps_witness :
  ∃ (w' : list R) (fc0 fc1 g : R),
    design_fir 3 (Some [0; 0; 0]%R) [(1 / 2)%R; 1%R] 0x80001 0%R
    = Some (0, Some w') ∧
    load [(1 / 2)%R; 1%R] 0 = Some fc0 ∧ load [(1 / 2)%R; 1%R] 1 = Some fc1 ∧
    load w' 1
    = Some ((1 - (cutoff fc1 - cutoff fc0) * 1 * 2) * (1 / g))%R.
Proof.
  destruct (design_fir_returns (FT := ftype_R) 3 [0; 0; 0]%R
              [(1 / 2)%R; 1%R] 0x80001 0%R) as (w' & Hrun & _);
    [unfold UINT_MAX; lia|simpl; lia|simpl; lia|].
  change (design_fir_code (FT := ftype_R) 3 0x80001 0%R) with 0 in Hrun.
  destruct (design_fir_bs_taps 3 [0; 0; 0]%R [(1 / 2)%R; 1%R] 0x80001 0%R
              (λ _, 1%R) w')
    as (fc0 & fc1 & Hfc0 & Hfc1 & _ & Hcentre);
    [unfold UINT_MAX; lia|reflexivity|reflexivity|exact Hrun|].
  exists w', fc0, fc1. eexists. split; [exact Hrun|].
  split; [exact Hfc0|]. split; [exact Hfc1|].
  exact Hcentre.
Defined.
End MoreExamples.
